(** * ggplot: the plot orchestrator ([ggplot/ggplot.py])

    A shallow embedding of the class [ggplot] and of the module-level
    helpers of [ggplot.py]: the constructor, [__repr__], [__deepcopy__],
    [plot_build], [draw], [draw_legend], [render], [set_breaks],
    [set_labels], [set_axis_attributes], [draw_facet_label],
    [set_facet_spacing] and [modify_axis].

    Python objects live in a store ([gmap loc obj]); an instance is its
    [__dict__], a map from attribute names to references.  Code that
    works on the copied plot runs in a state monad over the contents of the
    objects reachable from the local variables ([PlotC], [World]);
    [with_plot] reads those contents through the references of the plot and
    writes them back, so that a write to a shared object is seen through
    every alias.

    The collaborators that are not part of [ggplot.py] (facets, layers,
    scales, panel methods, guides) are the fields of the record [Collab]:
    functions of the contents they can reach, which may change them and may
    raise.  Calls to the drawing surface, to the plot routines of the layers
    and to the theme's hooks are recorded in a trace of events and are not
    interpreted; the call of a transform's [modify_axis] is recorded as
    well, and what it does and raises is the collaborator's. *)

From stdpp Require Import base option list strings gmap.
From Stdlib Require Import ZArith Lia.

Local Open Scope Z_scope.

(** ** Exceptions and results

    [GgplotError] is the error class of [ggplot.utils.exceptions] (the
    specification error of the design); the others are Python's own.
    [SystemError] stands for a reference without an object, which no Python
    store has. *)

Inductive exn : Type :=
| GgplotError (msg : string)
| KeyError (key : string)
| IndexError
| TypeError
| ValueError
| AttributeError (name : string)
| SystemError.

Inductive result (A : Type) : Type :=
| Ok (a : A)
| Raise (e : exn).
Arguments Ok {A} a.
Arguments Raise {A} e.

Definition is_ok {A} (r : result A) : bool :=
  match r with Ok _ => true | Raise _ => false end.

(** ** Cells, data frames and rows *)

Inductive value : Type :=
| VInt (z : Z)
| VStr (s : string)
| VNone.

Definition value_eqb (a b : value) : bool :=
  match a, b with
  | VInt x, VInt y => Z.eqb x y
  | VStr s, VStr t => String.eqb s t
  | _, _ => false
  end.

(** A data frame: column labels and rows of cells, in order. *)
Record DataFrame : Type := mkDataFrame {
  columns : list string;
  rows : list (list value)
}.

(** The row that [iterrows] yields: the cells with their labels. *)
Definition Series : Type := list (string * value).

Fixpoint assoc {A} (k : string) (l : list (string * A)) : option A :=
  match l with
  | [] => None
  | (k', v) :: l' => if String.eqb k k' then Some v else assoc k l'
  end.

Fixpoint index_of (k : string) (l : list string) : option nat :=
  match l with
  | [] => None
  | k' :: l' => if String.eqb k k' then Some 0%nat else S <$> index_of k l'
  end.

(** [pnl[key]] *)
Definition series_get (pnl : Series) (key : string) : result value :=
  match assoc key pnl with
  | Some v => Ok v
  | None => Raise (KeyError key)
  end.

(** [d[key]]: the column as a list of cells *)
Definition df_getcol (d : DataFrame) (key : string) : result (list value) :=
  match index_of key (columns d) with
  | Some i => Ok (map (fun r => nth i r VNone) (rows d))
  | None => Raise (KeyError key)
  end.

(** [col == v], elementwise *)
Definition series_eq (col : list value) (v : value) : list bool :=
  map (fun c => value_eqb c v) col.

Fixpoint select {A} (l : list A) (mask : list bool) : list A :=
  match l, mask with
  | x :: l', b :: mask' => if b then x :: select l' mask' else select l' mask'
  | _, _ => []
  end.

(** [d[bool_idx]] *)
Definition df_mask (d : DataFrame) (bool_idx : list bool) : DataFrame :=
  {| columns := columns d; rows := select (rows d) bool_idx |}.

(** [d.iterrows()], without the index labels *)
Definition iterrows (d : DataFrame) : list Series :=
  map (fun r => combine (columns d) r) (rows d).

(** [v - 1] on a cell *)
Definition value_pred (v : value) : result Z :=
  match v with
  | VInt z => Ok (z - 1)
  | _ => Raise TypeError
  end.

(** [l[i]] on a Python list: a negative index counts from the end. *)
Definition py_index {A} (l : list A) (i : Z) : result A :=
  let n := Z.of_nat (length l) in
  let j := if i <? 0 then i + n else i in
  if (0 <=? j) && (j <? n) then
    match nth_error l (Z.to_nat j) with
    | Some x => Ok x
    | None => Raise IndexError
    end
  else Raise IndexError.

(** The sentinel of [ggplot.utils]: breaks and labels are waived, absent, or
    an explicit list. *)
Inductive pyval : Type :=
| Waive
| PyNone
| PyList (l : list value).

(** Modelled from the spec: [is_waive] of [ggplot.utils], which is not in
    [ggplot.py]; it is true of the waive sentinel and of nothing else. *)
Definition is_waive (x : pyval) : bool :=
  match x with Waive => true | _ => false end.

(** ** Pipeline stages

    One constructor per collaborator that [plot_build] and [draw_legend]
    call; a call is recorded in the trace before it is made. *)

Inductive stage : Type :=
| TrainLayout | MapLayout | ComputeAesthetics | AddGroup | TransformDf
| GetScales (aes : string)
| TrainPosition | MapPosition | CalculateStats | MapStatistic
| ScalesAddMissing | Reparameterise | AdjustPosition | ResetScales
| NonPositionScales | TrainDf | MapDf | TrainRanges
| GuidesBuild | PositionScales.

Definition loc : Type := positive.

Inductive facet_class : Type := FacetNull | FacetGrid | FacetWrap.

Inductive figure : Type := CurrentFigure.

(** The contents of the collaborators' objects, which [ggplot.py] never
    looks into. *)
Class Types : Type := mkTypes {
  Mapping : Type;
  Env : Type;
  Labels : Type;
  Guides : Type;
  Scales : Type;
  Scale : Type;
  Geom : Type;
  FacetSt : Type;
  ThemeSt : Type;
  PanelSt : Type;
  LegendBox : Type;
  Range : Type
}.

Section Ggplot.

Context `{T : Types}.

(** A layer: [x.data] ([None] when the layer draws the plot's data) and the
    rest of the layer. *)
Record Layer : Type := mkLayer {
  l_data : option DataFrame;
  l_geom : Geom
}.

(** A facet: its class and the attributes that [draw] reads. *)
Record Facet : Type := mkFacet {
  facet_cls : facet_class;
  nrow : Z;
  ncol : Z;
  facet_vars : list string;
  facet_rows : list string;
  facet_cols : list string;
  facet_st : FacetSt
}.

(** A theme: [theme._params['legend_position']] and the rest. *)
Record Theme : Type := mkTheme {
  legend_position : string;
  theme_st : ThemeSt
}.

(** An entry of [panel.ranges]. *)
Record Ranges : Type := mkRanges {
  r_x : Range;
  r_y : Range;
  x_breaks : pyval;
  y_breaks : pyval;
  x_labels : pyval;
  y_labels : pyval
}.

Record Panel : Type := mkPanel {
  layout : DataFrame;
  x_scales : list Scale;
  y_scales : list Scale;
  ranges : list Ranges;
  panel_st : PanelSt
}.

(** ** The store *)

Inductive obj : Type :=
| ODataFrame (d : DataFrame)
| OAes (m : Mapping) (aes_env : loc)
| OEnv (e : Env)
| OFacet (f : Facet)
| OLabels (l : Labels)
| OLayers (ls : list Layer)
| OGuides (g : Guides)
| OScales (s : Scales)
| OTheme (t : Theme)
| OAxs (axs : list nat)
| OFig (f : figure)
| OInstance (dict : gmap string loc).

#[local] Abbreviation heap := (gmap loc obj).

(** ** Events: collaborator calls and calls to the drawing surface *)

Definition axis_params : Type := list (string * option string).

Inductive event : Type :=
| Call (s : stage)
| Deepcopy
| PltCloseAll
| GgContextEnter (t : Theme)
| GgContextExit
| PltSubplots (nr nc : Z)
| LayerPlot (l : Layer) (d : DataFrame) (sx sy : Scale) (ax : nat) (zorder : nat)
| SetXlim (ax : nat) (r : Range)
| SetYlim (ax : nat) (r : Range)
| SetXticks (ax : nat) (b : pyval)
| SetYticks (ax : nat) (b : pyval)
| SetXticklabels (ax : nat) (b : pyval)
| SetYticklabels (ax : nat) (b : pyval)
| PostPlotCallback (ax : nat) (xaxis yaxis : axis_params)
| GridMinorOff (ax : nat) (axis : string)
| AxText (ax : nat) (side : string) (label : value)
| SubplotsAdjust (wspace hspace : Z)
| TransModifyAxis (sc : Scale) (axs : list nat)
| AddArtist (ax : nat) (box : LegendBox) (loc_code : Z) (anchor : Z * Z)
| PltGcf
| PltShow.

(** ** A state, trace and exception monad

    A computation takes the state to the new state, the events it emitted
    and its result; the state and the trace are kept when it raises. *)

Definition St (S A : Type) : Type := S -> S * list event * result A.

Definition st_ret {S A} (a : A) : St S A := fun s => (s, [], Ok a).

Definition st_bind {S A B} (f : A -> St S B) (m : St S A) : St S B :=
  fun s =>
    match m s with
    | (s1, t1, Ok a) =>
        match f a s1 with
        | (s2, t2, r) => (s2, t1 ++ t2, r)
        end
    | (s1, t1, Raise e) => (s1, t1, Raise e)
    end.

#[global] Instance St_ret S : MRet (St S) := fun A => @st_ret S A.
#[global] Instance St_bind S : MBind (St S) := fun A B => @st_bind S A B.

Definition raise {S A} (e : exn) : St S A := fun s => (s, [], Raise e).
Definition emit {S} (ev : event) : St S unit := fun s => (s, [ev], Ok tt).
Definition gets {S A} (f : S -> A) : St S A := fun s => (s, [], Ok (f s)).
Definition modify {S} (f : S -> S) : St S unit := fun s => (f s, [], Ok tt).
Definition lift {S A} (r : result A) : St S A := fun s => (s, [], r).

(** A call to a collaborator: the stage is recorded, then the collaborator
    runs on the state it can reach. *)
Definition call {S A} (stg : stage) (c : S -> S * result A) : St S A :=
  fun s => match c s with (s', r) => (s', [Call stg], r) end.

(** Run a computation on a part of the state. *)
Definition zoom {S T A} (proj : S -> T) (upd : T -> S -> S) (m : St T A)
  : St S A :=
  fun s => match m (proj s) with (t', tr, r) => (upd t' s, tr, r) end.

(** Python's [list(map(f, xs))] for an effectful [f]. *)
Fixpoint mapM {S A B} (f : A -> St S B) (xs : list A) : St S (list B) :=
  match xs with
  | [] => mret []
  | x :: xs' => y ← f x; ys ← mapM f xs'; mret (y :: ys)
  end.

(** ** Objects in the store *)

Definition alloc (o : obj) : St heap loc :=
  fun h => let l := fresh (dom h) in (<[l := o]> h, [], Ok l).

Definition load (l : loc) : St heap obj :=
  fun h => match h !! l with
           | Some o => (h, [], Ok o)
           | None => (h, [], Raise SystemError)
           end.

Definition store (l : loc) (o : obj) : St heap unit :=
  fun h => (<[l := o]> h, [], Ok tt).

(** [x.__dict__] *)
Definition load_dict (x : loc) : St heap (gmap string loc) :=
  o ← load x;
  match o with
  | OInstance d => mret d
  | _ => raise (AttributeError "__dict__")
  end.

(** [x.key = v] *)
Definition setattr (x : loc) (key : string) (v : loc) : St heap unit :=
  d ← load_dict x;
  store x (OInstance (<[key := v]> d)).

(** [x.key] *)
Definition getattr (x : loc) (key : string) : St heap loc :=
  d ← load_dict x;
  match d !! key with
  | Some l => mret l
  | None => raise (AttributeError key)
  end.

(** ** The collaborators

    A collaborator that is handed the plot, or an object the plot owns,
    may read and change the contents of every object of the plot; the
    methods of the panel reach the panel as well. *)

Record PlotC : Type := mkPlotC {
  p_data : DataFrame;
  p_mapping : Mapping;
  p_facet : Facet;
  p_labels : Labels;
  p_layers : list Layer;
  p_guides : Guides;
  p_scales : Scales;
  p_theme : Theme;
  p_plot_env : Env
}.

Record World : Type := mkWorld {
  w_plot : PlotC;
  w_panel : Panel
}.

Definition PCall (A : Type) : Type := PlotC -> PlotC * result A.
Definition WCall (A : Type) : Type := World -> World * result A.

Record Collab : Type := mkCollab {
  (* constructors *)
  facet_null : Facet;
  make_labels : obj -> result Labels;
  guides : Guides;
  new_Scales : Scales;
  theme_gray : Theme;
  new_Panel : Panel;
  (* facet *)
  train_layout : list (option DataFrame) -> PCall DataFrame;
  map_layout : DataFrame -> list (option DataFrame) -> DataFrame ->
               PCall (list DataFrame);
  (* layer *)
  compute_aesthetics : Layer -> DataFrame -> PCall DataFrame;
  add_group : DataFrame -> result DataFrame;
  map_statistic : Layer -> DataFrame -> PCall DataFrame;
  reparameterise : Layer -> DataFrame -> PCall DataFrame;
  adjust_position : Layer -> DataFrame -> PCall DataFrame;
  (* scales *)
  transform_df : DataFrame -> PCall DataFrame;
  get_scales : string -> PCall (option Scale);
  scales_add_missing : list string -> PCall unit;
  non_position_scales : PCall Scales;
  scales_len : Scales -> nat;
  train_df : Scales -> DataFrame -> PCall DataFrame;
  map_df : Scales -> DataFrame -> PCall DataFrame;
  position_scales : PCall (list Scale);
  is_scale_discrete : Scale -> bool;
  has_modify_axis : Scale -> bool;
  trans_modify_axis : Scale -> list nat -> PCall unit;
  (* panel *)
  train_position : list DataFrame -> option Scale -> option Scale -> WCall unit;
  map_position : list DataFrame -> option Scale -> option Scale ->
                 WCall (list DataFrame);
  calculate_stats : list DataFrame -> list Layer -> WCall (list DataFrame);
  reset_scales : WCall unit;
  train_ranges : WCall unit;
  (* guides *)
  guides_build : PCall (option LegendBox)
}.

Variable C : Collab.

(** ** [ggplot.__init__] *)

(** [isinstance(x, pd.DataFrame)] *)
Definition isinstance_DataFrame (x : loc) : St heap bool :=
  o ← load x;
  mret (match o with ODataFrame _ => true | _ => false end).

(** [mapping.aes_env] *)
Definition get_aes_env (mapping : loc) : St heap loc :=
  o ← load mapping;
  match o with
  | OAes _ env => mret env
  | _ => raise (AttributeError "aes_env")
  end.

(** The assignments of [__init__], after the swap. *)
Definition ggplot_init_body (self mapping data : loc) : St heap unit :=
  setattr self "data" data;;
  setattr self "mapping" mapping;;
  f ← alloc (OFacet (facet_null C));
  setattr self "facet" f;;
  mo ← load mapping;
  lb ← lift (make_labels C mo);
  l ← alloc (OLabels lb);
  setattr self "labels" l;;
  ls ← alloc (OLayers []);
  setattr self "layers" ls;;
  g ← alloc (OGuides (guides C));
  setattr self "guides" g;;
  s ← alloc (OScales (new_Scales C));
  setattr self "scales" s;;
  t ← alloc (OTheme (theme_gray C));
  setattr self "theme" t;;
  env ← get_aes_env mapping;
  setattr self "plot_env" env.

Definition ggplot_init (self mapping data : loc) : St heap unit :=
  isdf ← isinstance_DataFrame data;
  let '(mapping, data) :=
    if negb isdf then (data, mapping) else (mapping, data) in
  ggplot_init_body self mapping data.

(** [ggplot(mapping, data)]: a new instance, then [__init__]. *)
Definition ggplot (mapping data : loc) : St heap loc :=
  self ← alloc (OInstance ∅);
  ggplot_init self mapping data;;
  mret self.

(** ** [ggplot.__deepcopy__] *)

Definition memo_t : Type := list (loc * loc).

Fixpoint memo_get (x : loc) (memo : memo_t) : option loc :=
  match memo with
  | [] => None
  | (k, y) :: memo' => if Pos.eqb x k then Some y else memo_get x memo'
  end.

(** [copy.deepcopy(x, memo)] on an object bound to an attribute of a plot:
    an object met before is looked up in [memo], another one is copied to a
    new reference.  The contents of these objects hold no reference, but
    for the environment of an aes, which the copy keeps. *)
Definition deepcopy (x : loc) (memo : memo_t) : St heap (loc * memo_t) :=
  match memo_get x memo with
  | Some y => mret (y, memo)
  | None =>
      o ← load x;
      y ← alloc o;
      mret (y, (x, y) :: memo)
  end.

Definition shallow : list string := ["data"; "plot_env"]%string.

Definition in_shallow (key : string) : bool :=
  existsb (String.eqb key) shallow.

(** The loop over [self.__dict__.items()]. *)
Fixpoint copy_items (result : loc) (items : list (string * loc))
    (memo : memo_t) : St heap unit :=
  match items with
  | [] => mret tt
  | (key, item) :: rest =>
      if in_shallow key then
        setattr result key item;;
        copy_items result rest memo
      else
        '(y, memo') ← deepcopy item memo;
        setattr result key y;;
        copy_items result rest memo'
  end.

Definition ggplot_deepcopy (self : loc) (memo : memo_t) : St heap loc :=
  d ← load_dict self;
  result ← alloc (OInstance ∅);
  copy_items result (map_to_list d) memo;;
  mret result.

(** [deepcopy(self)] on a plot *)
Definition deepcopy_plot (self : loc) : St heap loc :=
  emit Deepcopy;;
  ggplot_deepcopy self [].

(** ** The plot seen through its references *)

Record PlotRefs : Type := mkPlotRefs {
  r_data : loc;
  r_mapping : loc;
  r_facet : loc;
  r_labels : loc;
  r_layers : loc;
  r_guides : loc;
  r_scales : loc;
  r_theme : loc;
  r_plot_env : loc
}.

Definition plot_refs (plot : loc) : St heap PlotRefs :=
  a ← getattr plot "data";
  b ← getattr plot "mapping";
  c ← getattr plot "facet";
  d ← getattr plot "labels";
  e ← getattr plot "layers";
  f ← getattr plot "guides";
  g ← getattr plot "scales";
  h ← getattr plot "theme";
  i ← getattr plot "plot_env";
  mret (mkPlotRefs a b c d e f g h i).

Definition load_DataFrame (l : loc) : St heap DataFrame :=
  o ← load l; match o with ODataFrame d => mret d | _ => raise TypeError end.
Definition load_Aes (l : loc) : St heap (Mapping * loc) :=
  o ← load l; match o with OAes m e => mret (m, e) | _ => raise TypeError end.
Definition load_Facet (l : loc) : St heap Facet :=
  o ← load l; match o with OFacet f => mret f | _ => raise TypeError end.
Definition load_Labels (l : loc) : St heap Labels :=
  o ← load l; match o with OLabels x => mret x | _ => raise TypeError end.
Definition load_Layers (l : loc) : St heap (list Layer) :=
  o ← load l; match o with OLayers x => mret x | _ => raise TypeError end.
Definition load_Guides (l : loc) : St heap Guides :=
  o ← load l; match o with OGuides x => mret x | _ => raise TypeError end.
Definition load_Scales (l : loc) : St heap Scales :=
  o ← load l; match o with OScales x => mret x | _ => raise TypeError end.
Definition load_Theme (l : loc) : St heap Theme :=
  o ← load l; match o with OTheme x => mret x | _ => raise TypeError end.
Definition load_Env (l : loc) : St heap Env :=
  o ← load l; match o with OEnv x => mret x | _ => raise TypeError end.
Definition load_Axs (l : loc) : St heap (list nat) :=
  o ← load l; match o with OAxs x => mret x | _ => raise TypeError end.
Definition load_Fig (l : loc) : St heap figure :=
  o ← load l; match o with OFig x => mret x | _ => raise TypeError end.

(** The contents of the plot's objects, and the reference the aes keeps to
    its environment. *)
Definition read_plot (r : PlotRefs) : St heap (PlotC * loc) :=
  a ← load_DataFrame (r_data r);
  '(b, env) ← load_Aes (r_mapping r);
  c ← load_Facet (r_facet r);
  d ← load_Labels (r_labels r);
  e ← load_Layers (r_layers r);
  f ← load_Guides (r_guides r);
  g ← load_Scales (r_scales r);
  h ← load_Theme (r_theme r);
  i ← load_Env (r_plot_env r);
  mret (mkPlotC a b c d e f g h i, env).

Definition write_plot (r : PlotRefs) (env : loc) (c : PlotC) (h : heap) : heap :=
  <[r_plot_env r := OEnv (p_plot_env c)]>
  (<[r_theme r := OTheme (p_theme c)]>
  (<[r_scales r := OScales (p_scales c)]>
  (<[r_guides r := OGuides (p_guides c)]>
  (<[r_layers r := OLayers (p_layers c)]>
  (<[r_labels r := OLabels (p_labels c)]>
  (<[r_facet r := OFacet (p_facet c)]>
  (<[r_mapping r := OAes (p_mapping c) env]>
  (<[r_data r := ODataFrame (p_data c)]> h)))))))).

(** Run [m] on the objects of [plot]: what it changes is written to the
    objects themselves. *)
Definition with_plot {A} (plot : loc) (m : St PlotC A) : St heap A :=
  r ← plot_refs plot;
  '(c, env) ← read_plot r;
  zoom (fun _ => c) (write_plot r env) m.

Definition on_plot {A} (m : St PlotC A) : St World A :=
  zoom w_plot (fun p w => mkWorld p (w_panel w)) m.

(** Run [m] with the local variable [panel]; the panel comes back with the
    result. *)
Definition with_panel {A} (panel : Panel) (m : St World A)
  : St PlotC (A * Panel) :=
  fun c =>
    match m (mkWorld c panel) with
    | (w, t, Ok a) => (w_plot w, t, Ok (a, w_panel w))
    | (w, t, Raise e) => (w_plot w, t, Raise e)
    end.

(** ** [ggplot.plot_build] *)

(** [dlapply(f)]: [out[i] = f(data[i], layers[i])] for [i] in
    [range(len(data))], from index [i] on. *)
Fixpoint dlapply_from (i : nat) (f : DataFrame -> Layer -> St World DataFrame)
    (data : list DataFrame) : St World (list DataFrame) :=
  match data with
  | [] => mret []
  | d :: rest =>
      layers ← gets (fun w => p_layers (w_plot w));
      l ← lift (py_index layers (Z.of_nat i));
      o ← f d l;
      out ← dlapply_from (S i) f rest;
      mret (o :: out)
  end.

Definition dlapply (f : DataFrame -> Layer -> St World DataFrame)
    (data : list DataFrame) : St World (list DataFrame) :=
  dlapply_from 0 f data.

Definition scale_x : St World (option Scale) :=
  on_plot (call (GetScales "x") (get_scales C "x"%string)).

Definition scale_y : St World (option Scale) :=
  on_plot (call (GetScales "y") (get_scales C "y"%string)).

Definition set_layout (lay : DataFrame) (w : World) : World :=
  let p := w_panel w in
  mkWorld (w_plot w)
    (mkPanel lay (x_scales p) (y_scales p) (ranges p) (panel_st p)).

(** The body of [plot_build] after the copy, on the copied plot and the
    new panel. *)
Definition build_pipeline : St World (list DataFrame) :=
  layer_data ← gets (fun w => map l_data (p_layers (w_plot w)));
  plot_data ← gets (fun w => p_data (w_plot w));
  let all_data := Some plot_data :: layer_data in
  lay ← on_plot (call TrainLayout (train_layout C all_data));
  modify (set_layout lay);;
  lay ← gets (fun w => layout (w_panel w));
  plot_data ← gets (fun w => p_data (w_plot w));
  data ← on_plot (call MapLayout (map_layout C lay layer_data plot_data));
  data ← dlapply (fun d l =>
    on_plot (call ComputeAesthetics (compute_aesthetics C l d))) data;
  data ← mapM (fun d => call AddGroup (fun w => (w, add_group C d))) data;
  data ← mapM (fun d => on_plot (call TransformDf (transform_df C d))) data;
  sx ← scale_x; sy ← scale_y;
  call TrainPosition (train_position C data sx sy);;
  sx ← scale_x; sy ← scale_y;
  data ← call MapPosition (map_position C data sx sy);
  layers ← gets (fun w => p_layers (w_plot w));
  data ← call CalculateStats (calculate_stats C data layers);
  data ← dlapply (fun d l =>
    on_plot (call MapStatistic (map_statistic C l d))) data;
  on_plot (call ScalesAddMissing (scales_add_missing C ["x"; "y"]%string));;
  data ← dlapply (fun d l =>
    on_plot (call Reparameterise (reparameterise C l d))) data;
  data ← dlapply (fun d l =>
    on_plot (call AdjustPosition (adjust_position C l d))) data;
  call ResetScales (reset_scales C);;
  sx ← scale_x; sy ← scale_y;
  call TrainPosition (train_position C data sx sy);;
  sx ← scale_x; sy ← scale_y;
  data ← call MapPosition (map_position C data sx sy);
  npscales ← on_plot (call NonPositionScales (non_position_scales C));
  data ← (if (0 <? scales_len C npscales)%nat then
            data ← mapM (fun d =>
              on_plot (call TrainDf (train_df C npscales d))) data;
            mapM (fun d => on_plot (call MapDf (map_df C npscales d))) data
          else mret data);
  call TrainRanges (train_ranges C);;
  mret data.

(** [self.layers], as a list *)
Definition get_layers (self : loc) : St heap (list Layer) :=
  l ← getattr self "layers";
  load_Layers l.

Definition plot_build (self : loc) : St heap (list DataFrame * Panel * loc) :=
  layers ← get_layers self;
  match layers with
  | [] => raise (GgplotError "No layers in plot")
  | _ :: _ =>
      plot ← deepcopy_plot self;
      '(data, panel) ← with_plot plot (with_panel (new_Panel C) build_pipeline);
      mret (data, panel, plot)
  end.

(** ** The helpers of [draw] *)

Definition when {S} (b : bool) (m : St S unit) : St S unit :=
  if b then m else mret tt.

Definition set_breaks {S} (panel : Panel) (idx : Z) (ax : nat) : St S unit :=
  rx ← lift (py_index (ranges panel) idx);
  let xbreaks := x_breaks rx in
  ry ← lift (py_index (ranges panel) idx);
  let ybreaks := y_breaks ry in
  when (negb (is_waive xbreaks)) (emit (SetXticks ax xbreaks));;
  when (negb (is_waive ybreaks)) (emit (SetYticks ax ybreaks)).

Definition set_labels {S} (panel : Panel) (idx : Z) (ax : nat) : St S unit :=
  rx ← lift (py_index (ranges panel) idx);
  let xlabels := x_labels rx in
  ry ← lift (py_index (ranges panel) idx);
  let ylabels := y_labels ry in
  when (negb (is_waive xlabels)) (emit (SetXticklabels ax xlabels));;
  when (negb (is_waive ylabels)) (emit (SetYticklabels ax ylabels)).

Definition set_axis_attributes (pnl : Series) (ax : nat) : St World unit :=
  row ← lift (series_get pnl "ROW");
  f ← gets (fun w => p_facet (w_plot w));
  let xaxis :=
    if value_eqb row (VInt (nrow f))
    then [("set_ticks_position", Some "bottom")]
    else [("set_ticks_position", Some "none"); ("set_ticklabels", None)] in
  col ← lift (series_get pnl "COL");
  let yaxis :=
    if value_eqb col (VInt 1)
    then [("set_ticks_position", Some "left")]
    else [("set_ticks_position", Some "none"); ("set_ticklabels", None)] in
  emit (PostPlotCallback ax xaxis yaxis).

Definition is_wrap (f : Facet) : bool :=
  match facet_cls f with FacetWrap => true | _ => false end.

Definition is_grid (f : Facet) : bool :=
  match facet_cls f with FacetGrid => true | _ => false end.

(** [draw_facet_label]: which strips are drawn, with which label.  The
    size of a strip is computed in floating point from the extent of the
    axes and is left out. *)
Definition draw_facet_label (pnl : Series) (ax : nat) (fig : figure)
  : St World unit :=
  f ← gets (fun w => p_facet (w_plot w));
  inner ← (if is_grid f then
             row ← lift (series_get pnl "ROW");
             if negb (value_eqb row (VInt 1)) then
               col ← lift (series_get pnl "COL");
               mret (negb (value_eqb col (VInt (ncol f))))
             else mret false
           else mret false);
  if (inner : bool) then mret tt
  else if is_wrap f then
    facet_var ← lift (py_index (facet_vars f) 0);
    v ← lift (series_get pnl facet_var);
    emit (AxText ax "top" v)
  else
    row ← lift (series_get pnl "ROW");
    (if value_eqb row (VInt 1) then
       facet_var ← lift (py_index (facet_cols f) 0);
       v ← lift (series_get pnl facet_var);
       emit (AxText ax "top" v)
     else mret tt);;
    col ← lift (series_get pnl "COL");
    if value_eqb col (VInt (ncol f)) then
      facet_var ← lift (py_index (facet_rows f) 0);
      v ← lift (series_get pnl facet_var);
      emit (AxText ax "right" v)
    else mret tt.

(** [plt.subplots_adjust]; the spaces are in hundredths. *)
Definition set_facet_spacing : St World unit :=
  f ← gets (fun w => p_facet (w_plot w));
  if is_wrap f then emit (SubplotsAdjust 5 20)
  else emit (SubplotsAdjust 5 5).

(** [try: body except AttributeError: pass]: what [body] did before it
    raised stays done. *)
Definition is_AttributeError (e : exn) : bool :=
  match e with AttributeError _ => true | _ => false end.

Definition pass_AttributeError {S} (body : St S unit) : St S unit :=
  fun s =>
    match body s with
    | (s', t, Raise e) =>
        if is_AttributeError e then (s', t, Ok tt) else (s', t, Raise e)
    | (s', t, Ok a) => (s', t, Ok a)
    end.

(** [sc.trans.modify_axis(axs)]: the lookup of the method raises
    [AttributeError] when the scale has no transform that can modify the
    axes; the call is recorded with its arguments, then the transform runs:
    it may change what the plot holds and may raise.  The list of the axes
    is read by the transform, not changed. *)
Definition call_modify_axis (sc : Scale) (axs : list nat) : St World unit :=
  if has_modify_axis C sc then
    on_plot (fun p =>
      match trans_modify_axis C sc axs p with
      | (p', r) => (p', [TransModifyAxis sc axs], r)
      end)
  else raise (AttributeError "modify_axis").

Definition modify_axis (axs : list nat) : St World unit :=
  pscales ← on_plot (call PositionScales (position_scales C));
  mapM (fun sc => pass_AttributeError (call_modify_axis sc axs)) pscales;;
  mret tt.

(** ** [ggplot.draw] *)

(** The loop over [enumerate(zip(plot.layers, data), start=1)]. *)
Fixpoint draw_layers (lds : list (Layer * DataFrame)) (zorder : nat)
    (pnl : Series) (sx sy : Scale) (ax : nat) : St World unit :=
  match lds with
  | [] => mret tt
  | (l, d) :: rest =>
      col ← lift (df_getcol d "PANEL");
      v ← lift (series_get pnl "PANEL");
      let bool_idx := series_eq col v in
      emit (LayerPlot l (df_mask d bool_idx) sx sy ax zorder);;
      draw_layers rest (S zorder) pnl sx sy ax
  end.

(** One turn of the loop over [zip(axs, panel.layout.iterrows())]. *)
Definition draw_panel (data : list DataFrame) (fig : figure)
    (ax : nat) (pnl : Series) : St World unit :=
  pid ← lift (series_get pnl "PANEL");
  panel_idx ← lift (value_pred pid);
  panel ← gets w_panel;
  ix ← lift (series_get pnl "SCALE_X");
  ix ← lift (value_pred ix);
  sx ← lift (py_index (x_scales panel) ix);
  iy ← lift (series_get pnl "SCALE_Y");
  iy ← lift (value_pred iy);
  sy ← lift (py_index (y_scales panel) iy);
  layers ← gets (fun w => p_layers (w_plot w));
  draw_layers (combine layers data) 1 pnl sx sy ax;;
  rg ← lift (py_index (ranges panel) panel_idx);
  emit (SetXlim ax (r_x rg));;
  rg ← lift (py_index (ranges panel) panel_idx);
  emit (SetYlim ax (r_y rg));;
  set_breaks panel panel_idx ax;;
  set_labels panel panel_idx ax;;
  set_axis_attributes pnl ax;;
  when (is_scale_discrete C sx) (emit (GridMinorOff ax "x"));;
  when (is_scale_discrete C sy) (emit (GridMinorOff ax "y"));;
  f ← gets (fun w => p_facet (w_plot w));
  when (is_grid f || is_wrap f) (draw_facet_label pnl ax fig).

Fixpoint draw_panels (data : list DataFrame) (fig : figure)
    (zipped : list (nat * Series)) : St World unit :=
  match zipped with
  | [] => mret tt
  | (ax, pnl) :: rest =>
      draw_panel data fig ax pnl;;
      draw_panels data fig rest
  end.

(** [plt.subplots(nrow, ncol)], then [np.atleast_2d] and the flattening:
    the axes of the grid, row by row. *)
Definition plt_subplots {S} (nr nc : Z) : St S (figure * list nat) :=
  emit (PltSubplots nr nc);;
  if (0 <? nr) && (0 <? nc) then
    mret (CurrentFigure, seq 0 (Z.to_nat (nr * nc)))
  else raise ValueError.

(** The part of [draw] that follows [plt.subplots], on the built plot. *)
Definition draw_body (data : list DataFrame) (fig : figure) (axs : list nat)
  : St World unit :=
  lay ← gets (fun w => layout (w_panel w));
  draw_panels data fig (combine axs (iterrows lay));;
  set_facet_spacing;;
  modify_axis axs.

Definition draw (self : loc) : St heap loc :=
  '(data, panel, plot) ← plot_build self;
  fl ← getattr plot "facet";
  f ← load_Facet fl;
  '(fig, axs) ← plt_subplots (nrow f) (ncol f);
  a ← alloc (OAxs axs);
  setattr plot "axs" a;;
  g ← alloc (OFig fig);
  setattr plot "fig" g;;
  with_plot plot (with_panel panel (draw_body data fig axs));;
  mret plot.

(** ** [ggplot.draw_legend] *)

(** The dict [lookup] and [lookup[position]]; the anchors are in
    hundredths. *)
Definition lookup : list (string * (Z * (Z * Z))) :=
  [("right", (6, (94, 50)));
   ("left", (7, (7, 50)));
   ("top", (8, (50, 95)));
   ("bottom", (9, (50, 7)))]%string.

Definition lookup_position (position : string) : result (Z * (Z * Z)) :=
  match assoc position lookup with
  | Some v => Ok v
  | None => Raise (KeyError position)
  end.

Definition draw_legend (self plot : loc) : St heap loc :=
  legend_box ← with_plot plot (call GuidesBuild (guides_build C));
  match legend_box with
  | None => mret plot
  | Some box =>
      tl ← getattr plot "theme";
      theme ← load_Theme tl;
      let position := legend_position theme in
      '(loc_code, box_to_anchor) ← lift (lookup_position position);
      g ← getattr plot "fig";
      load_Fig g;;
      a ← getattr plot "axs";
      axs ← load_Axs a;
      ax ← lift (py_index axs 0);
      emit (AddArtist ax box loc_code box_to_anchor);;
      mret plot
  end.

(** ** [ggplot.render] *)

(** [with ctx: body]: the exit runs whether the body raises or not. *)
Definition with_context {S A} (enter exit : St S unit) (body : St S A)
  : St S A :=
  enter;;
  ((fun s =>
      match body s with
      | (s1, t1, r) =>
          match exit s1 with
          | (s2, t2, _) => (s2, t1 ++ t2, r)
          end
      end) : St S A).

Definition render (self : loc) : St heap figure :=
  emit PltCloseAll;;
  tl ← getattr self "theme";
  theme ← load_Theme tl;
  with_context (emit (GgContextEnter theme)) (emit GgContextExit)
    (plot ← draw self;
     draw_legend self plot);;
  emit PltGcf;;
  mret CurrentFigure.

(** [ggplot.__repr__]: the plot is rendered and shown; the text returned is
    made of the hash of [self], for which [self] stands here. *)
Definition ggplot_repr (self : loc) : St heap loc :=
  render self;;
  emit PltShow;;
  mret self.

End Ggplot.

Abbreviation heap := (gmap loc obj).

(** ** A small instance of the collaborators

    One panel, no statistics: enough to run the orchestrator on concrete
    plots.  A scale is its aesthetic's name, the scales are the names
    registered, a legend box is the list of the non-position scales. *)

Module Toy.

Definition layout1 : DataFrame :=
  mkDataFrame ["PANEL"; "ROW"; "COL"; "SCALE_X"; "SCALE_Y"]%string
              [[VInt 1; VInt 1; VInt 1; VInt 1; VInt 1]].

#[local] Instance types : Types :=
  {| Mapping := list (string * string);
     Env := unit;
     Labels := unit;
     Guides := unit;
     Scales := list string;
     Scale := string;
     Geom := string;
     FacetSt := unit;
     ThemeSt := unit;
     PanelSt := unit;
     LegendBox := list string;
     Range := Z * Z |}.

Definition facet0 : Facet := mkFacet FacetNull 1 1 [] [] [] tt.
Definition theme0 : Theme := mkTheme "right" tt.
Definition panel0 : Panel := mkPanel (mkDataFrame [] []) [] [] [] tt.

(** A frame with a column [PANEL] of ones in front. *)
Definition add_panel (d : DataFrame) : DataFrame :=
  mkDataFrame ("PANEL"%string :: columns d) (map (cons (VInt 1)) (rows d)).

Definition is_position (a : string) : bool :=
  String.eqb a "x" || String.eqb a "y".

Definition add_missing (names : list string) (s : list string) : list string :=
  s ++ filter (fun a => negb (existsb (String.eqb a) s)) names.

Definition set_scales (s : list string) (p : PlotC) : PlotC :=
  mkPlotC (p_data p) (p_mapping p) (p_facet p) (p_labels p) (p_layers p)
          (p_guides p) s (p_theme p) (p_plot_env p).

Definition ranges1 : Ranges :=
  mkRanges (0, 10) (0, 5) (PyList [VInt 0; VInt 5; VInt 10]) Waive
           Waive (PyList [VStr "low"; VStr "high"]).

Definition trained (w : World) : World :=
  let p := w_panel w in
  mkWorld (w_plot w)
          (mkPanel (layout p) ["x"%string] ["y"%string] (ranges p) (panel_st p)).

Definition ranged (w : World) : World :=
  let p := w_panel w in
  mkWorld (w_plot w)
          (mkPanel (layout p) (x_scales p) (y_scales p) [ranges1] (panel_st p)).

Definition collab : Collab :=
  {| facet_null := facet0;
     make_labels := fun o => match o with
                             | OAes _ _ => Ok tt
                             | _ => Raise (AttributeError "items")
                             end;
     guides := tt;
     new_Scales := [];
     theme_gray := theme0;
     new_Panel := panel0;
     train_layout := fun _ p => (p, Ok layout1);
     map_layout := fun _ layer_data plot_data p =>
       (p, Ok (map (fun o => add_panel (default plot_data o)) layer_data));
     compute_aesthetics := fun _ d p => (p, Ok d);
     add_group := fun d => Ok d;
     map_statistic := fun _ d p => (p, Ok d);
     reparameterise := fun _ d p => (p, Ok d);
     adjust_position := fun _ d p => (p, Ok d);
     transform_df := fun d p => (p, Ok d);
     get_scales := fun a p =>
       (p, Ok (if existsb (String.eqb a) (p_scales p) then Some a else None));
     scales_add_missing := fun names p =>
       (set_scales (add_missing names (p_scales p)) p, Ok tt);
     non_position_scales := fun p =>
       (p, Ok (filter (fun a => negb (is_position a)) (p_scales p)));
     scales_len := fun s => length s;
     train_df := fun _ d p => (p, Ok d);
     map_df := fun _ d p => (p, Ok d);
     position_scales := fun p => (p, Ok (filter is_position (p_scales p)));
     is_scale_discrete := fun _ => false;
     has_modify_axis := fun _ => false;
     trans_modify_axis := fun _ _ p => (p, Ok tt);
     train_position := fun _ _ _ w => (trained w, Ok tt);
     map_position := fun data _ _ w => (w, Ok data);
     calculate_stats := fun data _ w => (w, Ok data);
     reset_scales := fun w => (w, Ok tt);
     train_ranges := fun w => (ranged w, Ok tt);
     guides_build := fun p =>
       (p, Ok (match filter (fun a => negb (is_position a)) (p_scales p) with
               | [] => None
               | s => Some s
               end)) |}.

Definition df0 : DataFrame :=
  mkDataFrame ["x"; "y"]%string [[VInt 1; VInt 2]; [VInt 3; VInt 4]].

Definition point : Layer := mkLayer None "point"%string.
Definition line : Layer := mkLayer (Some df0) "line"%string.

(** A store with a data frame at 1, an aes at 2 and its environment at 3. *)
Definition heap0 : heap :=
  <[1%positive := ODataFrame df0]>
  (<[2%positive := OAes [("x", "x"); ("y", "y")]%string 3%positive]>
  (<[3%positive := OEnv tt]> ∅)).

Definition set_layers (ls : list Layer) (self : loc) (h : heap)
  : heap :=
  match h !! self with
  | Some (OInstance d) =>
      match d !! "layers" with
      | Some l => <[l := OLayers ls]> h
      | None => h
      end
  | _ => h
  end.

(** [ggplot(aes, df)]: the plot is at 4. *)
Definition heap1 : heap :=
  (ggplot collab 2%positive 1%positive heap0).1.1.

(** [ggplot(aes, df) + point + line] *)
Definition heap2 : heap := set_layers [point; line] 4%positive heap1.

(** The same plot with a scale for [color] and the legend at [center]. *)
Definition restyle (position : string) (scales : list string) (self : loc)
    (h : heap) : heap :=
  match h !! self with
  | Some (OInstance d) =>
      match d !! "theme", d !! "scales" with
      | Some t, Some s => <[t := OTheme (mkTheme position tt)]> (<[s := OScales scales]> h)
      | _, _ => h
      end
  | _ => h
  end.

Definition heap3 : heap := restyle "center" ["color"%string] 4%positive heap2.

(** The same plot with a scale for [color] and the legend at [top]. *)
Definition heap4 : heap := restyle "top" ["color"%string] 4%positive heap2.

(** The contents of the plot of [heap2], and what the pipeline makes of
    them. *)
Definition plot2 : PlotC :=
  mkPlotC df0 [("x", "x"); ("y", "y")]%string facet0 tt [point; line] tt []
          theme0 tt.

Definition built2 : PlotC * list event * result (list DataFrame * Panel) :=
  with_panel panel0 (build_pipeline collab) plot2.

Definition world2 : World :=
  match built2 with
  | (c, _, Ok (_, panel)) => mkWorld c panel
  | (c, _, Raise _) => mkWorld c panel0
  end.


(** A trained panel. *)
Definition panel1 : Panel :=
  mkPanel layout1 ["x"%string] ["y"%string] [ranges1] tt.

(** The stores that [draw] leaves; the copy is at 11. *)
Definition drawn2 : heap := (draw collab 4%positive heap2).1.1.
Definition drawn3 : heap := (draw collab 4%positive heap3).1.1.

End Toy.

(** ** A second instance: a grid of two rows and two columns

    A plot with one layer under [facet_grid], for the variables [r] (rows)
    and [c] (columns): four panels.  The x scale is discrete, the transform
    of the y scale can modify the axes, and there are no other scales. *)

Module Grid.

#[local] Existing Instance Toy.types.

Definition layout4 : DataFrame :=
  mkDataFrame ["PANEL"; "ROW"; "COL"; "SCALE_X"; "SCALE_Y"; "r"; "c"]%string
    [[VInt 1; VInt 1; VInt 1; VInt 1; VInt 1; VStr "a"; VStr "u"];
     [VInt 2; VInt 1; VInt 2; VInt 1; VInt 1; VStr "a"; VStr "v"];
     [VInt 3; VInt 2; VInt 1; VInt 1; VInt 1; VStr "b"; VStr "u"];
     [VInt 4; VInt 2; VInt 2; VInt 1; VInt 1; VStr "b"; VStr "v"]].

Definition facet22 : Facet :=
  mkFacet FacetGrid 2 2 [] ["r"%string] ["c"%string] tt.

Definition df4 : DataFrame :=
  mkDataFrame ["r"; "c"; "x"; "y"]%string
    [[VStr "a"; VStr "u"; VInt 1; VInt 2];
     [VStr "b"; VStr "v"; VInt 3; VInt 4];
     [VStr "a"; VStr "u"; VInt 5; VInt 6];
     [VStr "b"; VStr "u"; VInt 7; VInt 8]].

Definition cell (d : DataFrame) (key : string) (row : list value) : value :=
  match index_of key (columns d) with
  | Some j => nth j row VNone
  | None => VNone
  end.

(** The [PANEL] of a row of data: that of the row of the layout which has
    its [r] and its [c]. *)
Definition panel_of (d : DataFrame) (row : list value) : value :=
  match List.find (fun lr => value_eqb (cell layout4 "r" lr) (cell d "r" row) &&
                             value_eqb (cell layout4 "c" lr) (cell d "c" row))
                  (rows layout4) with
  | Some lr => cell layout4 "PANEL" lr
  | None => VNone
  end.

Definition add_panel_of (d : DataFrame) : DataFrame :=
  mkDataFrame ("PANEL"%string :: columns d)
              (map (fun row => panel_of d row :: row) (rows d)).

Definition ranges4 : list Ranges :=
  [mkRanges (0, 10) (0, 5) (PyList [VInt 0; VInt 10]) Waive Waive Waive;
   mkRanges (0, 20) (0, 5) Waive Waive Waive Waive;
   mkRanges (0, 30) (0, 5) Waive (PyList [VInt 0; VInt 5]) Waive Waive;
   mkRanges (0, 40) (0, 5) Waive Waive Waive (PyList [VStr "low"; VStr "high"])].

Definition ranged4 (w : World) : World :=
  let p := w_panel w in
  mkWorld (w_plot w)
          (mkPanel (layout p) (x_scales p) (y_scales p) ranges4 (panel_st p)).

Definition set_data (d : DataFrame) (p : PlotC) : PlotC :=
  mkPlotC d (p_mapping p) (p_facet p) (p_labels p) (p_layers p)
          (p_guides p) (p_scales p) (p_theme p) (p_plot_env p).

(** The collaborators, but for [compute_aesthetics] and for the transforms
    of the scales: which of them can modify the axes, and what that does. *)
Definition collab_of (ca : Layer -> DataFrame -> PCall DataFrame)
    (hm : string -> bool) (tm : string -> list nat -> PCall unit) : Collab :=
  {| facet_null := Toy.facet0;
     make_labels := fun o => match o with
                             | OAes _ _ => Ok tt
                             | _ => Raise (AttributeError "items")
                             end;
     guides := tt;
     new_Scales := [];
     theme_gray := Toy.theme0;
     new_Panel := Toy.panel0;
     train_layout := fun _ p => (p, Ok layout4);
     map_layout := fun _ layer_data plot_data p =>
       (p, Ok (map (fun o => add_panel_of (default plot_data o)) layer_data));
     compute_aesthetics := ca;
     add_group := fun d => Ok d;
     map_statistic := fun _ d p => (p, Ok d);
     reparameterise := fun _ d p => (p, Ok d);
     adjust_position := fun _ d p => (p, Ok d);
     transform_df := fun d p => (p, Ok d);
     get_scales := fun a p =>
       (p, Ok (if existsb (String.eqb a) (p_scales p) then Some a else None));
     scales_add_missing := fun names p =>
       (Toy.set_scales (Toy.add_missing names (p_scales p)) p, Ok tt);
     non_position_scales := fun p => (p, Ok []);
     scales_len := fun s => length s;
     train_df := fun _ d p => (p, Ok d);
     map_df := fun _ d p => (p, Ok d);
     position_scales := fun p => (p, Ok (filter Toy.is_position (p_scales p)));
     is_scale_discrete := fun s => String.eqb s "x";
     has_modify_axis := hm;
     trans_modify_axis := tm;
     train_position := fun _ _ _ w => (Toy.trained w, Ok tt);
     map_position := fun data _ _ w => (w, Ok data);
     calculate_stats := fun data _ w => (w, Ok data);
     reset_scales := fun w => (w, Ok tt);
     train_ranges := fun w => (ranged4 w, Ok tt);
     guides_build := fun p => (p, Ok None) |}.

(** The transform of the y scale can modify the axes, and does so without
    raising. *)
Definition collab_with (ca : Layer -> DataFrame -> PCall DataFrame) : Collab :=
  collab_of ca (fun s => String.eqb s "y") (fun _ _ p => (p, Ok tt)).

Definition collab4 : Collab := collab_with (fun _ d p => (p, Ok d)).

(** Collaborators of which one empties the data frame of the plot that it
    is handed. *)
Definition meddling : Collab :=
  collab_with (fun _ d p =>
    (set_data (mkDataFrame (columns (p_data p)) []) p, Ok d)).

(** [self.key], replaced by [o] in place. *)
Definition set_object (key : string) (o : obj) (self : loc) (h : heap)
  : heap :=
  match h !! self with
  | Some (OInstance d) =>
      match d !! key with
      | Some l => <[l := o]> h
      | None => h
      end
  | _ => h
  end.

Definition store0 : heap :=
  <[1%positive := ODataFrame df4]>
  (<[2%positive := OAes [("x", "x"); ("y", "y")]%string 3%positive]>
  (<[3%positive := OEnv tt]> ∅)).

(** [ggplot(aes, df) + point + facet_grid('r', 'c')]: the plot is at 4. *)
Definition store1 : heap :=
  set_object "facet" (OFacet facet22) 4%positive
    (set_object "layers" (OLayers [Toy.point]) 4%positive
       (ggplot collab4 2%positive 1%positive store0).1.1).

Definition plot1 : PlotC :=
  mkPlotC df4 [("x", "x"); ("y", "y")]%string facet22 tt [Toy.point] tt []
          Toy.theme0 tt.

Definition built1 : PlotC * list event * result (list DataFrame * Panel) :=
  with_panel Toy.panel0 (build_pipeline collab4) plot1.

Definition world1 : World :=
  match built1 with
  | (c, _, Ok (_, panel)) => mkWorld c panel
  | (c, _, Raise _) => mkWorld c Toy.panel0
  end.

Definition data1 : list DataFrame :=
  match built1 with
  | (_, _, Ok (data, _)) => data
  | (_, _, Raise _) => []
  end.

(** A plot of which two attributes are bound to one object. *)
Definition shared : heap :=
  <[1%positive := OInstance (list_to_map
     [("guides", 2%positive); ("theme", 2%positive); ("scales", 3%positive);
      ("data", 4%positive)]%string)]>
  (<[2%positive := OTheme Toy.theme0]>
  (<[3%positive := OScales []]>
  (<[4%positive := ODataFrame df4]> ∅))).

(** The store that [draw] leaves for the plot of [Toy.heap4], which has a
    scale for [color] and its legend on top; the copy is at 11. *)
Definition drawn4 : heap := (draw Toy.collab 4%positive Toy.heap4).1.1.

End Grid.

(** ** Collaborators that do not do what the orchestrator counts on *)

Module Wayward.

#[local] Existing Instance Toy.types.



(** The collaborators of [Grid], with a transform for every scale: that of
    the y scale raises an [AttributeError] of its own, that of the x scale
    a [ValueError]. *)
Definition fussy : Collab :=
  Grid.collab_of (fun _ d p => (p, Ok d)) (fun _ => true)
    (fun s _ p =>
       (p, Raise (if String.eqb s "y" then AttributeError "set_yscale"
                  else ValueError))).

(** A plot with the scales y, x, y, in this order. *)
Definition world3 : World :=
  mkWorld (Toy.set_scales ["y"; "x"; "y"]%string Grid.plot1) Toy.panel0.

End Wayward.

(** * Properties *)

Section Properties.

Context `{T : Types}.

Variable C : Collab.

(** ** The monad *)

Lemma bind_ok {S A B} (m : St S A) (f : A -> St S B) s s1 t1 a :
  m s = (s1, t1, Ok a) ->
  (m ≫= f) s = (let '(s2, t2, r) := f a s1 in (s2, t1 ++ t2, r)).
Proof.
  intros H. unfold mbind, St_bind, st_bind. rewrite H. by destruct (f a s1) as [[??]?].
Qed.

Lemma bind_raise {S A B} (m : St S A) (f : A -> St S B) s s1 t1 e :
  m s = (s1, t1, Raise e) -> (m ≫= f) s = (s1, t1, Raise e).
Proof. intros H. unfold mbind, St_bind, st_bind. by rewrite H. Qed.

Lemma bind_inv {S A B} (m : St S A) (f : A -> St S B) s s2 t r :
  (m ≫= f) s = (s2, t, r) ->
  (exists e, m s = (s2, t, Raise e) /\ r = Raise e) \/
  (exists s1 t1 a t2,
      m s = (s1, t1, Ok a) /\ f a s1 = (s2, t2, r) /\ t = t1 ++ t2).
Proof.
  unfold mbind, St_bind, st_bind.
  destruct (m s) as [[s1 t1] [a|e]].
  - destruct (f a s1) as [[s2' t2] r'] eqn:E. intros [= <- <- <-].
    right. by exists s1, t1, a, t2.
  - intros [= <- <- <-]. left. by exists e.
Qed.

(** A computation that only reads: the state is kept, nothing is emitted. *)
Definition reads {S A} (m : St S A) : Prop :=
  forall s, exists r, m s = (s, [], r).

Lemma reads_ret {S A} (a : A) : reads (mret a : St S A).
Proof. intros s. by exists (Ok a). Qed.

Lemma reads_raise {S A} e : reads (raise e : St S A).
Proof. intros s. by exists (Raise e). Qed.

Lemma reads_lift {S A} (r : result A) : reads (lift r : St S A).
Proof. intros s. by exists r. Qed.

Lemma reads_gets {S A} (f : S -> A) : reads (gets f : St S A).
Proof. intros s. by exists (Ok (f s)). Qed.

Lemma reads_bind {S A B} (m : St S A) (f : A -> St S B) :
  reads m -> (forall a, reads (f a)) -> reads (m ≫= f).
Proof.
  intros Hm Hf s. destruct (Hm s) as [[a|e] E].
  - destruct (Hf a s) as [r E']. exists r.
    rewrite (bind_ok _ _ _ _ _ _ E), E'. done.
  - exists (Raise e). by rewrite (bind_raise _ _ _ _ _ _ E).
Qed.

Lemma reads_load l : reads (load l : St heap _).
Proof. intros h. unfold load. destruct (h !! l); eauto. Qed.

Lemma reads_load_dict x : reads (load_dict x : St heap _).
Proof.
  apply reads_bind; [apply reads_load|].
  intros []; first [apply reads_ret | apply reads_raise].
Qed.

Lemma reads_getattr x key : reads (getattr x key : St heap _).
Proof.
  apply reads_bind; [apply reads_load_dict|].
  intros d. destruct (d !! key); [apply reads_ret | apply reads_raise].
Qed.

Ltac reads_load_tac :=
  apply reads_bind; [apply reads_load|];
  intros []; first [apply reads_ret | apply reads_raise].

Lemma reads_load_DataFrame l : reads (load_DataFrame l : St heap _).
Proof. reads_load_tac. Qed.
Lemma reads_load_Aes l : reads (load_Aes l : St heap _).
Proof. reads_load_tac. Qed.
Lemma reads_load_Facet l : reads (load_Facet l : St heap _).
Proof. reads_load_tac. Qed.
Lemma reads_load_Labels l : reads (load_Labels l : St heap _).
Proof. reads_load_tac. Qed.
Lemma reads_load_Layers l : reads (load_Layers l : St heap _).
Proof. reads_load_tac. Qed.
Lemma reads_load_Guides l : reads (load_Guides l : St heap _).
Proof. reads_load_tac. Qed.
Lemma reads_load_Scales l : reads (load_Scales l : St heap _).
Proof. reads_load_tac. Qed.
Lemma reads_load_Theme l : reads (load_Theme l : St heap _).
Proof. reads_load_tac. Qed.
Lemma reads_load_Env l : reads (load_Env l : St heap _).
Proof. reads_load_tac. Qed.
Lemma reads_load_Axs l : reads (load_Axs l : St heap _).
Proof. reads_load_tac. Qed.
Lemma reads_load_Fig l : reads (load_Fig l : St heap _).
Proof. reads_load_tac. Qed.

Lemma reads_get_layers self : reads (get_layers self : St heap _).
Proof.
  apply reads_bind; [apply reads_getattr | intros; apply reads_load_Layers].
Qed.

Lemma reads_plot_refs plot : reads (plot_refs plot : St heap _).
Proof.
  unfold plot_refs.
  repeat (apply reads_bind; [apply reads_getattr | intros ?]).
  apply reads_ret.
Qed.

Lemma reads_read_plot r : reads (read_plot r : St heap _).
Proof.
  unfold read_plot.
  apply reads_bind; [apply reads_load_DataFrame | intros ?].
  apply reads_bind; [apply reads_load_Aes | intros [??]].
  apply reads_bind; [apply reads_load_Facet | intros ?].
  apply reads_bind; [apply reads_load_Labels | intros ?].
  apply reads_bind; [apply reads_load_Layers | intros ?].
  apply reads_bind; [apply reads_load_Guides | intros ?].
  apply reads_bind; [apply reads_load_Scales | intros ?].
  apply reads_bind; [apply reads_load_Theme | intros ?].
  apply reads_bind; [apply reads_load_Env | intros ?].
  apply reads_ret.
Qed.

Lemma reads_inv {S A} (m : St S A) s s' t r :
  reads m -> m s = (s', t, r) -> s' = s /\ t = [].
Proof. intros H E. destruct (H s) as [r' E']. rewrite E' in E. by injection E as <- <- _. Qed.

(** What [with_plot] does: the reads fail and nothing happens, or the
    computation runs on the contents and these are written back. *)
Lemma with_plot_inv {A} plot (m : St PlotC A) (h h' : heap) t r :
  with_plot plot m h = (h', t, r) ->
  (h' = h /\ t = [] /\ exists e, r = Raise e) \/
  (exists refs c env c',
      plot_refs plot h = (h, [], Ok refs) /\
      read_plot refs h = (h, [], Ok (c, env)) /\
      m c = (c', t, r) /\ h' = write_plot refs env c' h).
Proof.
  unfold with_plot. intros H.
  apply bind_inv in H as [(e & H & ->) | (h1 & t1 & refs & t2 & H1 & H & ->)].
  { apply reads_inv in H as [-> ->]; [|apply reads_plot_refs]. left. eauto. }
  pose proof (reads_inv _ _ _ _ _ (reads_plot_refs plot) H1) as [-> ->].
  apply bind_inv in H as [(e & H & ->) | (h2 & t3 & [c env] & t4 & H2 & H & ->)].
  { apply reads_inv in H as [-> ->]; [|apply reads_read_plot]. left. eauto. }
  pose proof (reads_inv _ _ _ _ _ (reads_read_plot refs) H2) as [-> ->].
  right. exists refs, c, env. unfold zoom in H.
  destruct (m c) as [[c' t'] r'] eqn:E. injection H as <- <- <-.
  by exists c'.
Qed.

Lemma emit_bind {S B} (ev : event) (f : unit -> St S B) s :
  (emit ev ≫= f) s = (let '(s2, t2, r) := f tt s in (s2, ev :: t2, r)).
Proof. unfold mbind, St_bind, st_bind, emit. by destruct (f tt s) as [[??]?]. Qed.

Lemma bind_assoc {S A B D} (m : St S A) (f : A -> St S B) (g : B -> St S D) s :
  ((m ≫= f) ≫= g) s = (m ≫= (fun a => f a ≫= g)) s.
Proof.
  unfold mbind, St_bind, st_bind.
  destruct (m s) as [[s1 t1] [a|e]]; [|done].
  destruct (f a s1) as [[s2 t2] [b|e]]; [|done].
  destruct (g b s2) as [[s3 t3] r]. by rewrite app_assoc.
Qed.

(** ** Breaks and labels *)

Definition trace_of {S A} (x : S * list event * result A) : list event := x.1.2.

Lemma set_breaks_run {S} (panel : Panel) idx ax rg (s : S) :
  py_index (ranges panel) idx = Ok rg ->
  set_breaks panel idx ax s =
    (s, (if is_waive (x_breaks rg) then [] else [SetXticks ax (x_breaks rg)]) ++
        (if is_waive (y_breaks rg) then [] else [SetYticks ax (y_breaks rg)]),
     Ok tt).
Proof.
  intros H. unfold set_breaks, when, mbind, St_bind, st_bind, lift, emit, mret,
    St_ret, st_ret. rewrite H.
  by destruct (is_waive (x_breaks rg)), (is_waive (y_breaks rg)).
Qed.

Lemma set_labels_run {S} (panel : Panel) idx ax rg (s : S) :
  py_index (ranges panel) idx = Ok rg ->
  set_labels panel idx ax s =
    (s, (if is_waive (x_labels rg) then [] else [SetXticklabels ax (x_labels rg)]) ++
        (if is_waive (y_labels rg) then [] else [SetYticklabels ax (y_labels rg)]),
     Ok tt).
Proof.
  intros H. unfold set_labels, when, mbind, St_bind, st_bind, lift, emit, mret,
    St_ret, st_ret. rewrite H.
  by destruct (is_waive (x_labels rg)), (is_waive (y_labels rg)).
Qed.

Lemma is_waive_false (x : pyval) : is_waive x = false <-> x ≠ Waive.
Proof. destruct x; simpl; split; congruence. Qed.

(** C9. For a panel whose entry of [panel.ranges] is [rg], [set_breaks]
    calls [set_xticks] (resp. [set_yticks]) exactly when [rg]'s x (resp. y)
    breaks are not the waive sentinel, and with these breaks; [set_labels]
    does the same with [set_xticklabels] and [set_yticklabels]; nothing else
    is done to the axes, so that a waived entry leaves them as they are. *)
Theorem set_breaks_labels_iff_not_waive {S} (panel : Panel) (idx : Z)
    (ax : nat) (rg : Ranges) (s : S) :
  py_index (ranges panel) idx = Ok rg ->
  let tb := trace_of (set_breaks panel idx ax s) in
  let tl := trace_of (set_labels panel idx ax s) in
  tb = (if is_waive (x_breaks rg) then [] else [SetXticks ax (x_breaks rg)]) ++
       (if is_waive (y_breaks rg) then [] else [SetYticks ax (y_breaks rg)]) /\
  tl = (if is_waive (x_labels rg) then [] else [SetXticklabels ax (x_labels rg)]) ++
       (if is_waive (y_labels rg) then [] else [SetYticklabels ax (y_labels rg)]) /\
  ((exists b, SetXticks ax b ∈ tb) <-> x_breaks rg ≠ Waive) /\
  ((exists b, SetYticks ax b ∈ tb) <-> y_breaks rg ≠ Waive) /\
  ((exists b, SetXticklabels ax b ∈ tl) <-> x_labels rg ≠ Waive) /\
  ((exists b, SetYticklabels ax b ∈ tl) <-> y_labels rg ≠ Waive).
Proof.
  intros H tb tl. subst tb tl.
  rewrite (set_breaks_run _ _ _ _ _ H), (set_labels_run _ _ _ _ _ H).
  unfold trace_of. simpl. split; [done|]. split; [done|].
  rewrite <- !is_waive_false.
  repeat split; try congruence;
    try (intros [b Hb]; apply elem_of_app in Hb as [Hb|Hb];
         repeat match type of Hb with
         | _ ∈ (if ?c then _ else _) => destruct c
         | _ ∈ [] => by apply not_elem_of_nil in Hb
         | _ ∈ [_] => apply list_elem_of_singleton in Hb; discriminate || done
         end);
    intros ->; eexists; apply elem_of_app;
    first [left; apply list_elem_of_singleton; reflexivity
          |right; apply list_elem_of_singleton; reflexivity].
Qed.

(** ** No layers *)

(** C1. When [self.layers] is empty, [plot_build] raises
    [GgplotError('No layers in plot')] with the store untouched and nothing
    recorded: no copy has been made; [draw] fails in the same way, and
    [render] never reaches [plt.subplots].  When [self.layers] is not
    empty the check is passed: the copy is the first thing recorded. *)
Theorem plot_build_no_layers (self : loc) (h : heap) (layers : list Layer) :
  get_layers self h = (h, [], Ok layers) ->
  match layers with
  | [] =>
      plot_build C self h = (h, [], Raise (GgplotError "No layers in plot")) /\
      draw C self h = (h, [], Raise (GgplotError "No layers in plot")) /\
      (forall nr nc, PltSubplots nr nc ∉ trace_of (render C self h))
  | _ :: _ =>
      exists h' t r, plot_build C self h = (h', Deepcopy :: t, r)
  end.
Proof.
  intros H. destruct layers as [|l ls].
  - assert (Hb : plot_build C self h =
                 (h, [], Raise (GgplotError "No layers in plot"))).
    { unfold plot_build. by rewrite (bind_ok _ _ _ _ _ _ H). }
    assert (Hd : draw C self h =
                 (h, [], Raise (GgplotError "No layers in plot"))).
    { unfold draw. by rewrite (bind_raise _ _ _ _ _ _ Hb). }
    split; [done|]. split; [done|].
    intros nr nc. unfold render. rewrite emit_bind.
    destruct (reads_getattr self "theme" h) as [[tl|e] E1].
    2:{ rewrite (bind_raise _ _ _ _ _ _ E1). unfold trace_of. simpl.
        intros Hin. apply elem_of_cons in Hin as [?|Hin]; [done|].
        by apply not_elem_of_nil in Hin. }
    rewrite (bind_ok _ _ _ _ _ _ E1).
    destruct (reads_load_Theme tl h) as [[th|e] E2].
    2:{ rewrite (bind_raise _ _ _ _ _ _ E2). unfold trace_of. simpl.
        intros Hin. apply elem_of_cons in Hin as [?|Hin]; [done|].
        by apply not_elem_of_nil in Hin. }
    rewrite (bind_ok _ _ _ _ _ _ E2).
    unfold with_context. rewrite bind_assoc, emit_bind.
    unfold mbind at 1, St_bind, st_bind.
    rewrite (bind_raise _ _ _ _ _ _ Hd). unfold trace_of. simpl.
    intros Hin. repeat (apply elem_of_cons in Hin as [?|Hin]; [done|]).
    by apply not_elem_of_nil in Hin.
  - unfold plot_build. rewrite (bind_ok _ _ _ _ _ _ H).
    unfold deepcopy_plot. rewrite bind_assoc, emit_bind. simpl.
    destruct ((ggplot_deepcopy self [] ≫= _) h) as [[h1 t1] r1]. simpl. eauto.
Qed.

(** ** The legend *)

Lemma with_plot_call_trace {A} plot stg (c : PCall A) (h h' : heap) t r :
  with_plot plot (call stg c) h = (h', t, r) ->
  forall ev, ev ∈ t -> ev = Call stg.
Proof.
  intros H ev Hin. apply with_plot_inv in H as [(_ & -> & _) | H].
  { by apply not_elem_of_nil in Hin. }
  destruct H as (refs & c0 & env & c' & _ & _ & H & _).
  unfold call in H. destruct (c c0) as [c1 r1]. injection H as _ <- _.
  by apply list_elem_of_singleton in Hin.
Qed.

Definition valid_positions : list string :=
  ["right"; "left"; "top"; "bottom"]%string.

Lemma lookup_position_invalid (position : string) :
  position ∉ valid_positions ->
  lookup_position position = Raise (KeyError position).
Proof.
  intros H. unfold lookup_position, lookup, assoc.
  repeat match goal with
  | |- context [String.eqb position ?k] =>
      destruct (String.eqb_spec position k) as [->|_];
      [exfalso; apply H; unfold valid_positions; set_solver|]
  end.
  done.
Qed.

Lemma lookup_position_valid (position : string) v :
  lookup_position position = Ok v -> position ∈ valid_positions.
Proof.
  unfold lookup_position, lookup, assoc, valid_positions.
  repeat match goal with
  | |- context [String.eqb position ?k] =>
      destruct (String.eqb_spec position k) as [->|_]; [set_solver|]
  end.
  done.
Qed.

(** C7, as the code has it. When the guides build a legend box and the
    theme's [legend_position] is none of [right], [left], [top] and
    [bottom], [draw_legend] raises the [KeyError] of the failed lookup, with
    the position as its key; nothing is attached to the axes. *)
Theorem draw_legend_invalid_position (self plot : loc) (h h1 : heap)
    (t1 : list event) (box : LegendBox) (tl : loc) (th : Theme) :
  with_plot plot (call GuidesBuild (guides_build C)) h = (h1, t1, Ok (Some box)) ->
  getattr plot "theme" h1 = (h1, [], Ok tl) ->
  load_Theme tl h1 = (h1, [], Ok th) ->
  legend_position th ∉ valid_positions ->
  draw_legend C self plot h = (h1, t1, Raise (KeyError (legend_position th))) /\
  forall ax b lc an, AddArtist ax b lc an ∉ t1.
Proof.
  intros H1 H2 H3 Hpos. split.
  - unfold draw_legend. rewrite (bind_ok _ _ _ _ _ _ H1).
    rewrite (bind_ok _ _ _ _ _ _ H2), (bind_ok _ _ _ _ _ _ H3).
    unfold lift. unfold mbind at 1, St_bind, st_bind.
    rewrite (lookup_position_invalid _ Hpos). simpl. by rewrite app_nil_r.
  - intros ax b lc an Hin.
    by pose proof (with_plot_call_trace _ _ _ _ _ _ _ H1 _ Hin).
Qed.

(** C8. When the guides build no legend, [draw_legend] returns the plot it
    was given, does nothing after the call to the guides and attaches
    nothing; whenever a legend is attached, in any run, the guides have
    built that very box. *)
Theorem draw_legend_no_legend (self plot : loc) (h h1 : heap)
    (t1 : list event) (r1 : result (option LegendBox)) :
  with_plot plot (call GuidesBuild (guides_build C)) h = (h1, t1, r1) ->
  (r1 = Ok None ->
   draw_legend C self plot h = (h1, t1, Ok plot) /\
   forall ax b lc an, AddArtist ax b lc an ∉ t1) /\
  (forall ax b lc an,
     AddArtist ax b lc an ∈ trace_of (draw_legend C self plot h) ->
     r1 = Ok (Some b)).
Proof.
  intros H1. split.
  - intros ->. split.
    + unfold draw_legend. rewrite (bind_ok _ _ _ _ _ _ H1). simpl.
      by rewrite app_nil_r.
    + intros ax b lc an Hin.
      by pose proof (with_plot_call_trace _ _ _ _ _ _ _ H1 _ Hin).
  - intros ax b lc an. unfold draw_legend.
    assert (Hno : AddArtist ax b lc an ∉ t1).
    { intros Hin. by pose proof (with_plot_call_trace _ _ _ _ _ _ _ H1 _ Hin). }
    destruct r1 as [[box|]|e].
    + rewrite (bind_ok _ _ _ _ _ _ H1).
      destruct (reads_getattr plot "theme" h1) as [[tl|e] E1].
      2:{ rewrite (bind_raise _ _ _ _ _ _ E1). unfold trace_of. simpl.
          rewrite app_nil_r. done. }
      rewrite (bind_ok _ _ _ _ _ _ E1).
      destruct (reads_load_Theme tl h1) as [[th|e] E2].
      2:{ rewrite (bind_raise _ _ _ _ _ _ E2). unfold trace_of. simpl.
          rewrite app_nil_r. done. }
      rewrite (bind_ok _ _ _ _ _ _ E2).
      unfold lift. unfold mbind at 1, St_bind, st_bind.
      destruct (lookup_position (legend_position th)) as [[lc' an']|e].
      2:{ unfold trace_of. simpl. rewrite app_nil_r. done. }
      destruct (reads_getattr plot "fig" h1) as [[g|e] E3].
      2:{ rewrite (bind_raise _ _ _ _ _ _ E3). unfold trace_of. simpl.
          rewrite app_nil_r. done. }
      rewrite (bind_ok _ _ _ _ _ _ E3).
      destruct (reads_load_Fig g h1) as [[fg|e] E4].
      2:{ rewrite (bind_raise _ _ _ _ _ _ E4). unfold trace_of. simpl.
          rewrite app_nil_r. done. }
      rewrite (bind_ok _ _ _ _ _ _ E4).
      destruct (reads_getattr plot "axs" h1) as [[a|e] E5].
      2:{ rewrite (bind_raise _ _ _ _ _ _ E5). unfold trace_of. simpl.
          rewrite app_nil_r. done. }
      rewrite (bind_ok _ _ _ _ _ _ E5).
      destruct (reads_load_Axs a h1) as [[axs|e] E6].
      2:{ rewrite (bind_raise _ _ _ _ _ _ E6). unfold trace_of. simpl.
          rewrite app_nil_r. done. }
      rewrite (bind_ok _ _ _ _ _ _ E6).
      unfold mbind at 1, St_bind, st_bind.
      destruct (py_index axs 0) as [ax'|e].
      2:{ unfold trace_of. simpl. rewrite app_nil_r. done. }
      unfold trace_of. simpl. rewrite elem_of_app. intros [Hin|Hin]; [done|].
      apply list_elem_of_singleton in Hin. by injection Hin as _ -> _ _.
    + rewrite (bind_ok _ _ _ _ _ _ H1). unfold trace_of. simpl.
      by rewrite app_nil_r.
    + rewrite (bind_raise _ _ _ _ _ _ H1). done.
Qed.

(** ** The constructor *)

Lemma bind_nil {S A B} (m : St S A) (f : A -> St S B) s s1 a :
  m s = (s1, [], Ok a) -> (m ≫= f) s = f a s1.
Proof.
  intros H. rewrite (bind_ok _ _ _ _ _ _ H). by destruct (f a s1) as [[??]?].
Qed.

Lemma lift_bind {S A B} (r : result A) (f : A -> St S B) s :
  (lift r ≫= f) s = match r with Ok a => f a s | Raise e => (s, [], Raise e) end.
Proof.
  unfold lift, mbind, St_bind, st_bind. destruct r; [|done].
  by destruct (f a s) as [[??]?].
Qed.

Lemma ret_bind {S A B} (a : A) (f : A -> St S B) s : (mret a ≫= f) s = f a s.
Proof.
  unfold mret, St_ret, st_ret, mbind, St_bind, st_bind.
  by destruct (f a s) as [[??]?].
Qed.

Lemma alloc_run (o : obj) (h : heap) :
  alloc o h = (<[fresh (dom h) := o]> h, [], Ok (fresh (dom h))).
Proof. done. Qed.

Lemma fresh_lookup (h : heap) : h !! fresh (dom h) = None.
Proof. apply not_elem_of_dom, is_fresh. Qed.

Lemma load_run (l : loc) (o : obj) (h : heap) :
  h !! l = Some o -> load l h = (h, [], Ok o).
Proof. intros H. unfold load. by rewrite H. Qed.

Lemma load_dict_run (x : loc) dct (h : heap) :
  h !! x = Some (OInstance dct) -> load_dict x h = (h, [], Ok dct).
Proof. intros H. unfold load_dict. by rewrite (bind_nil _ _ _ _ _ (load_run _ _ _ H)). Qed.

Lemma setattr_run (x : loc) key v dct (h : heap) :
  h !! x = Some (OInstance dct) ->
  setattr x key v h = (<[x := OInstance (<[key := v]> dct)]> h, [], Ok tt).
Proof.
  intros H. unfold setattr. by rewrite (bind_nil _ _ _ _ _ (load_dict_run _ _ _ H)).
Qed.

Lemma getattr_run (x : loc) key v dct (h : heap) :
  h !! x = Some (OInstance dct) -> dct !! key = Some v ->
  getattr x key h = (h, [], Ok v).
Proof.
  intros H E. unfold getattr.
  rewrite (bind_nil _ _ _ _ _ (load_dict_run _ _ _ H)). by rewrite E.
Qed.

(** The new instance [self] with its [__dict__], in a store [hi] that holds
    the objects of [hb], of which [self] is none. *)
Definition inst_at (hb hi : heap) (self : loc) (dct : gmap string loc) : Prop :=
  hi !! self = Some (OInstance dct) /\ hb !! self = None /\ hb ⊆ hi.

Lemma inst_at_weaken hb hb' hi self dct :
  hb ⊆ hb' -> inst_at hb' hi self dct -> inst_at hb hi self dct.
Proof.
  intros Hs (H1 & H2 & H3). split; [done|]. split.
  - destruct (hb !! self) eqn:E; [|done].
    by rewrite (lookup_weaken _ _ _ _ E Hs) in H2.
  - by trans hb'.
Qed.

Lemma setattr_step {A} hb hi self dct key v (k : St heap A)
    (P : heap * list event * result A -> Prop) :
  inst_at hb hi self dct ->
  (forall hi', inst_at hb hi' self (<[key := v]> dct) -> P (k hi')) ->
  P ((setattr self key v ≫= fun _ => k) hi).
Proof.
  intros (H1 & H2 & H3) Hk.
  rewrite (bind_nil _ _ _ _ _ (setattr_run _ key v _ _ H1)).
  apply Hk. split; [by rewrite lookup_insert_eq|]. split; [done|].
  by apply insert_subseteq_r.
Qed.

Lemma alloc_setattr_step {A} hb hi self dct o key (k : St heap A)
    (P : heap * list event * result A -> Prop) :
  inst_at hb hi self dct ->
  (forall l hb' hi',
      inst_at hb' hi' self (<[key := l]> dct) ->
      hb' !! l = Some o -> hb ⊆ hb' -> P (k hi')) ->
  P ((alloc o ≫= fun a => setattr self key a ≫= fun _ => k) hi).
Proof.
  intros (H1 & H2 & H3) Hk.
  rewrite (bind_nil _ _ _ _ _ (alloc_run _ _)).
  pose proof (fresh_lookup hi) as Hf. set (l := fresh (dom hi)) in *.
  assert (Hl : l ≠ self) by congruence.
  assert (Hb : hb !! l = None).
  { destruct (hb !! l) eqn:E; [|done]. by rewrite (lookup_weaken _ _ _ _ E H3) in Hf. }
  assert (H1' : <[l:=o]> hi !! self = Some (OInstance dct)).
  { by rewrite lookup_insert_ne. }
  rewrite (bind_nil _ _ _ _ _ (setattr_run _ key l _ _ H1')).
  apply (Hk l (<[l:=o]> hb)).
  - split; [by rewrite lookup_insert_eq|]. split; [by rewrite lookup_insert_ne|].
    apply insert_subseteq_r; [by rewrite lookup_insert_ne|].
    by apply insert_mono.
  - by rewrite lookup_insert_eq.
  - by apply insert_subseteq.
Qed.

Lemma load_step {A} hb hi self dct m o (k : obj -> St heap A)
    (P : heap * list event * result A -> Prop) :
  inst_at hb hi self dct -> hb !! m = Some o ->
  P (k o hi) -> P ((load m ≫= k) hi).
Proof.
  intros (H1 & H2 & H3) Hm Hk.
  by rewrite (bind_nil _ _ _ _ _ (load_run m _ _ (lookup_weaken _ _ _ _ Hm H3))).
Qed.

(** What [__init__] leaves when it is handed an aes and a data frame. *)
Definition initialised (h0 : heap) (self m d env : loc) (lb : Labels)
    (x : heap * list event * result unit) : Prop :=
  exists h' f l ls g s t,
    x = (h', [], Ok tt) /\
    inst_at h0 h' self
      (list_to_map
         [("data", d); ("mapping", m); ("facet", f); ("labels", l);
          ("layers", ls); ("guides", g); ("scales", s); ("theme", t);
          ("plot_env", env)]%string) /\
    h' !! f = Some (OFacet (facet_null C)) /\
    h' !! l = Some (OLabels lb) /\
    h' !! ls = Some (OLayers []) /\
    h' !! g = Some (OGuides (guides C)) /\
    h' !! s = Some (OScales (new_Scales C)) /\
    h' !! t = Some (OTheme (theme_gray C)).

Lemma init_body_run h0 hi self m d mp env lb :
  inst_at h0 hi self ∅ ->
  h0 !! m = Some (OAes mp env) ->
  make_labels C (OAes mp env) = Ok lb ->
  initialised h0 self m d env lb (ggplot_init_body C self m d hi).
Proof.
  intros I0 Hm Hlb. unfold ggplot_init_body.
  eapply setattr_step; [exact I0|]. clear hi I0. intros hi I0.
  eapply setattr_step; [exact I0|]. clear hi I0. intros hi I0.
  eapply alloc_setattr_step; [exact I0|]. clear hi I0.
  intros f h1 hi I1 Ff S1.
  eapply load_step; [exact I1|exact (lookup_weaken _ _ _ _ Hm S1)|].
  rewrite lift_bind, Hlb.
  eapply alloc_setattr_step; [exact I1|]. clear hi I1.
  intros l h2 hi I2 Fl S2.
  eapply alloc_setattr_step; [exact I2|]. clear hi I2.
  intros ls h3 hi I3 Fls S3.
  eapply alloc_setattr_step; [exact I3|]. clear hi I3.
  intros g h4 hi I4 Fg S4.
  eapply alloc_setattr_step; [exact I4|]. clear hi I4.
  intros s h5 hi I5 Fs S5.
  eapply alloc_setattr_step; [exact I5|]. clear hi I5.
  intros t h6 hi I6 Ft S6.
  assert (S06 : h0 ⊆ h6) by (do 5 (etrans; [eassumption|]); done).
  unfold get_aes_env. rewrite (bind_assoc (load m)).
  eapply load_step; [exact I6|exact (lookup_weaken _ _ _ _ Hm S06)|].
  cbv beta iota. rewrite ret_bind.
  rewrite (setattr_run _ "plot_env" env _ _ (proj1 I6)).
  destruct I6 as (I6a & I6b & I6c).
  match goal with |- initialised _ _ _ _ _ _ (?hf, _, _) => set (h' := hf) end.
  assert (I7 : h6 ⊆ h') by (by apply insert_subseteq_r).
  exists h', f, l, ls, g, s, t.
  split; [done|]. split.
  { apply (inst_at_weaken _ h6); [done|].
    split; [|by split]. unfold h'. rewrite lookup_insert_eq. by do 2 f_equal. }
  repeat split; (eapply lookup_weaken; [|exact I7]).
  - eapply lookup_weaken; [exact Ff|]. do 4 (etrans; [eassumption|]); done.
  - eapply lookup_weaken; [exact Fl|]. do 3 (etrans; [eassumption|]); done.
  - eapply lookup_weaken; [exact Fls|]. do 2 (etrans; [eassumption|]); done.
  - eapply lookup_weaken; [exact Fg|]. do 1 (etrans; [eassumption|]); done.
  - eapply lookup_weaken; [exact Fs|]. done.
  - done.
Qed.

Definition is_DataFrame (o : obj) : bool :=
  match o with ODataFrame _ => true | _ => false end.

Lemma ggplot_init_swap self x y (h : heap) o :
  h !! y = Some o ->
  ggplot_init C self x y h =
    if is_DataFrame o then ggplot_init_body C self x y h
    else ggplot_init_body C self y x h.
Proof.
  intros Hy. unfold ggplot_init, isinstance_DataFrame.
  rewrite bind_assoc, (bind_nil _ _ _ _ _ (load_run _ _ _ Hy)), ret_bind.
  by destruct o.
Qed.

(** C10. When the argument in the data position is not a [DataFrame],
    [__init__] goes on with the two arguments swapped, and as they are
    otherwise.  Handed an aes and a data frame, in either order, the
    constructor returns the same plot: its [data] is the data frame, its
    [mapping] is the aes and its [plot_env] is the environment of the aes. *)
Theorem ggplot_either_order (m d : loc) (h : heap) (df : DataFrame)
    (mp : Mapping) (env : loc) (lb : Labels) :
  h !! d = Some (ODataFrame df) ->
  h !! m = Some (OAes mp env) ->
  make_labels C (OAes mp env) = Ok lb ->
  (forall self x y o, h !! y = Some o ->
     ggplot_init C self x y h =
       if is_DataFrame o then ggplot_init_body C self x y h
       else ggplot_init_body C self y x h) /\
  exists h' self,
    ggplot C m d h = (h', [], Ok self) /\
    ggplot C d m h = (h', [], Ok self) /\
    getattr self "data" h' = (h', [], Ok d) /\
    getattr self "mapping" h' = (h', [], Ok m) /\
    getattr self "plot_env" h' = (h', [], Ok env) /\
    h' !! d = Some (ODataFrame df) /\
    h' !! m = Some (OAes mp env).
Proof.
  intros Hd Hm Hlb. split.
  { intros self x y o. apply ggplot_init_swap. }
  pose proof (fresh_lookup h) as Hf. set (self := fresh (dom h)) in *.
  set (h1 := <[self := OInstance ∅]> h).
  assert (I0 : inst_at h h1 self ∅).
  { split; [by apply lookup_insert_eq|]. split; [done|]. by apply insert_subseteq. }
  assert (Hd1 : h1 !! d = Some (ODataFrame df))
    by exact (lookup_weaken _ _ _ _ Hd (proj2 (proj2 I0))).
  assert (Hm1 : h1 !! m = Some (OAes mp env))
    by exact (lookup_weaken _ _ _ _ Hm (proj2 (proj2 I0))).
  destruct (init_body_run h h1 self m d mp env lb I0 Hm Hlb)
    as (h' & f & l & ls & g & s & t & E & I & _).
  exists h', self.
  assert (E1 : ggplot C m d h = (h', [], Ok self)).
  { unfold ggplot. rewrite (bind_nil _ _ _ _ _ (alloc_run _ _)).
    fold self h1.
    assert (E' : ggplot_init C self m d h1 = (h', [], Ok tt))
      by (by rewrite (ggplot_init_swap self m d h1 _ Hd1)).
    by rewrite (bind_nil _ _ _ _ _ E'). }
  assert (E2 : ggplot C d m h = (h', [], Ok self)).
  { unfold ggplot. rewrite (bind_nil _ _ _ _ _ (alloc_run _ _)).
    fold self h1.
    assert (E' : ggplot_init C self d m h1 = (h', [], Ok tt))
      by (by rewrite (ggplot_init_swap self d m h1 _ Hm1)).
    by rewrite (bind_nil _ _ _ _ _ E'). }
  destruct I as (I1 & I2 & I3).
  split; [done|]. split; [done|].
  split; [by apply (getattr_run _ _ _ _ _ I1)|].
  split; [by apply (getattr_run _ _ _ _ _ I1)|].
  split; [by apply (getattr_run _ _ _ _ _ I1)|].
  split; [exact (lookup_weaken _ _ _ _ Hd I3) | exact (lookup_weaken _ _ _ _ Hm I3)].
Qed.

(** ** The order of the stages

    The calls of a run are matched against a sequence of segments: [One e]
    is one occurrence of [e], [Many e] any number of them. *)

Inductive segment : Type :=
| One (e : event)
| Many (e : event).

Inductive matches : list segment -> list event -> Prop :=
| matches_nil : matches [] []
| matches_one e segs t : matches segs t -> matches (One e :: segs) (e :: t)
| matches_skip e segs t : matches segs t -> matches (Many e :: segs) t
| matches_more e segs t :
    matches (Many e :: segs) t -> matches (Many e :: segs) (e :: t).

(** The trace of a run follows [segs]: it matches [segs] when the run
    returns, and is the beginning of a trace that does when it raises. *)
Definition follows {S A} (segs : list segment)
    (x : S * list event * result A) : Prop :=
  exists rest, matches segs (trace_of x ++ rest) /\
               (is_ok x.2 = true -> rest = []).

Definition Follows {S A} (segs : list segment) (m : St S A) : Prop :=
  forall s, follows segs (m s).

Definition Star {S A} (e : event) (m : St S A) : Prop :=
  forall s, exists k, trace_of (m s) = repeat e k.

Lemma matches_app s1 s2 t1 t2 :
  matches s1 t1 -> matches s2 t2 -> matches (s1 ++ s2) (t1 ++ t2).
Proof. induction 1; intros; simpl; eauto using matches. Qed.

Fixpoint shortest (segs : list segment) : list event :=
  match segs with
  | [] => []
  | One e :: segs' => e :: shortest segs'
  | Many _ :: segs' => shortest segs'
  end.

Lemma matches_shortest segs : matches segs (shortest segs).
Proof. induction segs as [|[]]; simpl; eauto using matches. Qed.

Lemma matches_repeat e k : matches [Many e] (repeat e k).
Proof. induction k; simpl; eauto using matches. Qed.

Lemma Follows_bind {S A B} s1 s2 (m : St S A) (f : A -> St S B) :
  Follows s1 m -> (forall a, Follows s2 (f a)) -> Follows (s1 ++ s2) (m ≫= f).
Proof.
  intros Hm Hf s. destruct (Hm s) as (r1 & M1 & R1).
  unfold mbind, St_bind, st_bind. unfold trace_of in *.
  destruct (m s) as [[s' t1] [a|e]]; simpl in *.
  - rewrite (R1 eq_refl), app_nil_r in M1.
    destruct (Hf a s') as (r2 & M2 & R2). unfold trace_of in *.
    destruct (f a s') as [[s'' t2] r]; simpl in *.
    exists r2. split; [|done]. unfold trace_of. simpl.
    rewrite <- app_assoc. by apply matches_app.
  - exists (r1 ++ shortest s2). split; [|done]. unfold trace_of. simpl.
    rewrite app_assoc. apply matches_app; [done|apply matches_shortest].
Qed.

Lemma Follows_eq {S A} s1 s2 (m : St S A) : Follows s1 m -> s1 = s2 -> Follows s2 m.
Proof. by intros ? <-. Qed.

Lemma Follows_silent {S A} (m : St S A) :
  (forall s, trace_of (m s) = []) -> Follows [] m.
Proof. intros H s. exists []. rewrite H. split; [constructor|done]. Qed.

Lemma Follows_ret {S A} (a : A) : Follows [] (mret a : St S A).
Proof. by apply Follows_silent. Qed.

Lemma Follows_gets {S A} (f : S -> A) : Follows [] (gets f).
Proof. by apply Follows_silent. Qed.

Lemma Follows_modify {S} (f : S -> S) : Follows [] (modify f).
Proof. by apply Follows_silent. Qed.

Lemma Follows_lift {S A} (r : result A) : Follows [] (lift r : St S A).
Proof. by apply Follows_silent. Qed.

Lemma Follows_call {S A} stg (c : S -> S * result A) :
  Follows [One (Call stg)] (call stg c).
Proof.
  intros s. exists []. unfold call, trace_of. destruct (c s) as [s' r]. simpl.
  split; [eauto using matches|done].
Qed.

Lemma Follows_on_plot {A} segs (m : St PlotC A) :
  Follows segs m -> Follows segs (on_plot m).
Proof.
  intros H w. destruct (H (w_plot w)) as (rest & M & R). exists rest.
  unfold on_plot, zoom, trace_of in *.
  by destruct (m (w_plot w)) as [[p t] r].
Qed.

Lemma Follows_skip {S A} e segs (m : St S A) :
  Follows segs m -> Follows (Many e :: segs) m.
Proof.
  intros H s. destruct (H s) as (rest & M & R). exists rest.
  split; [by constructor|done].
Qed.

Lemma Follows_if {S A} segs (b : bool) (m1 m2 : St S A) :
  Follows segs m1 -> Follows segs m2 -> Follows segs (if b then m1 else m2).
Proof. by destruct b. Qed.

Lemma Star_Follows {S A} e (m : St S A) : Star e m -> Follows [Many e] m.
Proof.
  intros H s. destruct (H s) as [k E]. exists []. rewrite E, app_nil_r.
  split; [apply matches_repeat|done].
Qed.

Lemma Star_silent {S A} e (m : St S A) :
  (forall s, trace_of (m s) = []) -> Star e m.
Proof. intros H s. exists 0%nat. by rewrite H. Qed.

Lemma Star_bind {S A B} e (m : St S A) (f : A -> St S B) :
  Star e m -> (forall a, Star e (f a)) -> Star e (m ≫= f).
Proof.
  intros Hm Hf s. destruct (Hm s) as [k1 E1].
  unfold mbind, St_bind, st_bind, trace_of in *.
  destruct (m s) as [[s' t1] [a|x]]; simpl in *; [|by exists k1].
  destruct (Hf a s') as [k2 E2]. unfold trace_of in *.
  destruct (f a s') as [[s'' t2] r]; simpl in *.
  exists (k1 + k2)%nat. by rewrite E1, E2, repeat_app.
Qed.

Lemma Star_call {S A} stg (c : S -> S * result A) : Star (Call stg) (call stg c).
Proof. intros s. exists 1%nat. unfold call, trace_of. by destruct (c s). Qed.

Lemma Star_on_plot {A} e (m : St PlotC A) : Star e m -> Star e (on_plot m).
Proof.
  intros H w. destruct (H (w_plot w)) as [k E]. exists k.
  unfold on_plot, zoom, trace_of in *.
  by destruct (m (w_plot w)) as [[p t] r].
Qed.

Lemma Star_dlapply_from e f data i :
  (forall d l, Star e (f d l)) -> Star e (dlapply_from i f data).
Proof.
  intros Hf. revert i. induction data as [|d rest IH]; intros i; simpl.
  - by apply Star_silent.
  - apply Star_bind; [by apply Star_silent|]. intros layers.
    apply Star_bind; [by apply Star_silent|]. intros l.
    apply Star_bind; [apply Hf|]. intros o.
    apply Star_bind; [apply IH|]. intros out. by apply Star_silent.
Qed.

Lemma Star_mapM {S A B} e (f : A -> St S B) (xs : list A) :
  (forall x, Star e (f x)) -> Star e (mapM f xs).
Proof.
  intros Hf. induction xs as [|x xs IH]; simpl.
  - by apply Star_silent.
  - apply Star_bind; [apply Hf|]. intros y.
    apply Star_bind; [apply IH|]. intros ys. by apply Star_silent.
Qed.

(** The order in which [plot_build] calls its collaborators. *)
Definition pipeline_order : list segment :=
  [One (Call TrainLayout); One (Call MapLayout);
   Many (Call ComputeAesthetics); Many (Call AddGroup); Many (Call TransformDf);
   One (Call (GetScales "x")); One (Call (GetScales "y"));
   One (Call TrainPosition);
   One (Call (GetScales "x")); One (Call (GetScales "y"));
   One (Call MapPosition);
   One (Call CalculateStats); Many (Call MapStatistic);
   One (Call ScalesAddMissing);
   Many (Call Reparameterise);
   Many (Call AdjustPosition);
   One (Call ResetScales);
   One (Call (GetScales "x")); One (Call (GetScales "y"));
   One (Call TrainPosition);
   One (Call (GetScales "x")); One (Call (GetScales "y"));
   One (Call MapPosition);
   One (Call NonPositionScales); Many (Call TrainDf); Many (Call MapDf);
   One (Call TrainRanges)].

Ltac follows_prim :=
  first
    [ apply Follows_ret | apply Follows_gets | apply Follows_modify
    | apply Follows_lift
    | apply Follows_on_plot, Follows_call | apply Follows_call
    | apply Star_Follows, Star_dlapply_from; intros;
      apply Star_on_plot, Star_call
    | apply Star_Follows, Star_mapM; intros;
      first [apply Star_on_plot, Star_call | apply Star_call] ].

Ltac follows_chain :=
  repeat (eapply Follows_bind; [follows_prim | intros]).

Lemma build_pipeline_order : Follows pipeline_order (build_pipeline C).
Proof.
  eapply Follows_eq.
  - unfold build_pipeline, scale_x, scale_y, dlapply.
    follows_chain.
    eapply Follows_bind.
    { apply Follows_if.
      - eapply Follows_bind; [follows_prim | intros; follows_prim].
      - do 2 apply Follows_skip. apply Follows_ret. }
    intros. follows_chain. apply Follows_ret.
  - reflexivity.
Qed.

Definition Quiet {S A} (m : St S A) : Prop := forall s, trace_of (m s) = [].

Lemma Quiet_bind {S A B} (m : St S A) (f : A -> St S B) :
  Quiet m -> (forall a, Quiet (f a)) -> Quiet (m ≫= f).
Proof.
  intros Hm Hf s. specialize (Hm s).
  unfold mbind, St_bind, st_bind, trace_of in *.
  destruct (m s) as [[s' t1] [a|e]]; simpl in *; [|done].
  specialize (Hf a s'). unfold trace_of in *.
  destruct (f a s') as [[s'' t2] r]; simpl in *. by subst.
Qed.

Lemma Quiet_reads {S A} (m : St S A) : reads m -> Quiet m.
Proof. intros H s. destruct (H s) as [r ->]. done. Qed.

Lemma Quiet_setattr x key v : Quiet (setattr x key v).
Proof.
  apply Quiet_bind; [apply Quiet_reads, reads_load_dict|]. by intros d s.
Qed.

Lemma Quiet_deepcopy x memo : Quiet (deepcopy x memo).
Proof.
  unfold deepcopy. destruct (memo_get x memo); [by intros s|].
  apply Quiet_bind; [apply Quiet_reads, reads_load|]. intros o.
  apply Quiet_bind; [by intros s|]. by intros y s.
Qed.

Lemma Quiet_copy_items result items memo : Quiet (copy_items result items memo).
Proof.
  revert memo. induction items as [|[key item] rest IH]; intros memo; simpl.
  - by intros s.
  - destruct (in_shallow key).
    + apply Quiet_bind; [apply Quiet_setattr|]. intros _. apply IH.
    + apply Quiet_bind; [apply Quiet_deepcopy|]. intros [y memo'].
      apply Quiet_bind; [apply Quiet_setattr|]. intros _. apply IH.
Qed.

Lemma Quiet_ggplot_deepcopy self memo : Quiet (ggplot_deepcopy self memo).
Proof.
  apply Quiet_bind; [apply Quiet_reads, reads_load_dict|]. intros d.
  apply Quiet_bind; [by intros s|]. intros result.
  apply Quiet_bind; [apply Quiet_copy_items|]. by intros _ s.
Qed.

Lemma Follows_raise {S A} segs e : Follows segs (raise e : St S A).
Proof.
  intros s. exists (shortest segs). split; [apply matches_shortest|done].
Qed.

Lemma Follows_emit {S} ev : Follows [One ev] (emit ev : St S unit).
Proof. intros s. exists []. split; [simpl; eauto using matches|done]. Qed.

Lemma Follows_with_panel {A} segs panel (m : St World A) :
  Follows segs m -> Follows segs (with_panel panel m).
Proof.
  intros H p. destruct (H (mkWorld p panel)) as (rest & M & R). exists rest.
  unfold with_panel, trace_of in *.
  by destruct (m (mkWorld p panel)) as [[w t] [a|e]].
Qed.

Lemma Follows_with_plot {A} segs plot (m : St PlotC A) :
  Follows segs m -> Follows segs (with_plot plot m).
Proof.
  intros H h. destruct (with_plot plot m h) as [[h' t] r] eqn:E.
  apply with_plot_inv in E as [(-> & -> & e & ->) | E].
  - exists (shortest segs). split; [apply matches_shortest|done].
  - destruct E as (refs & c & env & c' & _ & _ & E & _).
    destruct (H c) as (rest & M & R). rewrite E in M, R. by exists rest.
Qed.

Lemma Follows_deepcopy_plot self : Follows [One Deepcopy] (deepcopy_plot self).
Proof.
  unfold deepcopy_plot.
  apply (Follows_bind [One Deepcopy] []); [apply Follows_emit|].
  intros _. apply Follows_silent, Quiet_ggplot_deepcopy.
Qed.

Lemma matches_one_inv e segs t :
  matches (One e :: segs) t -> exists t', t = e :: t' /\ matches segs t'.
Proof. inversion 1; subst. eauto. Qed.

Lemma matches_many_inv e segs t :
  matches (Many e :: segs) t ->
  exists k t', t = repeat e k ++ t' /\ matches segs t'.
Proof.
  intros H. remember (Many e :: segs) as ss eqn:E.
  induction H as [|e' ss' t H IH|e' ss' t H IH|e' ss' t H IH]; try discriminate.
  - injection E as -> ->. by exists 0%nat, t.
  - destruct (IH E) as (k & t' & -> & M). injection E as -> ->.
    by exists (S k), t'.
Qed.

Lemma matches_nil_inv t : matches [] t -> t = [].
Proof. by inversion 1. Qed.

(** C5. In every run of [plot_build], the calls made follow
    [pipeline_order], up to the point where the run raises if it does.  In a
    run that returns, they are: what comes before the statistics; then
    [calculate_stats] and the [map_statistic] calls; then
    [scales_add_missing]; then the [reparameterise] calls; then the
    [adjust_position] calls; then [reset_scales], [train_position] and
    [map_position] with the x and y scales looked up before each; then
    [non_position_scales] with the [train_df] and the [map_df] calls; and
    [train_ranges] last. *)
Theorem plot_build_order (self : loc) (h : heap) :
  follows (One Deepcopy :: pipeline_order) (plot_build C self h) /\
  (is_ok (plot_build C self h).2 = true ->
   exists pre k1 k2 k3 k4 k5,
     trace_of (plot_build C self h) =
       pre ++ [Call CalculateStats] ++ repeat (Call MapStatistic) k1 ++
       [Call ScalesAddMissing] ++
       repeat (Call Reparameterise) k2 ++
       repeat (Call AdjustPosition) k3 ++
       [Call ResetScales;
        Call (GetScales "x"); Call (GetScales "y"); Call TrainPosition;
        Call (GetScales "x"); Call (GetScales "y"); Call MapPosition;
        Call NonPositionScales] ++
       repeat (Call TrainDf) k4 ++ repeat (Call MapDf) k5 ++
       [Call TrainRanges] /\
     (forall ev, ev ∈ pre ->
        ev ≠ Call ScalesAddMissing /\ ev ≠ Call Reparameterise /\
        ev ≠ Call AdjustPosition /\ ev ≠ Call ResetScales /\
        ev ≠ Call TrainRanges)).
Proof.
  assert (F : follows (One Deepcopy :: pipeline_order) (plot_build C self h)).
  { revert h. change (Follows ([] ++ One Deepcopy :: pipeline_order) (plot_build C self)).
    unfold plot_build. apply Follows_bind.
    { apply Follows_silent, Quiet_reads, reads_get_layers. }
    intros [|l ls]; [apply Follows_raise|].
    apply (Follows_bind [One Deepcopy] pipeline_order);
      [apply Follows_deepcopy_plot|].
    intros plot.
    apply (Follows_eq (pipeline_order ++ [])); [|by rewrite app_nil_r].
    apply Follows_bind.
    - apply Follows_with_plot, Follows_with_panel, build_pipeline_order.
    - intros [data panel]. apply Follows_ret. }
  split; [done|]. intros Hok.
  destruct F as (rest & M & R). rewrite (R Hok), app_nil_r in M. clear R Hok.
  unfold pipeline_order in M.
  repeat match type of M with
  | matches (One _ :: _) _ =>
      apply matches_one_inv in M as (? & -> & M)
  | matches (Many _ :: _) _ =>
      apply matches_many_inv in M as (? & ? & -> & M)
  | matches [] _ => apply matches_nil_inv in M as ->
  end.
  match goal with
  | |- context [repeat (Call ComputeAesthetics) ?a ++
                repeat (Call AddGroup) ?b ++ repeat (Call TransformDf) ?c ++ _] =>
      exists (Deepcopy :: Call TrainLayout :: Call MapLayout ::
                repeat (Call ComputeAesthetics) a ++
                repeat (Call AddGroup) b ++ repeat (Call TransformDf) c ++
                [Call (GetScales "x"); Call (GetScales "y"); Call TrainPosition;
                 Call (GetScales "x"); Call (GetScales "y"); Call MapPosition])
  end.
  do 5 eexists. split.
  - simpl. rewrite <- !app_assoc. simpl. reflexivity.
  - intros ev Hin.
    repeat (apply elem_of_cons in Hin as [->|Hin]; [by repeat split|]).
    repeat (apply elem_of_app in Hin as [Hin|Hin];
            [apply list_elem_of_In, repeat_spec in Hin as ->; by repeat split|]).
    repeat (apply elem_of_cons in Hin as [->|Hin]; [by repeat split|]).
    by apply not_elem_of_nil in Hin.
Qed.

(** ** The copy *)

(** What [__deepcopy__] binds [key] to in the copy [result], when [self]
    binds it to [item]: [item] itself for a key of [shallow], else a
    reference that is new to the store [h0] the copy started from and
    holds, in the store [h'], what [item] held in [h0]. *)
Definition copy_of (h0 h' : heap) (result : loc) (key : string)
    (item v : loc) : Prop :=
  if in_shallow key then v = item
  else h0 !! v = None /\ v ≠ result /\
       forall o, h0 !! item = Some o -> h' !! v = Some o.

Definition memo_ok (h0 h : heap) (result : loc) (memo : memo_t) : Prop :=
  forall x y, memo_get x memo = Some y ->
    h0 !! y = None /\ y ≠ result /\
    forall o, h0 !! x = Some o -> h !! y = Some o.

(** The store while the copy is being filled. *)
Definition copying (h0 h : heap) (result : loc) (memo : memo_t)
    (dct : gmap string loc) : Prop :=
  h0 ⊆ h /\ h0 !! result = None /\ h !! result = Some (OInstance dct) /\
  memo_ok h0 h result memo.

Definition grows (result : loc) (h h' : heap) : Prop :=
  forall l o, l ≠ result -> h !! l = Some o -> h' !! l = Some o.

Lemma grows_refl result h : grows result h h.
Proof. by intros l o. Qed.

Lemma grows_trans result h1 h2 h3 :
  grows result h1 h2 -> grows result h2 h3 -> grows result h1 h3.
Proof. intros H1 H2 l o Hl E. by apply H2, H1. Qed.

Lemma copy_of_grows h0 h h' result key item v :
  grows result h h' -> copy_of h0 h result key item v ->
  copy_of h0 h' result key item v.
Proof.
  unfold copy_of. intros G. destruct (in_shallow key); [done|].
  intros (H1 & H2 & H3). repeat split; [done..|].
  intros o Ho. by apply G, H3.
Qed.

Lemma copying_setattr h0 h result memo dct key v :
  copying h0 h result memo dct ->
  setattr result key v h =
    (<[result := OInstance (<[key := v]> dct)]> h, [], Ok tt) /\
  copying h0 (<[result := OInstance (<[key := v]> dct)]> h) result memo
          (<[key := v]> dct) /\
  grows result h (<[result := OInstance (<[key := v]> dct)]> h).
Proof.
  intros (H1 & H2 & H3 & H4). split; [by apply setattr_run|]. split.
  - split; [by apply insert_subseteq_r|]. split; [done|].
    split; [by rewrite lookup_insert_eq|].
    intros x y E. destruct (H4 x y E) as (Y1 & Y2 & Y3).
    repeat split; [done..|]. intros o Ho. rewrite lookup_insert_ne; [|done].
    by apply Y3.
  - intros l o Hl E. by rewrite lookup_insert_ne.
Qed.

Lemma memo_get_cons x k y memo :
  memo_get x ((k, y) :: memo) = if Pos.eqb x k then Some y else memo_get x memo.
Proof. done. Qed.

Lemma copying_deepcopy h0 h result memo dct item h' t y memo' :
  copying h0 h result memo dct ->
  deepcopy item memo h = (h', t, Ok (y, memo')) ->
  copying h0 h' result memo' dct /\ grows result h h' /\
  h0 !! y = None /\ y ≠ result /\
  forall o, h0 !! item = Some o -> h' !! y = Some o.
Proof.
  intros (H1 & H2 & H3 & H4). unfold deepcopy.
  destruct (memo_get item memo) as [y0|] eqn:E.
  - intros [= <- <- <- <-]. destruct (H4 _ _ E) as (Y1 & Y2 & Y3).
    split; [exact (conj H1 (conj H2 (conj H3 H4)))|].
    split; [apply grows_refl|]. by split_and!.
  - destruct (h !! item) as [o|] eqn:Ei.
    2:{ by rewrite (bind_raise _ _ h h [] SystemError)
          by (unfold load; by rewrite Ei). }
    rewrite (bind_nil _ _ _ _ _ (load_run _ _ _ Ei)).
    rewrite (bind_nil _ _ _ _ _ (alloc_run _ _)).
    pose proof (fresh_lookup h) as Hf. set (l := fresh (dom h)) in *.
    intros [= <- <- <- <-].
    assert (Hl0 : h0 !! l = None).
    { destruct (h0 !! l) eqn:E0; [|done]. by rewrite (lookup_weaken _ _ _ _ E0 H1) in Hf. }
    assert (Hlr : l ≠ result) by congruence.
    assert (G : grows result h (<[l:=o]> h)).
    { intros x ox Hx Ex. rewrite lookup_insert_ne; [done|]. congruence. }
    assert (Hc : forall o', h0 !! item = Some o' -> <[l:=o]> h !! l = Some o').
    { intros o' Ho'. rewrite lookup_insert_eq.
      rewrite (lookup_weaken _ _ _ _ Ho' H1) in Ei. congruence. }
    split; [|by split_and!].
    split; [by apply insert_subseteq_r|]. split; [done|].
    split; [by rewrite lookup_insert_ne|].
    { intros x y. rewrite memo_get_cons.
      destruct (Pos.eqb_spec x item) as [->|Hne].
      * intros [= <-]. by repeat split.
      * intros Em. destruct (H4 _ _ Em) as (Y1 & Y2 & Y3).
        repeat split; [done..|]. intros ox Hox. by apply G, Y3. }
Qed.

Lemma copy_items_spec h0 result items :
  NoDup items.*1 ->
  forall memo h dct h' t,
  copying h0 h result memo dct ->
  copy_items result items memo h = (h', t, Ok tt) ->
  exists memo' dct',
    copying h0 h' result memo' dct' /\ grows result h h' /\
    (forall key item, (key, item) ∈ items ->
       exists v, dct' !! key = Some v /\ copy_of h0 h' result key item v) /\
    (forall key, key ∉ items.*1 -> dct' !! key = dct !! key).
Proof.
  induction items as [|[key item] rest IH]; intros ND memo h dct h' t I.
  - simpl. intros [= <- <-]. exists memo, dct.
    split; [done|]. split; [apply grows_refl|]. split; [|done].
    intros key item Hin. by apply not_elem_of_nil in Hin.
  - simpl in ND. apply NoDup_cons in ND as [Hk ND]. simpl.
    destruct (in_shallow key) eqn:Esh.
    + destruct (copying_setattr _ _ _ _ _ key item I) as (E1 & I1 & G1).
      rewrite (bind_nil _ _ _ _ _ E1). intros E2.
      destruct (IH ND _ _ _ _ _ I1 E2) as (memo' & dct' & I' & G' & Hc & Hd).
      exists memo', dct'. split; [done|].
      split; [by eapply grows_trans|]. split.
      * intros k i Hin. apply elem_of_cons in Hin as [[= -> ->]|Hin]; [|by apply Hc].
        exists item. rewrite (Hd _ Hk), lookup_insert_eq. split; [done|].
        unfold copy_of. by rewrite Esh.
      * intros k Hn. apply not_elem_of_cons in Hn as [Hn1 Hn2].
        rewrite (Hd _ Hn2). by rewrite lookup_insert_ne.
    + intros E. apply bind_inv in E as [(e & _ & [=]) | E].
      destruct E as (h1 & t1 & [y memo1] & t2 & E1 & E & ->).
      destruct (copying_deepcopy _ _ _ _ _ _ _ _ _ _ I E1)
        as (I1 & G1 & Y1 & Y2 & Y3).
      destruct (copying_setattr _ _ _ _ _ key y I1) as (E2 & I2 & G2).
      rewrite (bind_nil _ _ _ _ _ E2) in E.
      destruct (IH ND _ _ _ _ _ I2 E) as (memo' & dct' & I' & G' & Hc & Hd).
      exists memo', dct'. split; [done|].
      split; [eauto using grows_trans|]. split.
      * intros k i Hin. apply elem_of_cons in Hin as [[= -> ->]|Hin]; [|by apply Hc].
        exists y. rewrite (Hd _ Hk), lookup_insert_eq. split; [done|].
        unfold copy_of. rewrite Esh. repeat split; [done..|].
        intros o Ho. apply G', G2; [done..|]. by apply Y3.
      * intros k Hn. apply not_elem_of_cons in Hn as [Hn1 Hn2].
        rewrite (Hd _ Hn2). by rewrite lookup_insert_ne.
Qed.

(** The copy of a plot: a new instance with the keys of the original; the
    store the copy started from is kept as it was. *)
Lemma ggplot_deepcopy_spec self (h h' : heap) t plot :
  ggplot_deepcopy self [] h = (h', t, Ok plot) ->
  exists d d',
    h !! self = Some (OInstance d) /\
    h !! plot = None /\
    h' !! plot = Some (OInstance d') /\
    h ⊆ h' /\
    (forall key item, d !! key = Some item ->
       exists v, d' !! key = Some v /\ copy_of h h' plot key item v) /\
    (forall key, d !! key = None -> d' !! key = None).
Proof.
  unfold ggplot_deepcopy. intros E.
  apply bind_inv in E as [(e & _ & [=]) | (h1 & t1 & d & t2 & E1 & E & ->)].
  pose proof (reads_inv _ _ _ _ _ (reads_load_dict self) E1) as [-> ->].
  assert (Hs : h !! self = Some (OInstance d)).
  { unfold load_dict in E1. destruct (h !! self) as [o|] eqn:Es.
    - rewrite (bind_nil _ _ _ _ _ (load_run _ _ _ Es)) in E1.
      destruct o; try discriminate. by injection E1 as ->.
    - by rewrite (bind_raise _ _ h h [] SystemError) in E1
        by (unfold load; by rewrite Es). }
  rewrite (bind_nil _ _ _ _ _ (alloc_run _ _)) in E.
  pose proof (fresh_lookup h) as Hf. set (result := fresh (dom h)) in *.
  apply bind_inv in E as [(e & _ & [=]) | (h2 & t3 & [] & t4 & E2 & E & ->)].
  injection E as <- <- <-.
  assert (I : copying h (<[result := OInstance ∅]> h) result [] ∅).
  { split; [by apply insert_subseteq|]. split; [done|].
    split; [by rewrite lookup_insert_eq|]. by intros x y. }
  destruct (copy_items_spec h result (map_to_list d)
              (NoDup_fst_map_to_list d) _ _ _ _ _ I E2)
    as (memo' & d' & (I1 & I2 & I3 & I4) & G & Hc & Hd).
  exists d, d'. repeat split; try done.
  - intros key item Hk. apply Hc. by apply elem_of_map_to_list.
  - intros key Hk. rewrite Hd; [done|].
    intros Hin. apply list_elem_of_fmap in Hin as ([k i] & -> & Hin).
    apply elem_of_map_to_list in Hin. simpl in *. congruence.
Qed.

(** ** Reading a plot *)

Lemma bind_reads_inv {S A B} (m : St S A) (f : A -> St S B) s s' t b :
  reads m -> (m ≫= f) s = (s', t, Ok b) ->
  exists a, m s = (s, [], Ok a) /\ f a s = (s', t, Ok b).
Proof.
  intros Hm E. apply bind_inv in E as [(e & _ & [=]) | E].
  destruct E as (s1 & t1 & a & t2 & E1 & E2 & ->).
  pose proof (reads_inv _ _ _ _ _ Hm E1) as [-> ->]. by exists a.
Qed.

Lemma load_inv l (h h' : heap) t o :
  load l h = (h', t, Ok o) -> h !! l = Some o.
Proof. unfold load. destruct (h !! l); by intros [= <- <- <-]. Qed.

Lemma getattr_inv x key (h h' : heap) t l :
  getattr x key h = (h', t, Ok l) ->
  exists d, h !! x = Some (OInstance d) /\ d !! key = Some l.
Proof.
  unfold getattr, load_dict. rewrite bind_assoc. intros E.
  apply bind_reads_inv in E as (o & E1 & E); [|apply reads_load].
  apply load_inv in E1. destruct o; rewrite ?ret_bind in E;
    try by rewrite (bind_raise _ _ h h [] (AttributeError "__dict__")) in E.
  exists dict. split; [done|]. destruct (dict !! key); [|done].
  by injection E as _ _ ->.
Qed.

Ltac load_typed_inv :=
  let E := fresh "E" in let E1 := fresh "E" in let o := fresh "o" in
  intros E; apply bind_reads_inv in E as (o & E1 & E); [|apply reads_load];
  apply load_inv in E1; destruct o; try discriminate;
  by injection E as _ _ <-.

Lemma load_DataFrame_inv l (h h' : heap) t v :
  load_DataFrame l h = (h', t, Ok v) -> h !! l = Some (ODataFrame v).
Proof. load_typed_inv. Qed.
Lemma load_Aes_inv l (h h' : heap) t v e :
  load_Aes l h = (h', t, Ok (v, e)) -> h !! l = Some (OAes v e).
Proof.
  intros E. apply bind_reads_inv in E as (o & E1 & E); [|apply reads_load].
  apply load_inv in E1. destruct o; try discriminate.
  by injection E as _ _ <- <-.
Qed.
Lemma load_Facet_inv l (h h' : heap) t v :
  load_Facet l h = (h', t, Ok v) -> h !! l = Some (OFacet v).
Proof. load_typed_inv. Qed.
Lemma load_Labels_inv l (h h' : heap) t v :
  load_Labels l h = (h', t, Ok v) -> h !! l = Some (OLabels v).
Proof. load_typed_inv. Qed.
Lemma load_Layers_inv l (h h' : heap) t v :
  load_Layers l h = (h', t, Ok v) -> h !! l = Some (OLayers v).
Proof. load_typed_inv. Qed.
Lemma load_Guides_inv l (h h' : heap) t v :
  load_Guides l h = (h', t, Ok v) -> h !! l = Some (OGuides v).
Proof. load_typed_inv. Qed.
Lemma load_Scales_inv l (h h' : heap) t v :
  load_Scales l h = (h', t, Ok v) -> h !! l = Some (OScales v).
Proof. load_typed_inv. Qed.
Lemma load_Theme_inv l (h h' : heap) t v :
  load_Theme l h = (h', t, Ok v) -> h !! l = Some (OTheme v).
Proof. load_typed_inv. Qed.
Lemma load_Env_inv l (h h' : heap) t v :
  load_Env l h = (h', t, Ok v) -> h !! l = Some (OEnv v).
Proof. load_typed_inv. Qed.

(** The references of a plot, as its [__dict__] binds them. *)
Definition refs_in (d : gmap string loc) (r : PlotRefs) : Prop :=
  d !! "data" = Some (r_data r) /\ d !! "mapping" = Some (r_mapping r) /\
  d !! "facet" = Some (r_facet r) /\ d !! "labels" = Some (r_labels r) /\
  d !! "layers" = Some (r_layers r) /\ d !! "guides" = Some (r_guides r) /\
  d !! "scales" = Some (r_scales r) /\ d !! "theme" = Some (r_theme r) /\
  d !! "plot_env" = Some (r_plot_env r).

(** The contents of a plot, as the store holds them. *)
Definition holds (h : heap) (r : PlotRefs) (c : PlotC) (env : loc) : Prop :=
  h !! r_data r = Some (ODataFrame (p_data c)) /\
  h !! r_mapping r = Some (OAes (p_mapping c) env) /\
  h !! r_facet r = Some (OFacet (p_facet c)) /\
  h !! r_labels r = Some (OLabels (p_labels c)) /\
  h !! r_layers r = Some (OLayers (p_layers c)) /\
  h !! r_guides r = Some (OGuides (p_guides c)) /\
  h !! r_scales r = Some (OScales (p_scales c)) /\
  h !! r_theme r = Some (OTheme (p_theme c)) /\
  h !! r_plot_env r = Some (OEnv (p_plot_env c)).

Lemma plot_refs_inv plot (h h' : heap) t r :
  plot_refs plot h = (h', t, Ok r) ->
  exists d, h !! plot = Some (OInstance d) /\ refs_in d r.
Proof.
  unfold plot_refs. intros E.
  apply bind_reads_inv in E as (a1 & E1 & E); [|apply reads_getattr].
  apply bind_reads_inv in E as (a2 & E2 & E); [|apply reads_getattr].
  apply bind_reads_inv in E as (a3 & E3 & E); [|apply reads_getattr].
  apply bind_reads_inv in E as (a4 & E4 & E); [|apply reads_getattr].
  apply bind_reads_inv in E as (a5 & E5 & E); [|apply reads_getattr].
  apply bind_reads_inv in E as (a6 & E6 & E); [|apply reads_getattr].
  apply bind_reads_inv in E as (a7 & E7 & E); [|apply reads_getattr].
  apply bind_reads_inv in E as (a8 & E8 & E); [|apply reads_getattr].
  apply bind_reads_inv in E as (a9 & E9 & E); [|apply reads_getattr].
  injection E as _ _ <-.
  apply getattr_inv in E1 as (d & Hd & K1). exists d. split; [done|].
  repeat match goal with
  | H : getattr _ _ _ = _ |- _ =>
      apply getattr_inv in H as (? & ? & ?); simplify_eq
  end.
  by repeat split.
Qed.


Lemma read_plot_inv r (h h' : heap) t c env :
  read_plot r h = (h', t, Ok (c, env)) -> holds h r c env.
Proof.
  unfold read_plot. intros E.
  apply bind_reads_inv in E as (a1 & E1 & E); [|apply reads_load_DataFrame].
  apply bind_reads_inv in E as ([a2 e2] & E2 & E); [|apply reads_load_Aes].
  apply bind_reads_inv in E as (a3 & E3 & E); [|apply reads_load_Facet].
  apply bind_reads_inv in E as (a4 & E4 & E); [|apply reads_load_Labels].
  apply bind_reads_inv in E as (a5 & E5 & E); [|apply reads_load_Layers].
  apply bind_reads_inv in E as (a6 & E6 & E); [|apply reads_load_Guides].
  apply bind_reads_inv in E as (a7 & E7 & E); [|apply reads_load_Scales].
  apply bind_reads_inv in E as (a8 & E8 & E); [|apply reads_load_Theme].
  apply bind_reads_inv in E as (a9 & E9 & E); [|apply reads_load_Env].
  injection E as _ _ <- <-. unfold holds. simpl.
  apply load_DataFrame_inv in E1. apply load_Aes_inv in E2.
  apply load_Facet_inv in E3. apply load_Labels_inv in E4.
  apply load_Layers_inv in E5. apply load_Guides_inv in E6.
  apply load_Scales_inv in E7. apply load_Theme_inv in E8.
  apply load_Env_inv in E9. by repeat split.
Qed.


(** ** Running on a plot *)


Lemma with_plot_ok_inv {A} plot (m : St PlotC A) (h h' : heap) t a :
  with_plot plot m h = (h', t, Ok a) ->
  exists d r c env c',
    h !! plot = Some (OInstance d) /\ refs_in d r /\ holds h r c env /\
    m c = (c', t, Ok a) /\ h' = write_plot r env c' h.
Proof.
  intros E. apply with_plot_inv in E as [(_ & _ & e & [=]) | E].
  destruct E as (r & c & env & c' & E1 & E2 & E3 & ->).
  apply plot_refs_inv in E1 as (d & Hd & Hr). apply read_plot_inv in E2.
  by exists d, r, c, env, c'.
Qed.

Definition refs_list (r : PlotRefs) : list loc :=
  [r_data r; r_mapping r; r_facet r; r_labels r; r_layers r; r_guides r;
   r_scales r; r_theme r; r_plot_env r].

Lemma write_plot_other r env c (h : heap) l :
  l ∉ refs_list r -> write_plot r env c h !! l = h !! l.
Proof.
  unfold refs_list. rewrite !not_elem_of_cons.
  intros (?&?&?&?&?&?&?&?&?&_). unfold write_plot.
  by rewrite !lookup_insert_ne.
Qed.

Lemma holds_write r env c c' (h : heap) :
  holds h r c env -> holds (write_plot r env c' h) r c' env.
Proof.
  intros (K1 & K2 & K3 & K4 & K5 & K6 & K7 & K8 & K9).
  unfold holds, write_plot.
  repeat split;
    repeat (first [ apply lookup_insert_eq
                  | rewrite lookup_insert_ne by congruence ]).
Qed.

Lemma write_plot_keeps r env c (h : heap) l :
  is_Some (h !! l) -> is_Some (write_plot r env c h !! l).
Proof.
  intros H. unfold write_plot.
  repeat (rewrite lookup_insert; case_decide; [by eexists|]). done.
Qed.

(** Objects that the plot does not refer to are left as they are. *)
Lemma with_plot_other {A} plot (m : St PlotC A) (h h' : heap) t res d l :
  with_plot plot m h = (h', t, res) ->
  h !! plot = Some (OInstance d) ->
  (forall key, d !! key ≠ Some l) ->
  h' !! l = h !! l.
Proof.
  intros E Hd Hl. apply with_plot_inv in E as [(-> & _) | E]; [done|].
  destruct E as (r & c & env & c' & E1 & E2 & E3 & ->).
  apply plot_refs_inv in E1 as (d' & Hd' & Hr). simplify_eq.
  apply write_plot_other. unfold refs_list.
  destruct Hr as (K1 & K2 & K3 & K4 & K5 & K6 & K7 & K8 & K9).
  rewrite !not_elem_of_cons. repeat split; try (intros ->; by eapply Hl).
  apply not_elem_of_nil.
Qed.

(** ** What a build leaves untouched *)

Lemma copying_deepcopy_any h0 h result memo dct item h' t r :
  copying h0 h result memo dct ->
  deepcopy item memo h = (h', t, r) ->
  h0 ⊆ h'.
Proof.
  intros I E. destruct r as [[y memo']|e].
  - by destruct (copying_deepcopy _ _ _ _ _ _ _ _ _ _ I E) as ((? & _) & _).
  - destruct I as (H1 & _). unfold deepcopy in E.
    destruct (memo_get item memo); [discriminate|].
    destruct (h !! item) as [o|] eqn:Ei.
    + rewrite (bind_nil _ _ _ _ _ (load_run _ _ _ Ei)) in E.
      by rewrite (bind_nil _ _ _ _ _ (alloc_run _ _)) in E.
    + rewrite (bind_raise _ _ h h [] SystemError) in E
        by (unfold load; by rewrite Ei).
      by injection E as <- _ _.
Qed.

Lemma copy_items_keeps h0 result items :
  forall memo h dct h' t r,
  copying h0 h result memo dct ->
  copy_items result items memo h = (h', t, r) ->
  h0 ⊆ h'.
Proof.
  induction items as [|[key item] rest IH]; intros memo h dct h' t r I; simpl.
  - intros [= <- _ _]. by destruct I.
  - destruct (in_shallow key).
    + destruct (copying_setattr _ _ _ _ _ key item I) as (E1 & I1 & _).
      rewrite (bind_nil _ _ _ _ _ E1). by apply IH with (dct := <[key:=item]> dct).
    + intros E. apply bind_inv in E as [(e & E & _) | E].
      { by eapply copying_deepcopy_any. }
      destruct E as (h1 & t1 & [y memo1] & t2 & E1 & E & ->).
      destruct (copying_deepcopy _ _ _ _ _ _ _ _ _ _ I E1) as (I1 & _).
      destruct (copying_setattr _ _ _ _ _ key y I1) as (E2 & I2 & _).
      rewrite (bind_nil _ _ _ _ _ E2) in E.
      by apply IH with (memo := memo1) (h := <[result:=OInstance (<[key:=y]> dct)]> h1)
                       (dct := <[key:=y]> dct) (t := t2) (r := r).
Qed.

Lemma ggplot_deepcopy_keeps self (h h' : heap) t r :
  ggplot_deepcopy self [] h = (h', t, r) -> h ⊆ h'.
Proof.
  unfold ggplot_deepcopy. intros E.
  apply bind_inv in E as [(e & E & _) | (h1 & t1 & d & t2 & E1 & E & ->)].
  { by apply reads_inv in E as [-> _]; [|apply reads_load_dict]. }
  pose proof (reads_inv _ _ _ _ _ (reads_load_dict self) E1) as [-> ->].
  rewrite (bind_nil _ _ _ _ _ (alloc_run _ _)) in E.
  pose proof (fresh_lookup h) as Hf. set (result := fresh (dom h)) in *.
  assert (I : copying h (<[result := OInstance ∅]> h) result [] ∅).
  { split; [by apply insert_subseteq|]. split; [done|].
    split; [by rewrite lookup_insert_eq|]. by intros x y. }
  apply bind_inv in E as [(e & E & _) | (h2 & t3 & [] & t4 & E2 & E & ->)].
  - by eapply copy_items_keeps.
  - injection E as <- _ _. by eapply copy_items_keeps.
Qed.

Lemma deepcopy_plot_inv self (h h' : heap) t r :
  deepcopy_plot self h = (h', t, r) ->
  exists t', t = Deepcopy :: t' /\ ggplot_deepcopy self [] h = (h', t', r).
Proof.
  unfold deepcopy_plot. rewrite emit_bind.
  destruct (ggplot_deepcopy self [] h) as [[h1 t1] r1].
  intros [= <- <- <-]. by exists t1.
Qed.

Lemma in_shallow_spec key :
  in_shallow key = true <-> key = "data"%string \/ key = "plot_env"%string.
Proof.
  unfold in_shallow, shallow. simpl. rewrite !orb_true_iff, !String.eqb_eq.
  split; [intros [?|[?|?]]; [by left|by right|done]
         |intros [?|?]; [by left|right; by left]].
Qed.

(** The attributes that a build works on through its own copy. *)
Definition copied_attributes : list string :=
  ["layers"; "scales"; "facet"; "theme"; "guides"; "labels"; "mapping"]%string.

(** [plot_build] splits into the check, the copy and the pipeline. *)
Lemma plot_build_inv self (h h2 : heap) t res :
  plot_build C self h = (h2, t, res) ->
  (h2 = h /\ t = [] /\ exists e, res = Raise e) \/
  (exists l ls h1 t1 r1,
      get_layers self h = (h, [], Ok (l :: ls)) /\
      deepcopy_plot self h = (h1, t1, r1) /\
      match r1 with
      | Raise e => h2 = h1 /\ t = t1 /\ res = Raise e
      | Ok plot =>
          exists t2 r2,
            with_plot plot (with_panel (new_Panel C) (build_pipeline C)) h1 =
              (h2, t2, r2) /\
            t = t1 ++ t2 /\
            res = match r2 with
                  | Ok (data, panel) => Ok (data, panel, plot)
                  | Raise e => Raise e
                  end
      end).
Proof.
  unfold plot_build. intros E.
  apply bind_inv in E as [(e & E & ->) | (h0 & t0 & layers & t1 & E1 & E & ->)].
  { apply reads_inv in E as [-> ->]; [|apply reads_get_layers]. left. eauto. }
  pose proof (reads_inv _ _ _ _ _ (reads_get_layers self) E1) as [-> ->].
  destruct layers as [|l ls].
  { injection E as <- <- <-. left. eauto. }
  right. exists l, ls.
  apply bind_inv in E as [(e & E & ->) | (h1 & t2 & plot & t3 & E2 & E & ->)].
  { exists h2, t1, (Raise e). by repeat split. }
  exists h1, t2, (Ok plot). split; [done|]. split; [done|].
  apply bind_inv in E as [(e & E & ->) | (h3 & t4 & [data panel] & t5 & E3 & E & ->)].
  { exists t3, (Raise e). by repeat split. }
  injection E as <- <- <-. exists t4, (Ok (data, panel)).
  by rewrite app_nil_r.
Qed.

Lemma copied_not_shallow key : key ∈ copied_attributes -> in_shallow key = false.
Proof.
  unfold copied_attributes. rewrite !elem_of_cons.
  intros [->|[->|[->|[->|[->|[->|[->|H]]]]]]]; try done.
  by apply not_elem_of_nil in H.
Qed.

(** An object whose copy is read as one of the seven copied attributes is
    neither the data frame nor the environment of that plot. *)
Lemma copied_not_shared (h h1 : heap) l o v r c env :
  h !! l = Some o -> h ⊆ h1 -> h1 !! v = Some o ->
  v ∈ [r_layers r; r_scales r; r_facet r; r_theme r; r_guides r;
       r_labels r; r_mapping r] ->
  holds h1 r c env ->
  l ≠ r_data r /\ l ≠ r_plot_env r.
Proof.
  intros Hl Hs Hv Hr (K1 & K2 & K3 & K4 & K5 & K6 & K7 & K8 & K9).
  pose proof (lookup_weaken _ _ _ _ Hl Hs) as Hl1.
  rewrite !elem_of_cons in Hr.
  destruct Hr as [->|[->|[->|[->|[->|[->|[->|Hr]]]]]]];
    [..|by apply not_elem_of_nil in Hr]; split; intros ->; congruence.
Qed.

Lemma deepcopy_plot_spec self (h h1 : heap) d t1 plot :
  h !! self = Some (OInstance d) ->
  deepcopy_plot self h = (h1, t1, Ok plot) ->
  t1 = [Deepcopy] /\ h !! plot = None /\ h ⊆ h1 /\
  exists d', h1 !! plot = Some (OInstance d') /\
    (forall key, d !! key = None -> d' !! key = None) /\
    (forall key item, d !! key = Some item ->
       exists v, d' !! key = Some v /\ copy_of h h1 plot key item v).
Proof.
  intros Hself E. apply deepcopy_plot_inv in E as (t' & -> & E).
  pose proof (Quiet_ggplot_deepcopy self [] h) as Q. rewrite E in Q.
  unfold trace_of in Q. simpl in Q. subst t'.
  apply ggplot_deepcopy_spec in E
    as (d0 & d' & Hs & Hp & Hp' & Hsub & Hc & Hn).
  simplify_eq. split; [done|]. split; [done|]. split; [done|]. by exists d'.
Qed.

(** The plot that [plot_build] returns is the copy. *)
Lemma plot_build_copy self (h h2 : heap) d t data panel plot :
  h !! self = Some (OInstance d) ->
  plot_build C self h = (h2, t, Ok (data, panel, plot)) ->
  exists h1, deepcopy_plot self h = (h1, [Deepcopy], Ok plot).
Proof.
  intros Hself E. apply plot_build_inv in E as [(_ & _ & e & [=]) | E].
  destruct E as (l0 & ls & h1 & t1 & r1 & EL & ED & E).
  destruct r1 as [plot'|e]; [|by destruct E as (_ & _ & [=])].
  destruct E as (t2 & r2 & EW & -> & Hres).
  destruct r2 as [[??]|]; [|done]. injection Hres as <- <- <-.
  destruct (deepcopy_plot_spec _ _ _ _ _ _ Hself ED) as (-> & _).
  by exists h1.
Qed.

(** C3. [deepcopy(self)] makes a new instance with the keys of [self]: a
    key of [shallow], that is [data] or [plot_env], is bound to the very
    object of the original; every other key is bound to a reference new to
    the store, which holds what the original's object held.  [plot_build]
    works on that copy.  Whatever the build does and however it ends, the
    [__dict__] of [self] and the objects bound to its [layers], [scales],
    [facet], [theme], [guides], [labels] and [mapping] are afterwards what
    they were, and so is every object of the store but those bound to
    [data] and [plot_env]. *)
Theorem plot_build_works_on_copy (self : loc) (h : heap) (d : gmap string loc) :
  h !! self = Some (OInstance d) ->
  (forall key, in_shallow key = true <->
               key = "data"%string \/ key = "plot_env"%string) /\
  (forall h1 t1 plot, deepcopy_plot self h = (h1, t1, Ok plot) ->
     h !! plot = None /\ h ⊆ h1 /\
     exists d', h1 !! plot = Some (OInstance d') /\
       (forall key, d !! key = None -> d' !! key = None) /\
       (forall key item, d !! key = Some item ->
          exists v, d' !! key = Some v /\ copy_of h h1 plot key item v)) /\
  (forall h2 t res, plot_build C self h = (h2, t, res) ->
     (forall data panel plot, res = Ok (data, panel, plot) ->
        exists h1, deepcopy_plot self h = (h1, [Deepcopy], Ok plot)) /\
     h2 !! self = Some (OInstance d) /\
     (forall key l o, key ∈ copied_attributes ->
        d !! key = Some l -> h !! l = Some o -> h2 !! l = Some o) /\
     (forall l o, h !! l = Some o ->
        d !! "data" ≠ Some l -> d !! "plot_env" ≠ Some l ->
        h2 !! l = Some o)).
Proof.
  intros Hself. split; [apply in_shallow_spec|].
  pose proof (fun h1 t1 plot => deepcopy_plot_spec self h h1 d t1 plot Hself) as Hcopy.
  split.
  { intros h1 t1 plot E. by destruct (Hcopy _ _ _ E) as (_ & ? & ? & ?). }
  intros h2 t res E.
  apply plot_build_inv in E as [(-> & -> & e & ->) | E].
  { split; [done|]. split; [done|]. split; [by intros|by intros]. }
  destruct E as (l0 & ls & h1 & t1 & r1 & EL & ED & E).
  destruct r1 as [plot|e].
  2:{ destruct E as (-> & -> & ->).
      apply deepcopy_plot_inv in ED as (t' & -> & ED).
      apply ggplot_deepcopy_keeps in ED.
      split; [done|]. split; [by eapply lookup_weaken|].
      split; intros; by eapply lookup_weaken. }
  destruct E as (t2 & r2 & EW & -> & ->).
  destruct (Hcopy _ _ _ ED) as (-> & Hp & Hsub & d' & Hp' & Hn & Hc).
  split.
  { intros data panel plot' Hres. destruct r2 as [[??]|]; [|done].
    injection Hres as <- <- <-. by exists h1. }
  apply with_plot_inv in EW as [(-> & _) | EW].
  { split; [by eapply lookup_weaken|]. split; intros; by eapply lookup_weaken. }
  destruct EW as (r & c & env & c' & E1 & E2 & E3 & ->).
  apply plot_refs_inv in E1 as (d'' & Hd'' & Hr).
  rewrite Hp' in Hd''. injection Hd'' as <-.
  apply read_plot_inv in E2.
  (* where the references of the copy come from *)
  assert (Hfrom : forall key v, d' !! key = Some v ->
            exists item, d !! key = Some item /\ copy_of h h1 plot key item v).
  { intros key v Hv. destruct (d !! key) as [item|] eqn:Ek.
    - destruct (Hc _ _ Ek) as (v' & Hv' & Hcp). simplify_eq. by exists item.
    - rewrite (Hn _ Ek) in Hv. discriminate. }
  assert (Hnew : forall key v, d' !! key = Some v -> in_shallow key = false ->
            h !! v = None).
  { intros key v Hv Hsh. destruct (Hfrom _ _ Hv) as (item & _ & Hcp).
    unfold copy_of in Hcp. rewrite Hsh in Hcp. by destruct Hcp. }
  destruct Hr as (R1 & R2 & R3 & R4 & R5 & R6 & R7 & R8 & R9).
  pose proof (Hnew _ _ R2 eq_refl) as N2. pose proof (Hnew _ _ R3 eq_refl) as N3.
  pose proof (Hnew _ _ R4 eq_refl) as N4. pose proof (Hnew _ _ R5 eq_refl) as N5.
  pose proof (Hnew _ _ R6 eq_refl) as N6. pose proof (Hnew _ _ R7 eq_refl) as N7.
  pose proof (Hnew _ _ R8 eq_refl) as N8.
  destruct (Hfrom _ _ R1) as (i1 & D1 & C1). destruct (Hfrom _ _ R9) as (i9 & D9 & C9).
  unfold copy_of in C1, C9. simpl in C1, C9. subst i1 i9.
  (* an object of the first store that is neither shared object is kept *)
  assert (Hkeep : forall l o, h !! l = Some o ->
            l ≠ r_data r -> l ≠ r_plot_env r ->
            write_plot r env c' h1 !! l = Some o).
  { intros l o Hl Hn1 Hn9. rewrite write_plot_other; [by eapply lookup_weaken|].
    unfold refs_list. rewrite !not_elem_of_cons.
    repeat split; try done; try (intros ->; congruence).
    apply not_elem_of_nil. }
  split.
  { apply Hkeep; [done|..]; intros ->; destruct E2 as (K1 & _ & _ & _ & _ & _ & _ & _ & K9);
      pose proof (lookup_weaken _ _ _ _ Hself Hsub); congruence. }
  split.
  - intros key l o Hk Hd Hl.
    destruct (Hc _ _ Hd) as (v & Hv & Hcp). unfold copy_of in Hcp.
    rewrite (copied_not_shallow _ Hk) in Hcp. destruct Hcp as (_ & _ & Hcp).
    specialize (Hcp _ Hl).
    assert (l ≠ r_data r /\ l ≠ r_plot_env r) as [??]; [|by apply Hkeep].
    eapply (copied_not_shared h h1 l o v r c env); try done.
    unfold copied_attributes in Hk. rewrite !elem_of_cons in Hk.
    destruct Hk as [->|[->|[->|[->|[->|[->|[->|Hk]]]]]]];
      [..|by apply not_elem_of_nil in Hk]; simplify_eq;
      rewrite !elem_of_cons; tauto.
  - intros l o Hl Hn1 Hn9. apply Hkeep; [done|..]; congruence.
Qed.

(** ** What a build returns *)


(** A call that returns and leaves the plot with as many layers. *)
Definition pcall_ok {A} (c : PCall A) : Prop :=
  forall p, exists p' a,
    c p = (p', Ok a) /\ length (p_layers p') = length (p_layers p).

Definition wcall_ok {A} (c : WCall A) : Prop :=
  forall w, exists w' a,
    c w = (w', Ok a) /\
    length (p_layers (w_plot w')) = length (p_layers (w_plot w)).

(** Collaborators none of which raises or changes the number of layers. *)
Record cooperative : Prop := {
  co_train_layout : forall ad, pcall_ok (train_layout C ad);
  co_map_layout : forall lay ld pd, pcall_ok (map_layout C lay ld pd);
  co_compute_aesthetics : forall l d, pcall_ok (compute_aesthetics C l d);
  co_add_group : forall d, exists d', add_group C d = Ok d';
  co_transform_df : forall d, pcall_ok (transform_df C d);
  co_get_scales : forall a, pcall_ok (get_scales C a);
  co_train_position : forall data sx sy, wcall_ok (train_position C data sx sy);
  co_map_position : forall data sx sy, wcall_ok (map_position C data sx sy);
  co_calculate_stats : forall data ls, wcall_ok (calculate_stats C data ls);
  co_map_statistic : forall l d, pcall_ok (map_statistic C l d);
  co_scales_add_missing : forall names, pcall_ok (scales_add_missing C names);
  co_reparameterise : forall l d, pcall_ok (reparameterise C l d);
  co_adjust_position : forall l d, pcall_ok (adjust_position C l d);
  co_reset_scales : wcall_ok (reset_scales C);
  co_non_position_scales : pcall_ok (non_position_scales C);
  co_train_df : forall s d, pcall_ok (train_df C s d);
  co_map_df : forall s d, pcall_ok (map_df C s d);
  co_train_ranges : wcall_ok (train_ranges C)
}.

(** *** When the build returns *)













(** *** That the build returns *)

(** On a plot of [n] layers, [m] returns a value that satisfies [Q] and
    leaves a plot of [n] layers. *)
Definition Total (n : nat) {A} (Q : A -> Prop) (m : St World A) : Prop :=
  forall w, length (p_layers (w_plot w)) = n ->
  exists w' t a, m w = (w', t, Ok a) /\
                 length (p_layers (w_plot w')) = n /\ Q a.

Lemma Total_bind n {A B} (P : A -> Prop) (Q : B -> Prop)
    (m : St World A) (f : A -> St World B) :
  Total n P m -> (forall a, P a -> Total n Q (f a)) -> Total n Q (m ≫= f).
Proof.
  intros Hm Hf w Hw. destruct (Hm w Hw) as (w1 & t1 & a & E1 & Hw1 & Ha).
  destruct (Hf a Ha w1 Hw1) as (w2 & t2 & b & E2 & Hw2 & Hb).
  exists w2, (t1 ++ t2), b. by rewrite (bind_ok _ _ _ _ _ _ E1), E2.
Qed.

Lemma Total_ret n {A} (Q : A -> Prop) (a : A) : Q a -> Total n Q (mret a).
Proof. intros H w Hw. by exists w, [], a. Qed.



Lemma Total_on_plot n {A} (Q : A -> Prop) stg (c : PCall A) :
  pcall_ok c -> (forall p p' a, c p = (p', Ok a) -> Q a) ->
  Total n Q (on_plot (call stg c)).
Proof.
  intros Hc HQ w Hw. destruct (Hc (w_plot w)) as (p' & a & E & Hl).
  exists (mkWorld p' (w_panel w)), [Call stg], a.
  unfold on_plot, zoom, call. rewrite E. simpl.
  repeat split; [congruence|by eapply HQ].
Qed.


Lemma gets_bind {S A B} (g : S -> A) (f : A -> St S B) s :
  (gets g ≫= f) s = f (g s) s.
Proof. unfold gets, mbind, St_bind, st_bind. by destruct (f (g s) s) as [[??]?]. Qed.

Lemma py_index_nat {A} (l : list A) (i : nat) :
  (i < length l)%nat -> exists x, py_index l (Z.of_nat i) = Ok x.
Proof.
  intros Hi. unfold py_index.
  destruct (Z.of_nat i <? 0) eqn:E1; [lia|].
  destruct (0 <=? Z.of_nat i) eqn:E2; [|lia].
  destruct (Z.of_nat i <? Z.of_nat (length l)) eqn:E3; [|lia]. simpl.
  rewrite Nat2Z.id. destruct (nth_error l i) as [x|] eqn:E; [by exists x|].
  apply nth_error_None in E. lia.
Qed.

Lemma Total_dlapply_from n f data i :
  (forall d l, Total n (fun _ => True) (f d l)) ->
  (i + length data <= n)%nat ->
  Total n (fun out => length out = length data) (dlapply_from i f data).
Proof.
  intros Hf. revert i. induction data as [|d rest IH]; intros i Hi; simpl in *.
  - by apply Total_ret.
  - intros w Hw. rewrite gets_bind.
    destruct (py_index_nat (p_layers (w_plot w)) i) as [l El]; [lia|].
    rewrite lift_bind, El.
    eapply (Total_bind n (fun _ => True) _ (f d l)); [apply Hf| |exact Hw].
    intros o _. apply (Total_bind n (fun out => length out = length rest)).
    { apply IH. lia. }
    intros out Hout. apply Total_ret. simpl. by rewrite Hout.
Qed.








(** *** The copy can be made and read *)













(** ** The draw loop *)

Definition is_layer_plot (ev : event) : bool :=
  match ev with LayerPlot _ _ _ _ _ _ => true | _ => false end.

(** The calls to the layers' plot routines among the events. *)
Definition layer_plots (t : list event) : list event := filter is_layer_plot t.

(** The cell of row [r] of [d] in column [key]. *)
Definition cell_of (d : DataFrame) (key : string) (r : list value) : value :=
  match index_of key (columns d) with
  | Some j => nth j r VNone
  | None => VNone
  end.

(** The rows of [d] whose [PANEL] is [pid], as a data frame. *)
Definition rows_of_panel (d : DataFrame) (pid : value) : DataFrame :=
  mkDataFrame (columns d)
    (filter (fun r => value_eqb (cell_of d "PANEL" r) pid = true) (rows d)).

Lemma select_map_filter {A} (f : A -> bool) (l : list A) :
  select l (map f l) = filter (fun x => f x = true) l.
Proof.
  induction l as [|x l IH]; [done|]. simpl. rewrite filter_cons, IH.
  destruct (f x) eqn:E.
  - by rewrite decide_True.
  - by rewrite decide_False by congruence.
Qed.

Lemma df_mask_panel d col pid :
  df_getcol d "PANEL" = Ok col ->
  df_mask d (series_eq col pid) = rows_of_panel d pid.
Proof.
  unfold df_getcol, rows_of_panel, df_mask, series_eq, cell_of.
  destruct (index_of "PANEL" (columns d)) as [j|]; [|done].
  intros [= <-]. f_equal. rewrite map_map. apply select_map_filter.
Qed.

(** A computation that leaves the state as it is and calls no plot
    routine. *)
Definition Deco {S A} (m : St S A) : Prop :=
  forall s, exists t r, m s = (s, t, r) /\ layer_plots t = [].

Lemma Deco_bind {S A B} (m : St S A) (f : A -> St S B) :
  Deco m -> (forall a, Deco (f a)) -> Deco (m ≫= f).
Proof.
  intros Hm Hf s. destruct (Hm s) as (t1 & [a|e] & E1 & L1).
  - destruct (Hf a s) as (t2 & r & E2 & L2). exists (t1 ++ t2), r.
    rewrite (bind_ok _ _ _ _ _ _ E1), E2. split; [done|].
    unfold layer_plots in *. by rewrite filter_app, L1, L2.
  - exists t1, (Raise e). by rewrite (bind_raise _ _ _ _ _ _ E1).
Qed.

Lemma Deco_reads {S A} (m : St S A) : reads m -> Deco m.
Proof. intros H s. destruct (H s) as [r E]. by exists [], r. Qed.

Lemma Deco_emit {S} (ev : event) :
  is_layer_plot ev = false -> Deco (emit ev : St S unit).
Proof.
  intros H s. exists [ev], (Ok tt). split; [done|].
  unfold layer_plots. rewrite filter_cons, decide_False; [done|].
  rewrite H. by intros [].
Qed.








Lemma Deco_after {S A B} (m : St S A) (f : A -> St S B) s s1 t1 a s' t r :
  m s = (s1, t1, Ok a) -> Deco (f a) ->
  (m ≫= f) s = (s', t, r) ->
  s' = s1 /\ layer_plots t = layer_plots t1 /\
  exists t2, f a s1 = (s1, t2, r).
Proof.
  intros E1 Hf E. rewrite (bind_ok _ _ _ _ _ _ E1) in E.
  destruct (Hf s1) as (t2 & r2 & E2 & L2). rewrite E2 in E.
  injection E as <- <- <-. split; [done|]. split; [|by exists t2].
  unfold layer_plots in *. by rewrite filter_app, L2, app_nil_r.
Qed.

(** The call to the plot routine of the [i]-th layer, counted from [z]. *)
Definition plot_call (pid : value) (sx sy : Scale) (ax z i : nat)
    (ld : Layer * DataFrame) : event :=
  LayerPlot ld.1 (rows_of_panel ld.2 pid) sx sy ax (z + i).


Lemma draw_layers_run lds z pnl sx sy ax (w w' : World) t pid :
  series_get pnl "PANEL" = Ok pid ->
  draw_layers lds z pnl sx sy ax w = (w', t, Ok tt) ->
  w' = w /\ t = imap (plot_call pid sx sy ax z) lds.
Proof.
  intros Hpid. revert z t. induction lds as [|[l d] lds IH]; intros z t; simpl.
  - by intros [= <- <-].
  - rewrite lift_bind. destruct (df_getcol d "PANEL") as [col|] eqn:Ec; [|done].
    rewrite lift_bind, Hpid, emit_bind.
    destruct (draw_layers lds (S z) pnl sx sy ax w) as [[w1 t1] r1] eqn:E.
    intros [= <- <- ->]. destruct (IH _ _ E) as [-> ->]. split; [done|].
    unfold plot_call at 2. simpl.
    rewrite (df_mask_panel _ _ _ Ec), Nat.add_0_r. f_equal.
    apply imap_ext. intros i x _. unfold plot_call. simpl. f_equal. lia.
Qed.

Lemma value_pred_inv v z : value_pred v = Ok z -> v = VInt (z + 1).
Proof. destruct v; simpl; intros [= <-]. f_equal. lia. Qed.











Lemma combine_zip {A B} (l : list A) (k : list B) : combine l k = zip l k.
Proof. revert k. induction l as [|x l IH]; intros [|y k]; simpl; by rewrite ?IH. Qed.

Lemma length_iterrows d : length (iterrows d) = length (rows d).
Proof. apply length_map. Qed.


(** ** Rendering twice *)

Lemma bind_ok_inv {S A B} (m : St S A) (f : A -> St S B) s s' t b :
  (m ≫= f) s = (s', t, Ok b) ->
  exists s1 t1 a t2,
    m s = (s1, t1, Ok a) /\ f a s1 = (s', t2, Ok b) /\ t = t1 ++ t2.
Proof. intros E. by apply bind_inv in E as [(e & _ & [=]) | E]. Qed.

(** The objects that the copy shares with [self]. *)
Definition is_shared (d : gmap string loc) (l : loc) : Prop :=
  exists key, in_shallow key = true /\ d !! key = Some l.

(** The store [hx] of a render in progress, against the store [h] it
    started from: the copy [plot] is new; every object of [h] is still
    there, and is as it was unless it is shared; the copy refers to new
    objects and to shared ones only. *)
Definition kept (h : heap) (d : gmap string loc) (plot : loc) (hx : heap) : Prop :=
  h !! plot = None /\
  (forall l, is_Some (h !! l) -> is_Some (hx !! l)) /\
  (forall l o, h !! l = Some o -> ~ is_shared d l -> hx !! l = Some o) /\
  exists dx, hx !! plot = Some (OInstance dx) /\
    forall key v, dx !! key = Some v -> h !! v = None \/ is_shared d v.

Lemma kept_alloc h d plot hx o :
  kept h d plot hx ->
  kept h d plot (<[fresh (dom hx) := o]> hx) /\ h !! fresh (dom hx) = None.
Proof.
  intros (K1 & K2 & K3 & dx & K4 & K5).
  pose proof (fresh_lookup hx) as Hf. set (a := fresh (dom hx)) in *.
  assert (Ha : h !! a = None).
  { destruct (h !! a) eqn:E; [|done].
    destruct (K2 a) as [? ?]; [by eexists|congruence]. }
  split; [|done]. split; [done|]. split.
  { intros l Hl. rewrite lookup_insert_ne; [by apply K2|].
    intros <-. destruct Hl. congruence. }
  split.
  { intros l o' Hl Hs. rewrite lookup_insert_ne; [by apply K3|]. congruence. }
  exists dx. split; [|done]. rewrite lookup_insert_ne; [done|]. congruence.
Qed.

Lemma kept_setattr h d plot hx key a :
  kept h d plot hx -> h !! a = None ->
  exists hx', setattr plot key a hx = (hx', [], Ok tt) /\ kept h d plot hx'.
Proof.
  intros (K1 & K2 & K3 & dx & K4 & K5) Ha.
  eexists. split; [by apply setattr_run|].
  split; [done|]. split.
  { intros l Hl. rewrite lookup_insert. case_decide; [by eexists|by apply K2]. }
  split.
  { intros l o Hl Hs. rewrite lookup_insert_ne; [by apply K3|]. congruence. }
  exists (<[key:=a]> dx). split; [by rewrite lookup_insert_eq|].
  intros k v. rewrite lookup_insert. case_decide.
  - intros [= <-]. by left.
  - apply K5.
Qed.

Lemma kept_with_plot {A} h d plot hx (m : St PlotC A) hx' t r :
  kept h d plot hx ->
  with_plot plot m hx = (hx', t, r) ->
  kept h d plot hx'.
Proof.
  intros K E. apply with_plot_inv in E as [(-> & _) | E]; [done|].
  destruct E as (refs & c & env & c' & E1 & E2 & E3 & ->).
  destruct K as (K1 & K2 & K3 & dx & K4 & K5).
  apply plot_refs_inv in E1 as (dx' & Hdx & Hr).
  rewrite K4 in Hdx. injection Hdx as <-.
  apply read_plot_inv in E2.
  assert (Hin : forall v, v ∈ refs_list refs -> h !! v = None \/ is_shared d v).
  { destruct Hr as (R1 & R2 & R3 & R4 & R5 & R6 & R7 & R8 & R9).
    intros v. unfold refs_list. rewrite !elem_of_cons.
    intros [->|[->|[->|[->|[->|[->|[->|[->|[->|Hv]]]]]]]]];
      [..|by apply not_elem_of_nil in Hv]; by eapply K5. }
  split; [done|]. split; [intros l Hl; by apply write_plot_keeps, K2|]. split.
  { intros l o Hl Hs. rewrite write_plot_other; [by apply K3|].
    intros Hv. destruct (Hin _ Hv); [congruence|done]. }
  exists dx. split; [|done].
  rewrite write_plot_other; [done|].
  destruct E2 as (H1 & H2 & H3 & H4 & H5 & H6 & H7 & H8 & H9).
  unfold refs_list. rewrite !not_elem_of_cons.
  repeat split; try (intros ->; congruence). apply not_elem_of_nil.
Qed.

(** After a build that returns, the store is [kept]. *)
Lemma plot_build_kept self (h ha : heap) d ta data panel plot :
  h !! self = Some (OInstance d) ->
  plot_build C self h = (ha, ta, Ok (data, panel, plot)) ->
  kept h d plot ha.
Proof.
  intros Hs E. destruct (plot_build_copy _ _ _ _ _ _ _ _ Hs E) as [h1 ED].
  destruct (deepcopy_plot_spec _ _ _ _ _ _ Hs ED)
    as (_ & Hp & Hsub & d' & Hp' & Hn & Hc).
  assert (K : kept h d plot h1).
  { split; [done|]. split.
    { intros l [o Hl]. exists o. by eapply lookup_weaken. }
    split; [intros l o Hl _; by eapply lookup_weaken|].
    exists d'. split; [done|]. intros key v Hv.
    destruct (d !! key) as [item|] eqn:Ek.
    - destruct (Hc _ _ Ek) as (v' & Hv' & Hcp). rewrite Hv in Hv'.
      injection Hv' as <-. unfold copy_of in Hcp.
      destruct (in_shallow key) eqn:Esh.
      + subst v. right. by exists key.
      + left. by destruct Hcp.
    - rewrite (Hn _ Ek) in Hv. discriminate. }
  apply plot_build_inv in E as [(_ & _ & e & [=]) | E].
  destruct E as (l0 & ls & h1' & t1 & r1 & _ & ED' & E).
  rewrite ED in ED'. injection ED' as <- <- <-.
  destruct E as (t2 & r2 & EW & _ & _). by eapply kept_with_plot.
Qed.




Lemma plt_subplots_still (nr nc : Z) (h h' : heap) t r :
  plt_subplots nr nc h = (h', t, r) -> h' = h.
Proof.
  unfold plt_subplots. rewrite emit_bind.
  destruct ((0 <? nr) && (0 <? nc)); by intros [= <- _ _].
Qed.

(** After a [draw] that returns, the store is [kept]; the build was the
    first thing done. *)
Lemma draw_kept self (h h2 : heap) d t plot :
  h !! self = Some (OInstance d) ->
  draw C self h = (h2, t, Ok plot) ->
  kept h d plot h2 /\
  exists ha ta data panel,
    plot_build C self h = (ha, ta, Ok (data, panel, plot)).
Proof.
  intros Hs E. unfold draw in E.
  apply bind_ok_inv in E as (ha & ta & [[data panel] plot'] & t' & EB & E & ->).
  apply bind_reads_inv in E as (fl & _ & E); [|apply reads_getattr].
  apply bind_reads_inv in E as (f & _ & E); [|apply reads_load_Facet].
  apply bind_ok_inv in E as (hb & tb & [fig axs] & t'' & ES & E & ->).
  apply plt_subplots_still in ES as ->.
  pose proof (plot_build_kept _ _ _ _ _ _ _ _ Hs EB) as K.
  rewrite (bind_nil _ _ _ _ _ (alloc_run _ _)) in E.
  destruct (kept_alloc _ _ _ _ (OAxs axs) K) as [K1 Ha].
  destruct (kept_setattr _ _ _ _ "axs" _ K1 Ha) as (h3 & E3 & K3).
  rewrite (bind_nil _ _ _ _ _ E3) in E.
  rewrite (bind_nil _ _ _ _ _ (alloc_run _ _)) in E.
  destruct (kept_alloc _ _ _ _ (OFig fig) K3) as [K4 Hg].
  destruct (kept_setattr _ _ _ _ "fig" _ K4 Hg) as (h5 & E5 & K5).
  rewrite (bind_nil _ _ _ _ _ E5) in E.
  apply bind_ok_inv in E as (h6 & t6 & x & t7 & EW & E & ->).
  injection E as <- _ <-.
  split; [by eapply kept_with_plot|]. by exists ha, ta, data, panel.
Qed.

Lemma draw_legend_kept self (h hx hx' : heap) d plot t r :
  kept h d plot hx ->
  draw_legend C self plot hx = (hx', t, r) ->
  kept h d plot hx'.
Proof.
  intros K E. unfold draw_legend in E.
  apply bind_inv in E as [(e & E & _) | (h1 & t1 & lb & t2 & E1 & E & _)].
  { by eapply kept_with_plot. }
  pose proof (kept_with_plot _ _ _ _ _ _ _ _ K E1) as K1.
  assert (D : exists m : St heap loc, Deco m /\ m h1 = (hx', t2, r)).
  { destruct lb as [box|].
    - eexists. split; [|exact E].
      repeat first
        [ apply Deco_reads;
          first [ apply reads_getattr | apply reads_load_Theme
                | apply reads_load_Fig | apply reads_load_Axs
                | apply reads_lift | apply reads_ret ]
        | apply Deco_emit; reflexivity
        | apply Deco_bind; [|intros]
        | match goal with |- Deco (let '(_, _) := ?x in _) => destruct x end ].
    - eexists. split; [|exact E]. apply Deco_reads, reads_ret. }
  destruct D as (m & D & E').
  destruct (D h1) as (t3 & r3 & E3 & _). rewrite E3 in E'.
  injection E' as Ea Eb Ec. by subst hx'.
Qed.

(** A [render] that returns has built the plot, and leaves a store that is
    [kept]. *)
Lemma render_kept self (h h1 : heap) d t1 fig :
  h !! self = Some (OInstance d) ->
  render C self h = (h1, t1, Ok fig) ->
  exists plot ha ta data panel,
    kept h d plot h1 /\
    plot_build C self h = (ha, ta, Ok (data, panel, plot)).
Proof.
  intros Hs E. unfold render in E. rewrite emit_bind in E.
  destruct ((getattr self "theme" ≫= _) h) as [[hx tx] rx] eqn:E'.
  injection E as -> _ ->.
  apply bind_reads_inv in E' as (tl & _ & E); [|apply reads_getattr].
  apply bind_reads_inv in E as (theme & _ & E); [|apply reads_load_Theme].
  apply bind_ok_inv in E as (h2 & t2 & x & t3 & EC & E & _).
  rewrite emit_bind in E. injection E as <- _.
  unfold with_context in EC. rewrite emit_bind in EC.
  destruct ((plot ← draw C self; draw_legend C self plot) h)
    as [[h3 t4] r4] eqn:EB.
  simpl in EC. injection EC as -> _ ->.
  apply bind_ok_inv in EB as (h4 & t5 & plot & t6 & ED & EL & _).
  destruct (draw_kept _ _ _ _ _ _ Hs ED) as (K & ha & ta & data & panel & EP).
  pose proof (draw_legend_kept _ _ _ _ _ _ _ _ K EL) as K'.
  assert (x = plot) as ->.
  { unfold draw_legend in EL.
    apply bind_ok_inv in EL as (h5 & t7 & lb & t8 & _ & EL & _).
    destruct lb as [box|].
    2:{ injection EL as Ea Eb Ec. by subst. }
    apply bind_reads_inv in EL as (? & _ & EL); [|apply reads_getattr].
    apply bind_reads_inv in EL as (? & _ & EL); [|apply reads_load_Theme].
    rewrite lift_bind in EL. destruct (lookup_position _) as [[??]|]; [|done].
    apply bind_reads_inv in EL as (? & _ & EL); [|apply reads_getattr].
    apply bind_reads_inv in EL as (? & _ & EL); [|apply reads_load_Fig].
    apply bind_reads_inv in EL as (? & _ & EL); [|apply reads_getattr].
    apply bind_reads_inv in EL as (? & _ & EL); [|apply reads_load_Axs].
    rewrite lift_bind in EL. destruct (py_index _ 0) as [?|]; [|done].
    rewrite emit_bind in EL. injection EL as Ea Eb Ec. by subst. }
  by exists plot, ha, ta, data, panel.
Qed.



End Properties.

(** * Further properties *)

Section MoreProperties.

Context `{T : Types}.

Variable C : Collab.

(** ** A new plot *)

Lemma alloc_setattr_fresh {A} hb hi self dct o key (k : St heap A)
    (P : heap * list event * result A -> Prop) :
  inst_at hb hi self dct ->
  (forall l hb' hi',
      inst_at hb' hi' self (<[key := l]> dct) ->
      hb !! l = None -> l ≠ self -> hb' !! l = Some o -> hb ⊆ hb' ->
      P (k hi')) ->
  P ((alloc o ≫= fun a => setattr self key a ≫= fun _ => k) hi).
Proof.
  intros (H1 & H2 & H3) Hk.
  rewrite (bind_nil _ _ _ _ _ (alloc_run _ _)).
  pose proof (fresh_lookup hi) as Hf. set (l := fresh (dom hi)) in *.
  assert (Hl : l ≠ self) by congruence.
  assert (Hb : hb !! l = None).
  { destruct (hb !! l) eqn:E; [|done]. by rewrite (lookup_weaken _ _ _ _ E H3) in Hf. }
  assert (H1' : <[l:=o]> hi !! self = Some (OInstance dct)).
  { by rewrite lookup_insert_ne. }
  rewrite (bind_nil _ _ _ _ _ (setattr_run _ key l _ _ H1')).
  apply (Hk l (<[l:=o]> hb)); try done.
  - split; [by rewrite lookup_insert_eq|]. split; [by rewrite lookup_insert_ne|].
    apply insert_subseteq_r; [by rewrite lookup_insert_ne|].
    by apply insert_mono.
  - by rewrite lookup_insert_eq.
  - by apply insert_subseteq.
Qed.

(** The six objects that [__init__] makes for the plot [self]. *)
Record Parts : Type := mkParts {
  pt_facet : loc;
  pt_labels : loc;
  pt_layers : loc;
  pt_guides : loc;
  pt_scales : loc;
  pt_theme : loc
}.

Definition parts_list (self : loc) (p : Parts) : list loc :=
  [self; pt_facet p; pt_labels p; pt_layers p; pt_guides p; pt_scales p;
   pt_theme p].

(** The store [h'] that the constructor leaves, against the store [h0] it
    was called in: the plot and its six parts are new to [h0] and pairwise
    distinct, the parts hold the defaults, and the objects of [h0] are as
    they were. *)
Definition constructed (h0 h' : heap) (self m d env : loc) (lb : Labels)
    (p : Parts) : Prop :=
  h' !! self = Some (OInstance (list_to_map
    [("data", d); ("mapping", m); ("facet", pt_facet p);
     ("labels", pt_labels p); ("layers", pt_layers p);
     ("guides", pt_guides p); ("scales", pt_scales p);
     ("theme", pt_theme p); ("plot_env", env)]%string)) /\
  h0 ⊆ h' /\
  NoDup (parts_list self p) /\
  Forall (fun x => h0 !! x = None) (parts_list self p) /\
  h' !! pt_facet p = Some (OFacet (facet_null C)) /\
  h' !! pt_labels p = Some (OLabels lb) /\
  h' !! pt_layers p = Some (OLayers []) /\
  h' !! pt_guides p = Some (OGuides (guides C)) /\
  h' !! pt_scales p = Some (OScales (new_Scales C)) /\
  h' !! pt_theme p = Some (OTheme (theme_gray C)).

Lemma lookup_none_weaken (h h' : heap) l :
  h ⊆ h' -> h' !! l = None -> h !! l = None.
Proof.
  intros Hs Hn. destruct (h !! l) eqn:E; [|done].
  by rewrite (lookup_weaken _ _ _ _ E Hs) in Hn.
Qed.

Lemma ggplot_constructs (m d : loc) (h : heap) (df : DataFrame)
    (mp : Mapping) (env : loc) (lb : Labels) :
  h !! d = Some (ODataFrame df) ->
  h !! m = Some (OAes mp env) ->
  make_labels C (OAes mp env) = Ok lb ->
  exists h' self p,
    ggplot C m d h = (h', [], Ok self) /\
    constructed h h' self m d env lb p.
Proof.
  intros Hd Hm Hlb.
  pose proof (fresh_lookup h) as Hf. set (self := fresh (dom h)) in *.
  set (h1 := <[self := OInstance ∅]> h).
  assert (I0 : inst_at h h1 self ∅).
  { split; [by apply lookup_insert_eq|]. split; [done|]. by apply insert_subseteq. }
  assert (Hd1 : h1 !! d = Some (ODataFrame df))
    by exact (lookup_weaken _ _ _ _ Hd (proj2 (proj2 I0))).
  unfold ggplot. rewrite (bind_nil _ _ _ _ _ (alloc_run _ _)). fold self h1.
  cut (exists h' p, ggplot_init_body C self m d h1 = (h', [], Ok tt) /\
                    constructed h h' self m d env lb p).
  { intros (h' & p & E & K). exists h', self, p. split; [|done].
    assert (E' : ggplot_init C self m d h1 = (h', [], Ok tt))
      by (by rewrite (ggplot_init_swap C self m d h1 _ Hd1)).
    by rewrite (bind_nil _ _ _ _ _ E'). }
  unfold ggplot_init_body.
  eapply setattr_step; [exact I0|]. clear I0. intros hi I0.
  eapply setattr_step; [exact I0|]. clear hi I0. intros hi I0.
  eapply alloc_setattr_fresh; [exact I0|]. clear hi I0.
  intros f b1 hi I1 Nf Df Ff S1.
  eapply load_step; [exact I1|exact (lookup_weaken _ _ _ _ Hm S1)|].
  rewrite lift_bind, Hlb.
  eapply alloc_setattr_fresh; [exact I1|]. clear hi I1.
  intros l b2 hi I2 Nl Dl Fl S2.
  eapply alloc_setattr_fresh; [exact I2|]. clear hi I2.
  intros ls b3 hi I3 Nls Dls Fls S3.
  eapply alloc_setattr_fresh; [exact I3|]. clear hi I3.
  intros g b4 hi I4 Ng Dg Fg S4.
  eapply alloc_setattr_fresh; [exact I4|]. clear hi I4.
  intros s b5 hi I5 Ns Ds Fs S5.
  eapply alloc_setattr_fresh; [exact I5|]. clear hi I5.
  intros t b6 hi I6 Nt Dt Ft S6.
  assert (S12 : h ⊆ b2) by (by trans b1).
  assert (S13 : h ⊆ b3) by (by trans b2).
  assert (S14 : h ⊆ b4) by (by trans b3).
  assert (S15 : h ⊆ b5) by (by trans b4).
  assert (S16 : h ⊆ b6) by (by trans b5).
  assert (S26 : b1 ⊆ b6) by (do 4 (etrans; [eassumption|]); done).
  assert (S36 : b2 ⊆ b6) by (do 3 (etrans; [eassumption|]); done).
  assert (S46 : b3 ⊆ b6) by (do 2 (etrans; [eassumption|]); done).
  assert (S56 : b4 ⊆ b6) by (by trans b5).
  unfold get_aes_env. rewrite (bind_assoc (load m)).
  eapply load_step; [exact I6|exact (lookup_weaken _ _ _ _ Hm S16)|].
  cbv beta iota. rewrite ret_bind.
  rewrite (setattr_run _ "plot_env" env _ _ (proj1 I6)).
  destruct I6 as (I6a & I6b & I6c).
  eexists _, (mkParts f l ls g s t). split; [reflexivity|].
  match goal with |- constructed _ ?hf _ _ _ _ _ _ => set (h' := hf) end.
  assert (I7 : b6 ⊆ h').
  { by apply insert_subseteq_r. }
  (* what the last store of the parts holds *)
  pose proof (lookup_weaken _ _ _ _ Ff S26) as Ff6.
  pose proof (lookup_weaken _ _ _ _ Fl S36) as Fl6.
  pose proof (lookup_weaken _ _ _ _ Fls S46) as Fls6.
  pose proof (lookup_weaken _ _ _ _ Fg S56) as Fg6.
  pose proof (lookup_weaken _ _ _ _ Fs S6) as Fs6.
  split; [unfold h'; rewrite lookup_insert_eq; by do 2 f_equal|].
  split; [by trans b6|].
  split.
  { unfold parts_list. simpl.
    (* a part made later is not in the store of the parts made before *)
    pose proof (lookup_weaken _ _ _ _ Ff S2) as Ff2.
    pose proof (lookup_weaken _ _ _ _ Ff2 S3) as Ff3.
    pose proof (lookup_weaken _ _ _ _ Ff3 S4) as Ff4.
    pose proof (lookup_weaken _ _ _ _ Ff4 S5) as Ff5.
    pose proof (lookup_weaken _ _ _ _ Fl S3) as Fl3.
    pose proof (lookup_weaken _ _ _ _ Fl3 S4) as Fl4.
    pose proof (lookup_weaken _ _ _ _ Fl4 S5) as Fl5.
    pose proof (lookup_weaken _ _ _ _ Fls S4) as Fls4.
    pose proof (lookup_weaken _ _ _ _ Fls4 S5) as Fls5.
    pose proof (lookup_weaken _ _ _ _ Fg S5) as Fg5.
    repeat (apply NoDup_cons; split;
            [rewrite ?not_elem_of_cons;
             repeat split; try apply not_elem_of_nil; try congruence|]).
    apply NoDup_nil_2. }
  split.
  { unfold parts_list. simpl.
    repeat (apply Forall_cons; split; [eauto using lookup_none_weaken|]).
    apply Forall_nil_2. }
  simpl. repeat split; by (eapply lookup_weaken; [|exact I7]).
Qed.

(** X1. A plot fresh from the constructor has no layers: building it raises
    [GgplotError('No layers in plot')] and leaves the store as it is;
    rendering it closes the figures, enters and leaves the context of the
    default theme and raises the same error, without a call to
    [plt.subplots] or [plt.gcf]; printing it raises too and shows
    nothing. *)
Theorem new_plot_cannot_be_rendered (m d : loc) (h : heap) (df : DataFrame)
    (mp : Mapping) (env : loc) (lb : Labels) :
  h !! d = Some (ODataFrame df) ->
  h !! m = Some (OAes mp env) ->
  make_labels C (OAes mp env) = Ok lb ->
  exists h' self,
    ggplot C m d h = (h', [], Ok self) /\
    get_layers self h' = (h', [], Ok []) /\
    plot_build C self h' = (h', [], Raise (GgplotError "No layers in plot")) /\
    render C self h' =
      (h', [PltCloseAll; GgContextEnter (theme_gray C); GgContextExit],
       Raise (GgplotError "No layers in plot")) /\
    ggplot_repr C self h' =
      (h', [PltCloseAll; GgContextEnter (theme_gray C); GgContextExit],
       Raise (GgplotError "No layers in plot")).
Proof.
  intros Hd Hm Hlb.
  destruct (ggplot_constructs m d h df mp env lb Hd Hm Hlb)
    as (h' & self & p & E & K).
  destruct K as (Ks & _ & _ & _ & _ & _ & Kls & _ & _ & Kt).
  exists h', self. split; [done|].
  assert (EL : get_layers self h' = (h', [], Ok [])).
  { unfold get_layers.
    rewrite (bind_nil _ _ _ _ _ (getattr_run self "layers" (pt_layers p) _ _ Ks eq_refl)).
    unfold load_Layers. by rewrite (bind_nil _ _ _ _ _ (load_run _ _ _ Kls)). }
  assert (EB : plot_build C self h' =
               (h', [], Raise (GgplotError "No layers in plot"))).
  { unfold plot_build. by rewrite (bind_nil _ _ _ _ _ EL). }
  assert (ER : render C self h' =
      (h', [PltCloseAll; GgContextEnter (theme_gray C); GgContextExit],
       Raise (GgplotError "No layers in plot"))).
  { unfold render. rewrite emit_bind.
    rewrite (bind_nil _ _ _ _ _ (getattr_run self "theme" (pt_theme p) _ _ Ks eq_refl)).
    unfold load_Theme. rewrite bind_assoc.
    rewrite (bind_nil _ _ _ _ _ (load_run _ _ _ Kt)), ret_bind.
    unfold with_context. rewrite bind_assoc, emit_bind.
    unfold mbind at 1, St_bind, st_bind.
    assert (ED : draw C self h' =
                 (h', [], Raise (GgplotError "No layers in plot"))).
    { unfold draw. by rewrite (bind_raise _ _ _ _ _ _ EB). }
    by rewrite (bind_raise _ _ _ _ _ _ ED). }
  split; [done|]. split; [done|]. split; [done|].
  unfold ggplot_repr. by rewrite (bind_raise _ _ _ _ _ _ ER).
Qed.

(** X2. The constructor gives every plot parts of its own: the plot and the
    objects bound to [facet], [labels], [layers], [guides], [scales] and
    [theme] are new to the store and pairwise distinct, and what the store
    held is kept.  Two plots made from the same aes and the same data frame
    share these two and the environment of the aes, and nothing else: the
    second plot and its six parts are none of the first plot and its
    parts, which the second construction leaves as they are. *)
Theorem ggplot_makes_its_own_parts (m d : loc) (h : heap) (df : DataFrame)
    (mp : Mapping) (env : loc) (lb : Labels) :
  h !! d = Some (ODataFrame df) ->
  h !! m = Some (OAes mp env) ->
  make_labels C (OAes mp env) = Ok lb ->
  exists h1 p1 parts1 h2 p2 parts2,
    ggplot C m d h = (h1, [], Ok p1) /\
    constructed h h1 p1 m d env lb parts1 /\
    ggplot C m d h1 = (h2, [], Ok p2) /\
    constructed h1 h2 p2 m d env lb parts2 /\
    (forall x, x ∈ parts_list p2 parts2 -> x ∉ parts_list p1 parts1) /\
    (forall x, x ∈ parts_list p1 parts1 -> h2 !! x = h1 !! x).
Proof.
  intros Hd Hm Hlb.
  destruct (ggplot_constructs m d h df mp env lb Hd Hm Hlb)
    as (h1 & p1 & parts1 & E1 & K1).
  pose proof K1 as (Ks & Hsub & ND & Hnew & Kf & Kl & Kls & Kg & Ksc & Kt).
  destruct (ggplot_constructs m d h1 df mp env lb
              (lookup_weaken _ _ _ _ Hd Hsub) (lookup_weaken _ _ _ _ Hm Hsub) Hlb)
    as (h2 & p2 & parts2 & E2 & K2).
  pose proof K2 as (Ks2 & Hsub2 & ND2 & Hnew2 & _).
  exists h1, p1, parts1, h2, p2, parts2.
  split; [done|]. split; [done|]. split; [done|]. split; [done|].
  assert (Hin : forall x, x ∈ parts_list p1 parts1 -> is_Some (h1 !! x)).
  { intros x. unfold parts_list. rewrite !elem_of_cons.
    intros [->|[->|[->|[->|[->|[->|[->|Hx]]]]]]]; try by eexists.
    by apply not_elem_of_nil in Hx. }
  split.
  - intros x Hx2 Hx1. rewrite Forall_forall in Hnew2.
    specialize (Hnew2 x Hx2). destruct (Hin x Hx1). congruence.
  - intros x Hx. destruct (Hin x Hx) as [o Ho]. rewrite Ho.
    by eapply lookup_weaken.
Qed.

(** ** Sharing in the copy *)

(** A memo that sends different objects to different copies, all of them
    in the store. *)
Definition memo_inj (memo : memo_t) : Prop :=
  forall x x' y, memo_get x memo = Some y -> memo_get x' memo = Some y -> x = x'.

Definition memo_in (h : heap) (memo : memo_t) : Prop :=
  forall x y, memo_get x memo = Some y -> is_Some (h !! y).

Definition memo_le (memo memo' : memo_t) : Prop :=
  forall x y, memo_get x memo = Some y -> memo_get x memo' = Some y.

Lemma deepcopy_memo item memo (h h' : heap) t y memo' :
  memo_inj memo -> memo_in h memo ->
  deepcopy item memo h = (h', t, Ok (y, memo')) ->
  memo_inj memo' /\ memo_in h' memo' /\ memo_get item memo' = Some y /\
  memo_le memo memo' /\
  (forall l, is_Some (h !! l) -> h' !! l = h !! l).
Proof.
  intros Hinj Hin. unfold deepcopy.
  destruct (memo_get item memo) as [y0|] eqn:E.
  { intros [= <- <- <- <-]. split; [done|]. split; [done|]. split; [done|].
    split; [by intros ??|done]. }
  destruct (h !! item) as [o|] eqn:Ei.
  2:{ by rewrite (bind_raise _ _ h h [] SystemError)
        by (unfold load; by rewrite Ei). }
  rewrite (bind_nil _ _ _ _ _ (load_run _ _ _ Ei)).
  rewrite (bind_nil _ _ _ _ _ (alloc_run _ _)).
  pose proof (fresh_lookup h) as Hf. set (l := fresh (dom h)) in *.
  intros [= <- <- <- <-].
  assert (Hnew : forall x, memo_get x memo ≠ Some l).
  { intros x Hx. destruct (Hin _ _ Hx). congruence. }
  split.
  { intros x x' z. rewrite !memo_get_cons.
    destruct (Pos.eqb_spec x item) as [->|Hx], (Pos.eqb_spec x' item) as [->|Hx'];
      try done.
    - intros [= <-] Hz. by destruct (Hnew _ Hz).
    - intros Hz [= <-]. by destruct (Hnew _ Hz).
    - apply Hinj. }
  split.
  { intros x z. rewrite memo_get_cons.
    destruct (Pos.eqb_spec x item) as [->|Hx].
    - intros [= <-]. rewrite lookup_insert_eq. by eexists.
    - intros Hz. destruct (Hin _ _ Hz) as [oz Hoz].
      rewrite lookup_insert_ne; [by eexists|]. congruence. }
  split; [by rewrite memo_get_cons, Pos.eqb_refl|].
  split.
  { intros x z Hz. rewrite memo_get_cons.
    destruct (Pos.eqb_spec x item) as [->|Hx]; [congruence|done]. }
  intros x [ox Hx]. rewrite lookup_insert_ne; [done|]. congruence.
Qed.

Lemma memo_in_insert (h : heap) memo l o :
  memo_in h memo -> memo_in (<[l := o]> h) memo.
Proof.
  intros Hin x y Hy. rewrite lookup_insert. case_decide; [by eexists|by eapply Hin].
Qed.

Lemma copy_items_memo result items :
  NoDup items.*1 ->
  forall memo (h : heap) dct h' t,
  h !! result = Some (OInstance dct) ->
  memo_inj memo -> memo_in h memo ->
  copy_items result items memo h = (h', t, Ok tt) ->
  exists memo' dct',
    h' !! result = Some (OInstance dct') /\
    memo_inj memo' /\ memo_in h' memo' /\ memo_le memo memo' /\
    (forall key item, (key, item) ∈ items -> in_shallow key = false ->
       exists y, dct' !! key = Some y /\ memo_get item memo' = Some y) /\
    (forall key, key ∉ items.*1 -> dct' !! key = dct !! key).
Proof.
  induction items as [|[key item] rest IH]; intros ND memo h dct h' t Hr Hinj Hin.
  - simpl. intros [= <- <-]. exists memo, dct.
    split; [done|]. split; [done|]. split; [done|]. split; [by intros ??|].
    split; [|done]. intros k i Hk. by apply not_elem_of_nil in Hk.
  - simpl in ND. apply NoDup_cons in ND as [Hk ND]. simpl.
    destruct (in_shallow key) eqn:Esh.
    + rewrite (bind_nil _ _ _ _ _ (setattr_run _ key item _ _ Hr)). intros E.
      destruct (IH ND memo _ (<[key:=item]> dct) _ _
                  ltac:(by rewrite lookup_insert_eq) Hinj
                  (memo_in_insert _ _ _ _ Hin) E)
        as (memo' & dct' & Hr' & Hinj' & Hin' & Hle & Hc & Hd).
      exists memo', dct'. split; [done|]. split; [done|]. split; [done|].
      split; [done|]. split.
      * intros k i Hki Hs. apply elem_of_cons in Hki as [[= -> ->]|Hki];
          [congruence|by apply Hc].
      * intros k Hn. apply not_elem_of_cons in Hn as [Hn1 Hn2].
        rewrite (Hd _ Hn2). by rewrite lookup_insert_ne.
    + intros E. apply bind_inv in E as [(e & _ & [=]) | E].
      destruct E as (h1 & t1 & [y memo1] & t2 & E1 & E & ->).
      destruct (deepcopy_memo _ _ _ _ _ _ _ Hinj Hin E1)
        as (Hinj1 & Hin1 & Hy & Hle1 & Hsame).
      assert (Hr1 : h1 !! result = Some (OInstance dct)).
      { rewrite Hsame; [done|by eexists]. }
      rewrite (bind_nil _ _ _ _ _ (setattr_run _ key y _ _ Hr1)) in E.
      destruct (IH ND memo1 _ (<[key:=y]> dct) _ _
                  ltac:(by rewrite lookup_insert_eq) Hinj1
                  (memo_in_insert _ _ _ _ Hin1) E)
        as (memo' & dct' & Hr' & Hinj' & Hin' & Hle & Hc & Hd).
      exists memo', dct'. split; [done|]. split; [done|]. split; [done|].
      split; [intros x z Hz; by apply Hle, Hle1|]. split.
      * intros k i Hki Hs. apply elem_of_cons in Hki as [[= -> ->]|Hki];
          [|by apply Hc].
        exists y. rewrite (Hd _ Hk), lookup_insert_eq. split; [done|].
        by apply Hle.
      * intros k Hn. apply not_elem_of_cons in Hn as [Hn1 Hn2].
        rewrite (Hd _ Hn2). by rewrite lookup_insert_ne.
Qed.

(** X3. [__deepcopy__] keeps the sharing between the attributes that it
    copies: two attributes bound to one object are bound to one copy, two
    attributes bound to different objects are bound to different copies;
    and an object that the memo knows is not copied again, the attribute
    is bound to the copy that the memo has. *)
Theorem deepcopy_keeps_sharing (self : loc) (memo : memo_t) (h h' : heap)
    (t : list event) (plot : loc) :
  memo_inj memo -> memo_in h memo ->
  ggplot_deepcopy self memo h = (h', t, Ok plot) ->
  exists d d',
    h !! self = Some (OInstance d) /\
    h' !! plot = Some (OInstance d') /\
    (forall k1 k2 i1 i2 v1 v2,
       in_shallow k1 = false -> in_shallow k2 = false ->
       d !! k1 = Some i1 -> d !! k2 = Some i2 ->
       d' !! k1 = Some v1 -> d' !! k2 = Some v2 ->
       (v1 = v2 <-> i1 = i2)) /\
    (forall k i y,
       in_shallow k = false -> d !! k = Some i ->
       memo_get i memo = Some y -> d' !! k = Some y).
Proof.
  intros Hinj Hin. unfold ggplot_deepcopy. intros E.
  apply bind_inv in E as [(e & _ & [=]) | (h1 & t1 & d & t2 & E1 & E & ->)].
  pose proof (reads_inv _ _ _ _ _ (reads_load_dict self) E1) as [-> ->].
  assert (Hs : h !! self = Some (OInstance d)).
  { unfold load_dict in E1. destruct (h !! self) as [o|] eqn:Es.
    - rewrite (bind_nil _ _ _ _ _ (load_run _ _ _ Es)) in E1.
      destruct o; try discriminate. by injection E1 as ->.
    - by rewrite (bind_raise _ _ h h [] SystemError) in E1
        by (unfold load; by rewrite Es). }
  rewrite (bind_nil _ _ _ _ _ (alloc_run _ _)) in E.
  set (result := fresh (dom h)) in *.
  apply bind_inv in E as [(e & _ & [=]) | (h2 & t3 & [] & t4 & E2 & E & ->)].
  injection E as <- <- <-.
  destruct (copy_items_memo result (map_to_list d) (NoDup_fst_map_to_list d)
              memo _ ∅ _ _ ltac:(by rewrite lookup_insert_eq) Hinj
              (memo_in_insert _ _ _ _ Hin) E2)
    as (memo' & d' & Hr' & Hinj' & Hin' & Hle & Hc & _).
  exists d, d'. split; [done|]. split; [done|].
  assert (Hv : forall k i v, in_shallow k = false -> d !! k = Some i ->
                 d' !! k = Some v -> memo_get i memo' = Some v).
  { intros k i v Hk Hi Hv. apply elem_of_map_to_list in Hi.
    destruct (Hc _ _ Hi Hk) as (y & Hy & Hm). congruence. }
  split.
  - intros k1 k2 i1 i2 v1 v2 Hk1 Hk2 Hi1 Hi2 Hv1 Hv2.
    pose proof (Hv _ _ _ Hk1 Hi1 Hv1) as M1.
    pose proof (Hv _ _ _ Hk2 Hi2 Hv2) as M2.
    split.
    + intros <-. by eapply Hinj'.
    + intros <-. congruence.
  - intros k i y Hk Hi Hm. apply elem_of_map_to_list in Hi.
    destruct (Hc _ _ Hi Hk) as (y' & Hy' & Hm'). apply Hle in Hm. congruence.
Qed.

(** ** [dlapply] *)

Lemma nth_error_is_lookup {A} (l : list A) (i : nat) : nth_error l i = l !! i.
Proof. revert i. induction l as [|x l IH]; intros [|i]; simpl; auto. Qed.

Lemma py_index_lookup {A} (l : list A) (i : nat) x :
  l !! i = Some x -> py_index l (Z.of_nat i) = Ok x.
Proof.
  intros Hx. pose proof (lookup_lt_Some _ _ _ Hx) as Hi. unfold py_index.
  destruct (Z.of_nat i <? 0) eqn:E1; [lia|].
  destruct (0 <=? Z.of_nat i) eqn:E2; [|lia].
  destruct (Z.of_nat i <? Z.of_nat (length l)) eqn:E3; [|lia]. simpl.
  rewrite Nat2Z.id, nth_error_is_lookup. by rewrite Hx.
Qed.

Lemma py_index_out {A} (l : list A) (i : nat) :
  (length l <= i)%nat -> py_index l (Z.of_nat i) = Raise IndexError.
Proof.
  intros Hi. unfold py_index.
  destruct (Z.of_nat i <? 0) eqn:E1; [lia|].
  destruct (Z.of_nat i <? Z.of_nat (length l)) eqn:E3; [lia|].
  by rewrite andb_false_r.
Qed.

Lemma dlapply_from_pure (g : DataFrame -> Layer -> DataFrame) data :
  forall i (w : World),
  (i <= length (p_layers (w_plot w)))%nat ->
  dlapply_from i (fun d l => mret (g d l)) data w =
    if bool_decide (i + length data <= length (p_layers (w_plot w)))%nat
    then (w, [], Ok (zip_with g data (drop i (p_layers (w_plot w)))))
    else (w, [], Raise IndexError).
Proof.
  induction data as [|d rest IH]; intros i w Hi; simpl.
  - rewrite bool_decide_eq_true_2 by lia. done.
  - rewrite gets_bind.
    destruct (decide (i < length (p_layers (w_plot w)))%nat) as [Hlt|Hge].
    + destruct (lookup_lt_is_Some_2 _ _ Hlt) as [l Hl].
      rewrite lift_bind, (py_index_lookup _ _ _ Hl), ret_bind.
      rewrite (drop_S _ _ _ Hl). simpl.
      unfold mbind, St_bind, st_bind. rewrite (IH (S i) w) by lia.
      case_bool_decide as H1.
      * rewrite bool_decide_eq_true_2 by lia. done.
      * rewrite bool_decide_eq_false_2 by lia. done.
    + rewrite lift_bind, py_index_out by lia.
      rewrite bool_decide_eq_false_2 by lia. done.
Qed.

Lemma dlapply_from_short n f data :
  (forall d l, Total n (fun _ => True) (f d l)) ->
  forall i (w : World),
  (i <= n)%nat -> (n < i + length data)%nat ->
  length (p_layers (w_plot w)) = n ->
  exists w' t, dlapply_from i f data w = (w', t, Raise IndexError) /\
               length (p_layers (w_plot w')) = n.
Proof.
  intros Hf. induction data as [|d rest IH]; intros i w Hi Hn Hw; simpl in *.
  - lia.
  - rewrite gets_bind.
    destruct (decide (i < n)%nat) as [Hlt|Hge].
    + destruct (lookup_lt_is_Some_2 (p_layers (w_plot w)) i) as [l Hl]; [lia|].
      rewrite lift_bind, (py_index_lookup _ _ _ Hl).
      destruct (Hf d l w Hw) as (w1 & t1 & o & E1 & Hw1 & _).
      destruct (IH (S i) w1) as (w2 & t2 & E2 & Hw2); [lia..|done|].
      exists w2, (t1 ++ t2). split; [|done].
      rewrite (bind_ok _ _ _ _ _ _ E1).
      by rewrite (bind_raise _ _ _ _ _ _ E2).
    + rewrite lift_bind, py_index_out by lia. by exists w, [].
Qed.

(** X4. [dlapply] pairs [data[i]] with [layers[i]].  For a function that
    has no effect the outcome is exact: with no more data frames than
    layers the results are those of the pairs in order, and the layers in
    excess are ignored; with more data frames than layers it raises
    [IndexError].  For any function that returns and keeps the number of
    layers it returns one result for each data frame in the first case,
    and raises [IndexError] in the second. *)
Theorem dlapply_pairs_frames_with_layers (data : list DataFrame) (w : World) :
  (forall g : DataFrame -> Layer -> DataFrame,
     dlapply (fun d l => mret (g d l)) data w =
       if bool_decide (length data <= length (p_layers (w_plot w)))%nat
       then (w, [], Ok (zip_with g data (p_layers (w_plot w))))
       else (w, [], Raise IndexError)) /\
  (forall f,
     (forall d l, Total (length (p_layers (w_plot w))) (fun _ => True) (f d l)) ->
     ((length data <= length (p_layers (w_plot w)))%nat ->
      exists w' t out,
        dlapply f data w = (w', t, Ok out) /\ length out = length data) /\
     ((length (p_layers (w_plot w)) < length data)%nat ->
      exists w' t, dlapply f data w = (w', t, Raise IndexError))).
Proof.
  split.
  - intros g. unfold dlapply. rewrite dlapply_from_pure by lia. by rewrite drop_0.
  - intros f Hf. split.
    + intros Hle.
      destruct (Total_dlapply_from _ f data 0 Hf ltac:(simpl; lia) w eq_refl)
        as (w' & t & out & E & _ & Hout).
      by exists w', t, out.
    + intros Hlt.
      destruct (dlapply_from_short _ f data Hf 0%nat w ltac:(lia) ltac:(lia) eq_refl)
        as (w' & t & E & _).
      by exists w', t.
Qed.

(** ** What a run records *)

(** Every event of every run of [m] satisfies [P]. *)
Definition Only {S A} (P : event -> Prop) (m : St S A) : Prop :=
  forall s, Forall P (trace_of (m s)).

Lemma Only_bind_ret {S A B} P (m : St S A) (f : A -> St S B) :
  Only P m ->
  (forall a, (exists s s' t, m s = (s', t, Ok a)) -> Only P (f a)) ->
  Only P (m ≫= f).
Proof.
  intros Hm Hf s. specialize (Hm s). unfold trace_of in *.
  unfold mbind, St_bind, st_bind.
  destruct (m s) as [[s1 t1] [a|e]] eqn:E; simpl in *; [|done].
  assert (Ha : Only P (f a)) by (apply Hf; by exists s, s1, t1).
  specialize (Ha s1). unfold trace_of in Ha.
  destruct (f a s1) as [[s2 t2] r]. simpl in *. by apply Forall_app.
Qed.

Lemma Only_bind {S A B} P (m : St S A) (f : A -> St S B) :
  Only P m -> (forall a, Only P (f a)) -> Only P (m ≫= f).
Proof. intros Hm Hf. apply Only_bind_ret; [done|]. intros a _. apply Hf. Qed.

Lemma Only_quiet {S A} P (m : St S A) : Quiet m -> Only P m.
Proof. intros H s. rewrite (H s). apply Forall_nil_2. Qed.

Lemma Only_reads {S A} P (m : St S A) : reads m -> Only P m.
Proof. intros H. by apply Only_quiet, Quiet_reads. Qed.

Lemma Only_modify {S} P (f : S -> S) : Only P (modify f).
Proof. intros s. apply Forall_nil_2. Qed.

Lemma Only_emit {S} (P : event -> Prop) ev : P ev -> Only P (emit ev : St S unit).
Proof. intros H s. by apply Forall_singleton. Qed.

Lemma Only_call {S A} (P : event -> Prop) stg (c : S -> S * result A) :
  P (Call stg) -> Only P (call stg c).
Proof.
  intros H s. unfold call, trace_of. destruct (c s) as [s' r]. simpl.
  by apply Forall_singleton.
Qed.

Lemma Only_on_plot {A} P (m : St PlotC A) : Only P m -> Only P (on_plot m).
Proof.
  intros H w. specialize (H (w_plot w)). unfold on_plot, zoom, trace_of in *.
  by destruct (m (w_plot w)) as [[??]?].
Qed.

Lemma Only_with_panel {A} P panel (m : St World A) :
  Only P m -> Only P (with_panel panel m).
Proof.
  intros H c. specialize (H (mkWorld c panel)). unfold with_panel, trace_of in *.
  by destruct (m (mkWorld c panel)) as [[??] [?|?]].
Qed.

Lemma Only_with_plot {A} P plot (m : St PlotC A) :
  Only P m -> Only P (with_plot plot m).
Proof.
  intros H h. destruct (with_plot plot m h) as [[h' t] r] eqn:E.
  apply with_plot_inv in E as [(_ & -> & _) | E]; [apply Forall_nil_2|].
  destruct E as (refs & c & env & c' & _ & _ & E & _).
  specialize (H c). by rewrite E in H.
Qed.

Lemma Only_when {S} P (b : bool) (m : St S unit) : Only P m -> Only P (when b m).
Proof. intros H. destruct b; [done|]. apply Only_reads, reads_ret. Qed.

Lemma Only_mapM {S A B} P (f : A -> St S B) (xs : list A) :
  (forall x, Only P (f x)) -> Only P (mapM f xs).
Proof.
  intros Hf. induction xs as [|x xs IH]; simpl.
  - apply Only_reads, reads_ret.
  - apply Only_bind; [apply Hf|]. intros y.
    apply Only_bind; [apply IH|]. intros ys. apply Only_reads, reads_ret.
Qed.

Lemma Only_dlapply_from P f data i :
  (forall d l, Only P (f d l)) -> Only P (dlapply_from i f data).
Proof.
  intros Hf. revert i. induction data as [|d rest IH]; intros i; simpl.
  - apply Only_reads, reads_ret.
  - apply Only_bind; [apply Only_reads, reads_gets|]. intros layers.
    apply Only_bind; [apply Only_reads, reads_lift|]. intros l.
    apply Only_bind; [apply Hf|]. intros o.
    apply Only_bind; [apply IH|]. intros out. apply Only_reads, reads_ret.
Qed.

Lemma Only_mono {S A} (P Q : event -> Prop) (m : St S A) :
  (forall ev, P ev -> Q ev) -> Only P m -> Only Q m.
Proof. intros H Hm s. eapply Forall_impl; [apply Hm|done]. Qed.

(** A step of the pipeline, up to the stage that it calls. *)
Ltac only_prim :=
  first
    [ apply Only_reads; first [apply reads_gets | apply reads_ret | apply reads_lift]
    | apply Only_modify
    | apply Only_on_plot, Only_call
    | apply Only_call
    | apply Only_dlapply_from; intros; apply Only_on_plot, Only_call
    | apply Only_mapM; intros; apply Only_on_plot, Only_call
    | apply Only_mapM; intros; apply Only_call ].

(** The pipeline records calls to its stages and nothing else. *)
Lemma Only_build_pipeline (P : event -> Prop) :
  (forall stg, stg ≠ GuidesBuild -> stg ≠ PositionScales -> P (Call stg)) ->
  Only P (build_pipeline C).
Proof.
  intros HP. unfold build_pipeline, dlapply, scale_x, scale_y.
  repeat (apply Only_bind; [only_prim; by apply HP | intros ?]).
  apply Only_bind; [|intros ?].
  - destruct (0 <? scales_len C _)%nat; [|apply Only_reads, reads_ret].
    apply Only_bind; [|intros ?]; only_prim; by apply HP.
  - apply Only_bind; [only_prim; by apply HP | intros ?].
    apply Only_reads, reads_ret.
Qed.

(** X5. A build trains and maps the non-position scales only if there are
    some: when [non_position_scales] never returns anything but an empty
    collection, no run of the pipeline calls [train_df] or [map_df]. *)
Theorem build_without_other_scales_trains_none :
  (forall p p' s, non_position_scales C p = (p', Ok s) ->
                  scales_len C s = 0%nat) ->
  forall w,
    (Call TrainDf ∉ trace_of (build_pipeline C w)) /\
    (Call MapDf ∉ trace_of (build_pipeline C w)).
Proof.
  intros Hnp.
  cut (Only (fun ev => ev ≠ Call TrainDf /\ ev ≠ Call MapDf) (build_pipeline C)).
  { intros H w. specialize (H w). rewrite Forall_forall in H.
    split; intros Hin; by destruct (H _ Hin). }
  unfold build_pipeline, dlapply, scale_x, scale_y.
  do 29 (apply Only_bind; [only_prim; by split | intros ?]).
  apply Only_bind_ret; [only_prim; by split|].
  intros npscales (w0 & w1 & t1 & E).
  assert (Hlen : scales_len C npscales = 0%nat).
  { unfold on_plot, zoom, call in E.
    destruct (non_position_scales C (w_plot w0)) as [p' r] eqn:E'.
    injection E as _ _ ->. by eapply Hnp. }
  rewrite Hlen. simpl.
  apply Only_bind; [apply Only_reads, reads_ret | intros ?].
  apply Only_bind; [only_prim; by split | intros ?].
  apply Only_reads, reads_ret.
Qed.

(** *** The phases of a render *)

Inductive phase : Type := Framing | Building | Drawing | Legend.

(** The part of [render] that an event belongs to: the figure and the
    context of the theme, the build, the drawing of the panels, or the
    legend. *)
Definition phase_of (ev : event) : phase :=
  match ev with
  | PltCloseAll | GgContextEnter _ | GgContextExit | PltGcf | PltShow => Framing
  | Deepcopy => Building
  | Call GuidesBuild => Legend
  | AddArtist _ _ _ _ => Legend
  | Call PositionScales => Drawing
  | Call _ => Building
  | _ => Drawing
  end.

Definition during (p : phase) (ev : event) : Prop := phase_of ev = p.

Lemma Only_plot_build self : Only (during Building) (plot_build C self).
Proof.
  unfold plot_build.
  apply Only_bind; [apply Only_reads, reads_get_layers|]. intros [|l ls].
  { apply Only_reads, reads_raise. }
  apply Only_bind.
  { unfold deepcopy_plot. apply Only_bind; [by apply Only_emit|]. intros _.
    apply Only_quiet, Quiet_ggplot_deepcopy. }
  intros plot. apply Only_bind.
  - apply Only_with_plot, Only_with_panel, Only_build_pipeline.
    intros stg H1 H2. unfold during. by destruct stg.
  - intros [??]. apply Only_reads, reads_ret.
Qed.

(** A step of the drawing that records events of the drawing only. *)
Ltac only_draw :=
  repeat first
    [ apply Only_bind; [|intros]
    | apply Only_when
    | apply Only_emit; reflexivity
    | apply Only_reads;
      first [apply reads_ret | apply reads_lift | apply reads_gets
            | apply reads_raise]
    | match goal with
      | |- Only _ (if ?b then _ else _) => destruct b
      | |- Only _ (match ?x with _ => _ end) => destruct x
      end ].

Lemma Only_draw_layers lds z pnl sx sy ax :
  Only (during Drawing) (draw_layers lds z pnl sx sy ax).
Proof.
  revert z. induction lds as [|[l d] lds IH]; intros z; simpl.
  - apply Only_reads, reads_ret.
  - apply Only_bind; [apply Only_reads, reads_lift|]. intros col.
    apply Only_bind; [apply Only_reads, reads_lift|]. intros v.
    apply Only_bind; [by apply Only_emit|]. intros _. apply IH.
Qed.

Lemma Only_draw_panel data fig ax pnl :
  Only (during Drawing) (draw_panel C data fig ax pnl).
Proof.
  unfold draw_panel, set_breaks, set_labels, set_axis_attributes,
    draw_facet_label.
  repeat first
    [ apply Only_draw_layers
    | apply Only_bind; [|intros]
    | apply Only_when
    | apply Only_emit; reflexivity
    | apply Only_reads;
      first [apply reads_ret | apply reads_lift | apply reads_gets
            | apply reads_raise]
    | match goal with
      | |- Only _ (if ?b then _ else _) => destruct b
      end ].
Qed.

Lemma Only_draw_panels data fig zipped :
  Only (during Drawing) (draw_panels C data fig zipped).
Proof.
  induction zipped as [|[ax pnl] rest IH]; simpl.
  - apply Only_reads, reads_ret.
  - apply Only_bind; [apply Only_draw_panel|]. intros _. apply IH.
Qed.

Lemma Only_pass {S} P (m : St S unit) :
  Only P m -> Only P (pass_AttributeError m).
Proof.
  intros H s. specialize (H s). unfold pass_AttributeError, trace_of in *.
  destruct (m s) as [[s' t] [[]|e]]; [done|].
  by destruct (is_AttributeError e).
Qed.

Lemma Only_call_modify_axis P sc axs :
  P (TransModifyAxis sc axs) -> Only P (call_modify_axis C sc axs).
Proof.
  intros H. unfold call_modify_axis.
  destruct (has_modify_axis C sc); [|apply Only_reads, reads_raise].
  apply Only_on_plot. intros p. unfold trace_of.
  destruct (trans_modify_axis C sc axs p) as [p' r]. simpl.
  by apply Forall_singleton.
Qed.

Lemma Only_modify_axis axs : Only (during Drawing) (modify_axis C axs).
Proof.
  unfold modify_axis.
  apply Only_bind; [by apply Only_on_plot, Only_call|]. intros pscales.
  apply Only_bind; [|intros; apply Only_reads, reads_ret].
  apply Only_mapM. intros sc. by apply Only_pass, Only_call_modify_axis.
Qed.

Lemma Only_draw_body data fig axs :
  Only (during Drawing) (draw_body C data fig axs).
Proof.
  unfold draw_body.
  apply Only_bind; [apply Only_reads, reads_gets|]. intros lay.
  apply Only_bind; [apply Only_draw_panels|]. intros _.
  apply Only_bind; [|intros _; apply Only_modify_axis].
  unfold set_facet_spacing. only_draw.
Qed.

Lemma Quiet_alloc o : Quiet (alloc o).
Proof. by intros h. Qed.

(** What [draw] does with the plot that the build returns. *)
Definition draw_built (x : list DataFrame * Panel * loc) : St heap loc :=
  let '(data, panel, plot) := x in
  fl ← getattr plot "facet";
  f ← load_Facet fl;
  '(fig, axs) ← plt_subplots (nrow f) (ncol f);
  a ← alloc (OAxs axs);
  setattr plot "axs" a;;
  g ← alloc (OFig fig);
  setattr plot "fig" g;;
  with_plot plot (with_panel panel (draw_body C data fig axs));;
  mret plot.

Lemma draw_built_run x (h : heap) :
  Forall (during Drawing) (trace_of (draw_built x h)) /\
  (trace_of (draw_built x h) = [] \/
   exists nr nc td, trace_of (draw_built x h) = PltSubplots nr nc :: td).
Proof.
  destruct x as [[data panel] plot]. unfold draw_built. split.
  - revert h.
    apply Only_bind; [apply Only_reads, reads_getattr|]. intros fl.
    apply Only_bind; [apply Only_reads, reads_load_Facet|]. intros f.
    apply Only_bind.
    { unfold plt_subplots. only_draw. }
    intros [fig axs].
    apply Only_bind; [apply Only_quiet, Quiet_alloc|]. intros a.
    apply Only_bind; [apply Only_quiet, Quiet_setattr|]. intros _.
    apply Only_bind; [apply Only_quiet, Quiet_alloc|]. intros g.
    apply Only_bind; [apply Only_quiet, Quiet_setattr|]. intros _.
    apply Only_bind; [|intros; apply Only_reads, reads_ret].
    apply Only_with_plot, Only_with_panel, Only_draw_body.
  - destruct (reads_getattr plot "facet" h) as [[fl|e] E1].
    2:{ left. by rewrite (bind_raise _ _ _ _ _ _ E1). }
    rewrite (bind_nil _ _ _ _ _ E1).
    destruct (reads_load_Facet fl h) as [[f|e] E2].
    2:{ left. by rewrite (bind_raise _ _ _ _ _ _ E2). }
    rewrite (bind_nil _ _ _ _ _ E2). right.
    unfold plt_subplots. rewrite bind_assoc, emit_bind.
    exists (nrow f), (ncol f).
    match goal with
    | |- context [(?m ≫= ?k) h] => destruct ((m ≫= k) h) as [[h2 t2] r2]
    end.
    by exists t2.
Qed.

(** X6. [draw] builds first and draws afterwards: the events of a run of
    [draw] are those of the build, which touches no drawing surface, and
    then those of the drawing, which starts with [plt.subplots] and calls
    no stage of the build again. *)
Theorem draw_builds_before_it_draws (self : loc) (h : heap) :
  exists td,
    trace_of (draw C self h) = trace_of (plot_build C self h) ++ td /\
    Forall (during Building) (trace_of (plot_build C self h)) /\
    Forall (during Drawing) td /\
    (td = [] \/ exists nr nc td', td = PltSubplots nr nc :: td').
Proof.
  assert (E : draw C self = plot_build C self ≫= draw_built).
  { unfold draw, draw_built. f_equal. }
  rewrite E. pose proof (Only_plot_build self h) as Hb.
  unfold mbind, St_bind, st_bind, trace_of in *.
  destruct (plot_build C self h) as [[h1 t1] [x|e]]; simpl in *.
  - destruct (draw_built_run x h1) as [Hd Hs]. unfold trace_of in *.
    destruct (draw_built x h1) as [[h2 t2] r]. simpl in *. by exists t2.
  - exists []. rewrite app_nil_r. split; [done|]. split; [done|].
    split; [apply Forall_nil_2|by left].
Qed.

Lemma Only_draw_legend self plot : Only (during Legend) (draw_legend C self plot).
Proof.
  unfold draw_legend.
  apply Only_bind; [by apply Only_with_plot, Only_call|]. intros [box|].
  2:{ apply Only_reads, reads_ret. }
  apply Only_bind; [apply Only_reads, reads_getattr|]. intros tl.
  apply Only_bind; [apply Only_reads, reads_load_Theme|]. intros theme.
  apply Only_bind; [apply Only_reads, reads_lift|]. intros [loc_code anchor].
  apply Only_bind; [apply Only_reads, reads_getattr|]. intros g.
  apply Only_bind; [apply Only_reads, reads_load_Fig|]. intros _.
  apply Only_bind; [apply Only_reads, reads_getattr|]. intros a.
  apply Only_bind; [apply Only_reads, reads_load_Axs|]. intros axs.
  apply Only_bind; [apply Only_reads, reads_lift|]. intros ax.
  apply Only_bind; [by apply Only_emit|]. intros _.
  apply Only_reads, reads_ret.
Qed.

(** The body of the [with] statement of [render]: a build, a drawing and a
    legend, in this order. *)
Lemma render_body_run self (h : heap) :
  exists hb tb td tg r,
    (draw C self ≫= fun plot => draw_legend C self plot) h =
      (hb, tb ++ td ++ tg, r) /\
    Forall (during Building) tb /\ Forall (during Drawing) td /\
    Forall (during Legend) tg.
Proof.
  assert (E : draw C self = plot_build C self ≫= draw_built).
  { unfold draw, draw_built. f_equal. }
  rewrite E. pose proof (Only_plot_build self h) as Hb.
  unfold mbind, St_bind, st_bind, trace_of in *.
  destruct (plot_build C self h) as [[h1 t1] [x|e]]; simpl in *.
  2:{ exists h1, t1, [], [], (Raise e). rewrite !app_nil_r.
      split; [done|]. split; [done|]. split; apply Forall_nil_2. }
  destruct (draw_built_run x h1) as [Hd _]. unfold trace_of in Hd.
  destruct (draw_built x h1) as [[h2 t2] [plot|e]]; simpl in *.
  2:{ exists h2, t1, t2, [], (Raise e). rewrite !app_nil_r.
      split; [done|]. split; [done|]. split; [done|apply Forall_nil_2]. }
  pose proof (Only_draw_legend self plot h2) as Hl. unfold trace_of in Hl.
  destruct (draw_legend C self plot h2) as [[h3 t3] r]. simpl in *.
  exists h3, t1, t2, t3, r. by rewrite app_assoc.
Qed.

Lemma with_context_run {S A} ev1 ev2 (body : St S A) s :
  with_context (emit ev1) (emit ev2) body s =
    (let '(s1, t1, r) := body s in (s1, ev1 :: t1 ++ [ev2], r)).
Proof.
  unfold with_context. rewrite emit_bind. by destruct (body s) as [[??]?].
Qed.

(** X7. [render] closes the figures first; when it can read the theme of
    [self] it enters the context of that theme once and leaves it once,
    whether the body raises or not, and in between come the events of the
    build, then those of the drawing, then those of the legend.
    [plt.gcf] is called only when the body has returned, and then
    [__repr__] calls [plt.show], after everything else. *)
Theorem render_enters_and_leaves_the_context (self : loc) (h : heap) :
  (exists e,
     render C self h = (h, [PltCloseAll], Raise e) /\
     ggplot_repr C self h = (h, [PltCloseAll], Raise e)) \/
  (exists tl th h1 tb td tg rb,
     getattr self "theme" h = (h, [], Ok tl) /\
     load_Theme tl h = (h, [], Ok th) /\
     Forall (during Building) tb /\ Forall (during Drawing) td /\
     Forall (during Legend) tg /\
     render C self h =
       (h1, [PltCloseAll; GgContextEnter th] ++ tb ++ td ++ tg ++
            GgContextExit :: (if is_ok rb then [PltGcf] else []),
        rb) /\
     ggplot_repr C self h =
       (h1, [PltCloseAll; GgContextEnter th] ++ tb ++ td ++ tg ++
            GgContextExit :: (if is_ok rb then [PltGcf; PltShow] else []),
        match rb with Ok _ => Ok self | Raise e => Raise e end)).
Proof.
  destruct (reads_getattr self "theme" h) as [[tl|e] E1].
  2:{ left. exists e.
      assert (R : render C self h = (h, [PltCloseAll], Raise e)).
      { unfold render. rewrite emit_bind. by rewrite (bind_raise _ _ _ _ _ _ E1). }
      split; [done|]. unfold ggplot_repr. by rewrite (bind_raise _ _ _ _ _ _ R). }
  destruct (reads_load_Theme tl h) as [[th|e] E2].
  2:{ left. exists e.
      assert (R : render C self h = (h, [PltCloseAll], Raise e)).
      { unfold render. rewrite emit_bind, (bind_nil _ _ _ _ _ E1).
        by rewrite (bind_raise _ _ _ _ _ _ E2). }
      split; [done|]. unfold ggplot_repr. by rewrite (bind_raise _ _ _ _ _ _ R). }
  right.
  destruct (render_body_run self h) as (hb & tb & td & tg & r & E & Hb & Hd & Hl).
  exists tl, th, hb, tb, td, tg,
    (match r with Ok _ => Ok CurrentFigure | Raise e => Raise e end).
  split; [done|]. split; [done|]. split; [done|]. split; [done|]. split; [done|].
  assert (R : render C self h =
     (hb, [PltCloseAll; GgContextEnter th] ++ tb ++ td ++ tg ++
          GgContextExit :: (if is_ok r then [PltGcf] else []),
      match r with Ok _ => Ok CurrentFigure | Raise e => Raise e end)).
  { assert (W : with_context (emit (GgContextEnter th)) (emit GgContextExit)
                  (draw C self ≫= fun plot => draw_legend C self plot) h =
                (hb, GgContextEnter th :: (tb ++ td ++ tg) ++ [GgContextExit], r)).
    { by rewrite with_context_run, E. }
    unfold render. rewrite emit_bind.
    rewrite (bind_nil _ _ _ _ _ E1), (bind_nil _ _ _ _ _ E2).
    destruct r as [plot|e]; simpl.
    - rewrite (bind_ok _ _ _ _ _ _ W), emit_bind. simpl.
      by rewrite <- !app_assoc.
    - rewrite (bind_raise _ _ _ _ _ _ W). by rewrite <- !app_assoc. }
  split.
  - rewrite R. by destruct r.
  - unfold ggplot_repr. destruct r as [plot|e]; simpl in *.
    + rewrite (bind_ok _ _ _ _ _ _ R), emit_bind. simpl.
      by rewrite <- !app_assoc.
    + by rewrite (bind_raise _ _ _ _ _ _ R).
Qed.

(** ** What is done to the axes of a panel *)

Lemma bind_lift_inv {S A B} (r : result A) (f : A -> St S B) s s' t b :
  (lift r ≫= f) s = (s', t, Ok b) ->
  exists a, r = Ok a /\ f a s = (s', t, Ok b).
Proof. rewrite lift_bind. destruct r as [a|e]; [|done]. by exists a. Qed.

Lemma bind_emit_inv {S B} ev (f : unit -> St S B) s s' t b :
  (emit ev ≫= f) s = (s', t, Ok b) ->
  exists t', t = ev :: t' /\ f tt s = (s', t', Ok b).
Proof.
  rewrite emit_bind. destruct (f tt s) as [[s2 t2] r2].
  intros [= <- <- ->]. by exists t2.
Qed.

Lemma bind_run_inv {S A B} (m : St S A) (f : A -> St S B) s s1 t1 a s' t b :
  m s = (s1, t1, Ok a) -> (m ≫= f) s = (s', t, Ok b) ->
  exists t2, t = t1 ++ t2 /\ f a s1 = (s', t2, Ok b).
Proof.
  intros E1 E. rewrite (bind_ok _ _ _ _ _ _ E1) in E.
  destruct (f a s1) as [[s2 t2] r2]. injection E as <- <- ->. by exists t2.
Qed.

Lemma when_emit_run {S} (b : bool) ev (s : S) :
  when b (emit ev) s = (s, if b then [ev] else [], Ok tt).
Proof. by destruct b. Qed.

(** The parameters that [set_axis_attributes] hands to the theme: ticks at
    the bottom on the last row of the grid, on the left in the first
    column, none elsewhere, where the tick labels are emptied as well. *)
Definition xaxis_params (f : Facet) (row : value) : axis_params :=
  if value_eqb row (VInt (nrow f))
  then [("set_ticks_position", Some "bottom")]%string
  else [("set_ticks_position", Some "none"); ("set_ticklabels", None)]%string.

Definition yaxis_params (col : value) : axis_params :=
  if value_eqb col (VInt 1)
  then [("set_ticks_position", Some "left")]%string
  else [("set_ticks_position", Some "none"); ("set_ticklabels", None)]%string.

Lemma set_axis_attributes_inv pnl ax (w w' : World) t :
  set_axis_attributes pnl ax w = (w', t, Ok tt) ->
  exists row col,
    series_get pnl "ROW" = Ok row /\ series_get pnl "COL" = Ok col /\
    w' = w /\
    t = [PostPlotCallback ax (xaxis_params (p_facet (w_plot w)) row)
                          (yaxis_params col)].
Proof.
  unfold set_axis_attributes. intros E.
  apply bind_lift_inv in E as (row & Hrow & E). rewrite gets_bind in E.
  apply bind_lift_inv in E as (col & Hcol & E).
  injection E as <- <-. by exists row, col.
Qed.

(** The ticks and tick labels that [set_breaks] and [set_labels] set for an
    entry of [panel.ranges]: those that are not waived. *)
Definition ticks_of (rg : Ranges) (ax : nat) : list event :=
  ((if is_waive (x_breaks rg) then [] else [SetXticks ax (x_breaks rg)]) ++
   (if is_waive (y_breaks rg) then [] else [SetYticks ax (y_breaks rg)])) ++
  ((if is_waive (x_labels rg) then [] else [SetXticklabels ax (x_labels rg)]) ++
   (if is_waive (y_labels rg) then [] else [SetYticklabels ax (y_labels rg)])).

(** The strips that [draw] puts on the axes of a panel: none without
    facets; with [facet_wrap] one on top, labelled with the panel's value
    of the first facetting variable; with [facet_grid] one on top in the
    first row, for the first variable of the columns, and one on the
    right in the last column, for the first variable of the rows. *)
Definition strip (ax : nat) (side : string) (vars : list string)
    (pnl : Series) (evs : list event) : Prop :=
  exists var v,
    py_index vars 0 = Ok var /\ series_get pnl var = Ok v /\
    evs = [AxText ax side v].

Definition panel_strips (f : Facet) (ax : nat) (pnl : Series)
    (evs : list event) : Prop :=
  match facet_cls f with
  | FacetNull => evs = []
  | FacetWrap => strip ax "top" (facet_vars f) pnl evs
  | FacetGrid =>
      exists row col top right,
        series_get pnl "ROW" = Ok row /\ series_get pnl "COL" = Ok col /\
        (if value_eqb row (VInt 1)
         then strip ax "top" (facet_cols f) pnl top else top = []) /\
        (if value_eqb col (VInt (ncol f))
         then strip ax "right" (facet_rows f) pnl right else right = []) /\
        evs = top ++ right
  end.

Lemma facet_label_inv pnl ax fig (w w' : World) t :
  when (is_grid (p_facet (w_plot w)) || is_wrap (p_facet (w_plot w)))
       (draw_facet_label pnl ax fig) w = (w', t, Ok tt) ->
  w' = w /\ panel_strips (p_facet (w_plot w)) ax pnl t.
Proof.
  unfold panel_strips, is_grid, is_wrap, draw_facet_label.
  destruct (facet_cls (p_facet (w_plot w))) eqn:Ecls; simpl.
  - by intros [= <- <-].
  - (* facet_grid *)
    unfold is_grid, is_wrap. rewrite gets_bind, Ecls. intros E.
    rewrite ?bind_assoc in E.
    apply bind_lift_inv in E as (row & Hrow & E).
    destruct (value_eqb row (VInt 1)) eqn:Er; simpl in E.
    + rewrite ?ret_bind in E. cbv beta iota in E.
      apply bind_lift_inv in E as (row' & Hrow' & E).
      rewrite Hrow in Hrow'. injection Hrow' as <-. rewrite Er in E.
      rewrite ?bind_assoc in E.
      apply bind_lift_inv in E as (var & Hvar & E). rewrite ?bind_assoc in E.
      apply bind_lift_inv in E as (v & Hv & E). rewrite ?bind_assoc in E.
      apply bind_emit_inv in E as (t' & -> & E). rewrite ?ret_bind in E.
      apply bind_lift_inv in E as (col & Hcol & E).
      destruct (value_eqb col (VInt (ncol (p_facet (w_plot w))))) eqn:Ec.
      * apply bind_lift_inv in E as (var2 & Hvar2 & E).
        apply bind_lift_inv in E as (v2 & Hv2 & E).
        injection E as <- <-. split; [done|].
        exists row, col, [AxText ax "top" v], [AxText ax "right" v2].
        rewrite Er, Ec. split; [done|]. split; [done|].
        split; [by exists var, v|]. split; [by exists var2, v2|done].
      * injection E as <- <-. split; [done|].
        exists row, col, [AxText ax "top" v], [].
        rewrite Er, Ec. split; [done|]. split; [done|].
        split; [by exists var, v|]. by split.
    + rewrite ?bind_assoc in E.
      apply bind_lift_inv in E as (col & Hcol & E). rewrite ?ret_bind in E.
      destruct (value_eqb col (VInt (ncol (p_facet (w_plot w))))) eqn:Ec;
        simpl in E.
      * apply bind_lift_inv in E as (row' & Hrow' & E).
        rewrite Hrow in Hrow'. injection Hrow' as <-. rewrite Er in E.
        rewrite ?ret_bind in E.
        apply bind_lift_inv in E as (col' & Hcol' & E).
        rewrite Hcol in Hcol'. injection Hcol' as <-. rewrite Ec in E.
        apply bind_lift_inv in E as (var2 & Hvar2 & E).
        apply bind_lift_inv in E as (v2 & Hv2 & E).
        injection E as <- <-. split; [done|].
        exists row, col, [], [AxText ax "right" v2].
        rewrite Er, Ec. split; [done|]. split; [done|].
        split; [done|]. split; [by exists var2, v2|done].
      * injection E as <- <-. split; [done|].
        exists row, col, [], []. rewrite Er, Ec. by repeat split.
  - (* facet_wrap *)
    unfold is_grid, is_wrap. rewrite gets_bind, Ecls, ret_bind. simpl.
    intros E.
    apply bind_lift_inv in E as (var & Hvar & E).
    apply bind_lift_inv in E as (v & Hv & E).
    injection E as <- <-. split; [done|]. by exists var, v.
Qed.

(** What [draw] does on the axes [ax] for the row [pnl] of the layout, in
    order: the layers are plotted; the limits are those of the entry of
    [panel.ranges] of index [PANEL - 1]; then come the ticks and their
    labels, the call to the theme, the minor grid of a discrete scale, and
    the strips. *)
Definition panel_events (w : World) (data : list DataFrame) (ax : nat)
    (pnl : Series) (evs : list event) : Prop :=
  exists pid ix iy sx sy rg row col strips,
    series_get pnl "PANEL" = Ok (VInt pid) /\
    series_get pnl "SCALE_X" = Ok (VInt ix) /\
    series_get pnl "SCALE_Y" = Ok (VInt iy) /\
    py_index (x_scales (w_panel w)) (ix - 1) = Ok sx /\
    py_index (y_scales (w_panel w)) (iy - 1) = Ok sy /\
    py_index (ranges (w_panel w)) (pid - 1) = Ok rg /\
    series_get pnl "ROW" = Ok row /\
    series_get pnl "COL" = Ok col /\
    panel_strips (p_facet (w_plot w)) ax pnl strips /\
    evs =
      imap (plot_call (VInt pid) sx sy ax 1)
           (combine (p_layers (w_plot w)) data) ++
      [SetXlim ax (r_x rg); SetYlim ax (r_y rg)] ++
      ticks_of rg ax ++
      [PostPlotCallback ax (xaxis_params (p_facet (w_plot w)) row)
                        (yaxis_params col)] ++
      (if is_scale_discrete C sx then [GridMinorOff ax "x"] else []) ++
      (if is_scale_discrete C sy then [GridMinorOff ax "y"] else []) ++
      strips.

Lemma draw_panel_events data fig ax pnl (w w' : World) t :
  draw_panel C data fig ax pnl w = (w', t, Ok tt) ->
  w' = w /\ panel_events w data ax pnl t.
Proof.
  unfold draw_panel. intros E.
  apply bind_lift_inv in E as (pid & E1 & E).
  apply bind_lift_inv in E as (panel_idx & E2 & E).
  rewrite gets_bind in E.
  apply bind_lift_inv in E as (vx & E3 & E).
  apply bind_lift_inv in E as (ix & E4 & E).
  apply bind_lift_inv in E as (sx & E5 & E).
  apply bind_lift_inv in E as (vy & E6 & E).
  apply bind_lift_inv in E as (iy & E7 & E).
  apply bind_lift_inv in E as (sy & E8 & E).
  rewrite gets_bind in E.
  apply bind_ok_inv in E as (w1 & t1 & [] & t2 & EL & E & ->).
  destruct (draw_layers_run _ _ _ _ _ _ _ _ _ _ E1 EL) as [-> ->].
  apply bind_lift_inv in E as (rg & E9 & E).
  apply bind_emit_inv in E as (t3 & -> & E).
  apply bind_lift_inv in E as (rg' & E9' & E).
  rewrite E9 in E9'. injection E9' as <-.
  apply bind_emit_inv in E as (t4 & -> & E).
  destruct (bind_run_inv _ _ _ _ _ _ _ _ _ (set_breaks_run _ _ ax _ w E9) E)
    as (t5 & -> & E').
  clear E. rename E' into E.
  destruct (bind_run_inv _ _ _ _ _ _ _ _ _ (set_labels_run _ _ ax _ w E9) E)
    as (t6 & -> & E').
  clear E. rename E' into E.
  apply bind_ok_inv in E as (w2 & t7 & [] & t8 & EA & E & ->).
  apply set_axis_attributes_inv in EA as (row & col & Hrow & Hcol & -> & ->).
  destruct (bind_run_inv _ _ _ _ _ _ _ _ _ (when_emit_run _ _ w) E)
    as (t9 & -> & E').
  clear E. rename E' into E.
  destruct (bind_run_inv _ _ _ _ _ _ _ _ _ (when_emit_run _ _ w) E)
    as (t10 & -> & E').
  clear E. rename E' into E.
  rewrite gets_bind in E.
  apply facet_label_inv in E as (-> & Hstrips).
  split; [done|].
  apply value_pred_inv in E2 as ->. apply value_pred_inv in E4 as ->.
  apply value_pred_inv in E7 as ->.
  exists (panel_idx + 1), (ix + 1), (iy + 1), sx, sy, rg, row, col, t10.
  replace (panel_idx + 1 - 1) with panel_idx by lia.
  replace (ix + 1 - 1) with ix by lia. replace (iy + 1 - 1) with iy by lia.
  split; [done|]. split; [done|]. split; [done|]. split; [done|].
  split; [done|]. split; [done|]. split; [done|]. split; [done|].
  split; [done|].
  unfold ticks_of. simpl. by rewrite <- !app_assoc.
Qed.

Lemma draw_panels_events data fig zipped (w w' : World) t :
  draw_panels C data fig zipped w = (w', t, Ok tt) ->
  w' = w /\
  exists evss, t = concat evss /\
    Forall2 (fun ap evs => panel_events w data ap.1 ap.2 evs) zipped evss.
Proof.
  revert t. induction zipped as [|[ax pnl] rest IH]; intros t; simpl.
  - intros [= <- <-]. split; [done|]. exists []. by split.
  - intros E.
    apply bind_ok_inv in E as (w1 & t1 & [] & t2 & E1 & E & ->).
    destruct (draw_panel_events _ _ _ _ _ _ _ E1) as [-> P1].
    destruct (IH _ E) as (-> & evss & -> & F). split; [done|].
    exists (t1 :: evss). split; [done|]. by constructor.
Qed.

(** ** The transforms of the position scales *)

(** The transforms of the scales [scs] run on the axes one after the other
    and take what the plot holds from [p] to [p']; each of them returns or
    raises an [AttributeError]. *)
Inductive passes (axs : list nat) : list Scale -> PlotC -> PlotC -> Prop :=
| passes_nil p : passes axs [] p p
| passes_cons sc scs p p1 p' r :
    trans_modify_axis C sc axs p = (p1, r) ->
    match r with Ok _ => True | Raise e => is_AttributeError e = true end ->
    passes axs scs p1 p' ->
    passes axs (sc :: scs) p p'.

Definition can_modify (pscales : list Scale) : list Scale :=
  filter (fun sc => has_modify_axis C sc = true) pscales.

Lemma passes_snoc axs scs sc p p1 p' r :
  passes axs scs p p1 ->
  trans_modify_axis C sc axs p1 = (p', r) ->
  match r with Ok _ => True | Raise e => is_AttributeError e = true end ->
  passes axs (scs ++ [sc]) p p'.
Proof.
  intros H E Hr. induction H as [p|sc0 scs p p0 p1 r0 E0 Hr0 H IH]; simpl.
  - econstructor; [exact E|exact Hr|constructor].
  - econstructor; [exact E0|exact Hr0|by apply IH].
Qed.

(** One turn of the loop of [modify_axis]. *)
Lemma modify_one_run axs sc (w : World) :
  pass_AttributeError (call_modify_axis C sc axs) w =
    if has_modify_axis C sc then
      match trans_modify_axis C sc axs (w_plot w) with
      | (p', Ok _) => (mkWorld p' (w_panel w), [TransModifyAxis sc axs], Ok tt)
      | (p', Raise e) =>
          (mkWorld p' (w_panel w), [TransModifyAxis sc axs],
           if is_AttributeError e then Ok tt else Raise e)
      end
    else (w, [], Ok tt).
Proof.
  unfold pass_AttributeError, call_modify_axis, on_plot, zoom.
  destruct (has_modify_axis C sc); [|done].
  destruct (trans_modify_axis C sc axs (w_plot w)) as [p' [[]|e]]; [done|].
  by destruct (is_AttributeError e).
Qed.

(** The loop of [modify_axis] over the position scales. *)
Lemma modify_each_inv axs pscales :
  forall (w w' : World) t (r : result (list unit)),
  mapM (fun sc => pass_AttributeError (call_modify_axis C sc axs)) pscales w =
    (w', t, r) ->
  w_panel w' = w_panel w /\
  match r with
  | Ok _ =>
      passes axs (can_modify pscales) (w_plot w) (w_plot w') /\
      t = map (fun sc => TransModifyAxis sc axs) (can_modify pscales)
  | Raise e =>
      is_AttributeError e = false /\
      exists pre sc post p,
        can_modify pscales = pre ++ sc :: post /\
        passes axs pre (w_plot w) p /\
        trans_modify_axis C sc axs p = (w_plot w', Raise e) /\
        t = map (fun sc => TransModifyAxis sc axs) (pre ++ [sc])
  end.
Proof.
  induction pscales as [|sc rest IH]; intros w w' t r; simpl.
  { intros [= <- <- <-]. split; [done|]. split; [constructor|done]. }
  intros E. unfold can_modify in *. rewrite filter_cons.
  apply bind_inv in E as [(e & E & ->) | (w1 & t1 & [] & t2 & E1 & E & ->)].
  - (* this transform raises *)
    rewrite modify_one_run in E.
    destruct (has_modify_axis C sc) eqn:Eh; [|done].
    destruct (trans_modify_axis C sc axs (w_plot w)) as [p' [[]|e0]] eqn:Et;
      [done|].
    destruct (is_AttributeError e0) eqn:Ea; [done|].
    injection E as <- <- <-. split; [done|]. split; [done|].
    rewrite decide_True by done.
    exists [], sc, (filter (fun sc => has_modify_axis C sc = true) rest),
      (w_plot w).
    split; [done|]. split; [constructor|]. by split.
  - apply bind_inv in E as [(e & E & ->) | (w2 & t3 & ys & t4 & E2 & E & ->)].
    + (* a later transform raises *)
      destruct (IH _ _ _ _ E) as (Hp & Ha & pre & sc' & post & p & Hf & Hpre & Et & ->).
      rewrite modify_one_run in E1.
      destruct (has_modify_axis C sc) eqn:Eh.
      * destruct (trans_modify_axis C sc axs (w_plot w)) as [p1 r1] eqn:E0.
        assert (w1 = mkWorld p1 (w_panel w) /\ t1 = [TransModifyAxis sc axs] /\
                match r1 with
                | Ok _ => True
                | Raise e => is_AttributeError e = true
                end) as (-> & -> & Hr1).
        { destruct r1 as [[]|e1]; [by injection E1 as <- <-|].
          destruct (is_AttributeError e1) eqn:Ea; [|done].
          by injection E1 as <- <-. }
        split; [done|]. split; [done|]. rewrite decide_True by done.
        exists (sc :: pre), sc', post, p. rewrite Hf.
        split; [done|]. split; [by econstructor|]. by split.
      * injection E1 as <- <-. split; [done|]. split; [done|].
        rewrite decide_False by congruence.
        by exists pre, sc', post, p.
    + (* the loop returns *)
      injection E as <- <- <-.
      destruct (IH _ _ _ _ E2) as (Hp & Hpass & ->).
      rewrite modify_one_run in E1. rewrite app_nil_r.
      destruct (has_modify_axis C sc) eqn:Eh.
      * destruct (trans_modify_axis C sc axs (w_plot w)) as [p1 r1] eqn:E0.
        assert (w1 = mkWorld p1 (w_panel w) /\ t1 = [TransModifyAxis sc axs] /\
                match r1 with
                | Ok _ => True
                | Raise e => is_AttributeError e = true
                end) as (-> & -> & Hr1).
        { destruct r1 as [[]|e1]; [by injection E1 as <- <-|].
          destruct (is_AttributeError e1) eqn:Ea; [|done].
          by injection E1 as <- <-. }
        split; [done|]. rewrite decide_True by done.
        split; [by econstructor|done].
      * injection E1 as <- <-. rewrite decide_False by congruence. by split.
Qed.

(** X8. [modify_axis] asks the scales for the position scales and, in
    their order, calls the transform of each one that has a [modify_axis],
    with all the axes.  Only an [AttributeError] is passed over: that of a
    scale without such a transform, and one that a transform raises itself.
    So a run that [position_scales] lets go on either returns, after the
    transforms of all the scales that have one have been called, or raises
    what one transform raised, which is no [AttributeError]: the scales
    after that one are not reached, and what the transforms did before
    stays done. *)
Theorem modify_axis_passes_only_AttributeError (axs : list nat)
    (w w' : World) (t : list event) (res : result unit) :
  modify_axis C axs w = (w', t, res) ->
  w_panel w' = w_panel w /\
  match position_scales C (w_plot w) with
  | (p0, Raise e) =>
      w_plot w' = p0 /\ t = [Call PositionScales] /\ res = Raise e
  | (p0, Ok pscales) =>
      match res with
      | Ok _ =>
          passes axs (can_modify pscales) p0 (w_plot w') /\
          t = Call PositionScales ::
                map (fun sc => TransModifyAxis sc axs) (can_modify pscales)
      | Raise e =>
          is_AttributeError e = false /\
          exists pre sc post p,
            can_modify pscales = pre ++ sc :: post /\
            passes axs pre p0 p /\
            trans_modify_axis C sc axs p = (w_plot w', Raise e) /\
            t = Call PositionScales ::
                  map (fun sc => TransModifyAxis sc axs) (pre ++ [sc])
      end
  end.
Proof.
  unfold modify_axis. intros E.
  destruct (position_scales C (w_plot w)) as [p0 [pscales|e]] eqn:EP.
  - assert (E1 : on_plot (call PositionScales (position_scales C)) w =
                 (mkWorld p0 (w_panel w), [Call PositionScales], Ok pscales)).
    { unfold on_plot, zoom, call. by rewrite EP. }
    rewrite (bind_ok _ _ _ _ _ _ E1) in E.
    destruct (mapM (fun sc => pass_AttributeError (call_modify_axis C sc axs))
                   pscales (mkWorld p0 (w_panel w))) as [[w2 t2] r2] eqn:E2.
    destruct (modify_each_inv _ _ _ _ _ _ E2) as (Hp & H).
    destruct r2 as [ys|e].
    + rewrite (bind_ok _ _ _ _ _ _ E2) in E. injection E as <- <- <-.
      destruct H as (Hpass & ->). split; [done|]. split; [done|].
      by rewrite app_nil_r.
    + rewrite (bind_raise _ _ _ _ _ _ E2) in E. injection E as <- <- <-.
      destruct H as (Ha & pre & sc & post & p & Hf & Hpre & Et & ->).
      split; [done|]. split; [done|]. by exists pre, sc, post, p.
  - assert (E1 : on_plot (call PositionScales (position_scales C)) w =
                 (mkWorld p0 (w_panel w), [Call PositionScales], Raise e)).
    { unfold on_plot, zoom, call. by rewrite EP. }
    rewrite (bind_raise _ _ _ _ _ _ E1) in E. by injection E as <- <- <-.
Qed.

(** X9. A drawing that returns has done this, in order: for each pair of
    an axes and a row of the layout table, as long as there are both, the
    [panel_events] of that panel on that axes; then one call to
    [plt.subplots_adjust], with more room between the rows under
    [facet_wrap]; then [modify_axis]: the position scales are asked for,
    and the transform of each one that has a [modify_axis] is called with
    the whole list of the axes, those left without a row of the layout
    included; each of these calls returned or raised an [AttributeError]. *)
Theorem draw_body_in_order (data : list DataFrame) (fig : figure)
    (axs : list nat) (w w' : World) (t : list event) :
  draw_body C data fig axs w = (w', t, Ok tt) ->
  exists evss p0 pscales,
    Forall2 (fun ap evs => panel_events w data ap.1 ap.2 evs)
            (combine axs (iterrows (layout (w_panel w)))) evss /\
    length evss = Nat.min (length axs) (length (rows (layout (w_panel w)))) /\
    position_scales C (w_plot w) = (p0, Ok pscales) /\
    passes axs (can_modify pscales) p0 (w_plot w') /\
    w_panel w' = w_panel w /\
    t = concat evss ++
        [SubplotsAdjust 5 (if is_wrap (p_facet (w_plot w)) then 20 else 5)] ++
        Call PositionScales ::
          map (fun sc => TransModifyAxis sc axs) (can_modify pscales).
Proof.
  unfold draw_body. rewrite gets_bind. intros E.
  apply bind_ok_inv in E as (w1 & t1 & [] & t2 & E1 & E & ->).
  destruct (draw_panels_events _ _ _ _ _ _ E1) as (-> & evss & -> & F).
  apply bind_ok_inv in E as (w2 & t3 & [] & t4 & E2 & E & ->).
  assert (w2 = w /\
          t3 = [SubplotsAdjust 5 (if is_wrap (p_facet (w_plot w)) then 20 else 5)])
    as [-> ->].
  { unfold set_facet_spacing in E2. rewrite gets_bind in E2.
    destruct (is_wrap (p_facet (w_plot w))); by injection E2 as <- <-. }
  unfold modify_axis in E.
  apply bind_ok_inv in E as (w3 & t5 & pscales & t6 & E3 & E & ->).
  apply bind_ok_inv in E as (w4 & t7 & ys & t8 & E4 & E & ->).
  injection E as <- <-.
  unfold on_plot, zoom, call in E3.
  destruct (position_scales C (w_plot w)) as [p0 r0] eqn:EP.
  injection E3 as <- <- ->.
  destruct (modify_each_inv _ _ _ _ _ _ E4) as (Hp & Hpass & ->).
  exists evss, p0, pscales. split; [done|]. split.
  { rewrite <- (Forall2_length _ _ _ F).
    by rewrite combine_zip, length_zip_with, length_iterrows. }
  split; [done|]. split; [done|]. split; [done|]. by rewrite app_nil_r.
Qed.

(** ** The store after a build, a drawing and a render *)

(** An object that is neither the plot's data frame nor the environment
    is in [hx] what it was in [h]. *)
Definition preserved (h : heap) (d : gmap string loc) (hx : heap) : Prop :=
  forall l o, h !! l = Some o -> ~ is_shared d l -> hx !! l = Some o.

Lemma preserved_sub (h hx : heap) d : h ⊆ hx -> preserved h d hx.
Proof. intros Hs l o Hl _. by eapply lookup_weaken. Qed.

Lemma kept_preserved (h hx : heap) d plot : kept h d plot hx -> preserved h d hx.
Proof. by intros (_ & _ & K3 & _). Qed.

Lemma deepcopy_kept self (h h1 : heap) d t1 plot :
  h !! self = Some (OInstance d) ->
  deepcopy_plot self h = (h1, t1, Ok plot) ->
  kept h d plot h1.
Proof.
  intros Hs ED.
  destruct (deepcopy_plot_spec _ _ _ _ _ _ Hs ED)
    as (_ & Hp & Hsub & d' & Hp' & Hn & Hc).
  split; [done|]. split.
  { intros l [o Hl]. exists o. by eapply lookup_weaken. }
  split; [intros l o Hl _; by eapply lookup_weaken|].
  exists d'. split; [done|]. intros key v Hv.
  destruct (d !! key) as [item|] eqn:Ek.
  - destruct (Hc _ _ Ek) as (v' & Hv' & Hcp). rewrite Hv in Hv'.
    injection Hv' as <-. unfold copy_of in Hcp.
    destruct (in_shallow key) eqn:Esh.
    + subst v. right. by exists key.
    + left. by destruct Hcp.
  - rewrite (Hn _ Ek) in Hv. discriminate.
Qed.

Lemma plot_build_preserves self (h h2 : heap) d t res :
  h !! self = Some (OInstance d) ->
  plot_build C self h = (h2, t, res) ->
  preserved h d h2 /\
  forall data panel plot, res = Ok (data, panel, plot) -> kept h d plot h2.
Proof.
  intros Hs E. apply plot_build_inv in E as [(-> & _ & e & ->) | E].
  { split; [by apply preserved_sub|done]. }
  destruct E as (l0 & ls & h1 & t1 & r1 & _ & ED & E).
  destruct r1 as [plot|e].
  2:{ destruct E as (-> & _ & ->). split; [|done].
      apply deepcopy_plot_inv in ED as (t' & _ & ED).
      by apply preserved_sub, (ggplot_deepcopy_keeps _ _ _ _ _ ED). }
  destruct E as (t2 & r2 & EW & _ & ->).
  pose proof (deepcopy_kept _ _ _ _ _ _ Hs ED) as K.
  pose proof (kept_with_plot _ _ _ _ _ _ _ _ K EW) as K'.
  split; [by eapply kept_preserved|].
  intros data panel plot'. destruct r2 as [[??]|]; [|done].
  by intros [= _ _ <-].
Qed.

Lemma draw_built_kept (h hx h2 : heap) d data panel plot t r :
  kept h d plot hx ->
  draw_built (data, panel, plot) hx = (h2, t, r) ->
  kept h d plot h2.
Proof.
  intros K E. unfold draw_built in E.
  apply bind_inv in E as [(e & E & _) | (h1 & t1 & fl & t2 & E1 & E & _)].
  { by apply reads_inv in E as [-> _]; [|apply reads_getattr]. }
  apply reads_inv in E1 as [-> _]; [|apply reads_getattr].
  apply bind_inv in E as [(e & E & _) | (h1 & t3 & f & t4 & E1 & E & _)].
  { by apply reads_inv in E as [-> _]; [|apply reads_load_Facet]. }
  apply reads_inv in E1 as [-> _]; [|apply reads_load_Facet].
  apply bind_inv in E as [(e & E & _) | (h1 & t5 & [fig axs] & t6 & E1 & E & _)].
  { by apply plt_subplots_still in E as ->. }
  apply plt_subplots_still in E1 as ->.
  rewrite (bind_nil _ _ _ _ _ (alloc_run _ _)) in E.
  destruct (kept_alloc _ _ _ _ (OAxs axs) K) as [K1 Ha].
  destruct (kept_setattr _ _ _ _ "axs" _ K1 Ha) as (h3 & E3 & K3).
  rewrite (bind_nil _ _ _ _ _ E3) in E.
  rewrite (bind_nil _ _ _ _ _ (alloc_run _ _)) in E.
  destruct (kept_alloc _ _ _ _ (OFig fig) K3) as [K4 Hg].
  destruct (kept_setattr _ _ _ _ "fig" _ K4 Hg) as (h5 & E5 & K5).
  rewrite (bind_nil _ _ _ _ _ E5) in E.
  apply bind_inv in E as [(e & E & _) | (h6 & t7 & x & t8 & EW & E & _)].
  { by eapply kept_with_plot. }
  injection E as <- _ _. by eapply kept_with_plot.
Qed.

Lemma draw_is_build_then_draw self : draw C self = plot_build C self ≫= draw_built.
Proof. unfold draw, draw_built. f_equal. Qed.

Lemma draw_preserves self (h h2 : heap) d t r :
  h !! self = Some (OInstance d) ->
  draw C self h = (h2, t, r) ->
  preserved h d h2 /\ forall plot, r = Ok plot -> kept h d plot h2.
Proof.
  intros Hs E. rewrite draw_is_build_then_draw in E.
  apply bind_inv in E as [(e & E & ->) | (h1 & t1 & [[data panel] plot] & t2 & E1 & E & _)].
  { split; [|done]. by destruct (plot_build_preserves _ _ _ _ _ _ Hs E). }
  destruct (plot_build_preserves _ _ _ _ _ _ Hs E1) as [_ K].
  specialize (K _ _ _ eq_refl).
  pose proof (draw_built_kept _ _ _ _ _ _ _ _ _ K E) as K'.
  split; [by eapply kept_preserved|].
  intros plot' ->. unfold draw_built in E.
  apply bind_reads_inv in E as (? & _ & E); [|apply reads_getattr].
  apply bind_reads_inv in E as (? & _ & E); [|apply reads_load_Facet].
  apply bind_ok_inv in E as (? & ? & [??] & ? & _ & E & _).
  apply bind_ok_inv in E as (? & ? & ? & ? & _ & E & _).
  apply bind_ok_inv in E as (? & ? & ? & ? & _ & E & _).
  apply bind_ok_inv in E as (? & ? & ? & ? & _ & E & _).
  apply bind_ok_inv in E as (? & ? & ? & ? & _ & E & _).
  apply bind_ok_inv in E as (? & ? & ? & ? & _ & E & _).
  by injection E as _ _ <-.
Qed.

Lemma render_body_preserves self (h h2 : heap) d t r :
  h !! self = Some (OInstance d) ->
  (draw C self ≫= fun plot => draw_legend C self plot) h = (h2, t, r) ->
  preserved h d h2.
Proof.
  intros Hs E.
  apply bind_inv in E as [(e & E & ->) | (h1 & t1 & plot & t2 & E1 & E & _)].
  { by destruct (draw_preserves _ _ _ _ _ _ Hs E). }
  destruct (draw_preserves _ _ _ _ _ _ Hs E1) as [_ K].
  specialize (K _ eq_refl).
  eapply kept_preserved, draw_legend_kept; [exact K | exact E].
Qed.

Lemma render_state self (h : heap) :
  (render C self h).1.1 = h \/
  (render C self h).1.1 =
    ((draw C self ≫= fun plot => draw_legend C self plot) h).1.1.
Proof.
  unfold render. rewrite emit_bind.
  destruct (reads_getattr self "theme" h) as [[tl|e] E1].
  2:{ left. by rewrite (bind_raise _ _ _ _ _ _ E1). }
  rewrite (bind_nil _ _ _ _ _ E1).
  destruct (reads_load_Theme tl h) as [[th|e] E2].
  2:{ left. by rewrite (bind_raise _ _ _ _ _ _ E2). }
  rewrite (bind_nil _ _ _ _ _ E2). right.
  destruct ((draw C self ≫= fun plot => draw_legend C self plot) h)
    as [[hb tb] rb] eqn:E.
  assert (W : with_context (emit (GgContextEnter th)) (emit GgContextExit)
                (draw C self ≫= fun plot => draw_legend C self plot) h =
              (hb, GgContextEnter th :: tb ++ [GgContextExit], rb)).
  { by rewrite with_context_run, E. }
  destruct rb as [plot|e].
  - rewrite (bind_ok _ _ _ _ _ _ W), emit_bind. done.
  - by rewrite (bind_raise _ _ _ _ _ _ W).
Qed.

(** A build that returns has read the data frame of the plot and its
    environment: the plot is neither. *)
Lemma built_not_shared self (h h2 : heap) d t data panel plot :
  h !! self = Some (OInstance d) ->
  plot_build C self h = (h2, t, Ok (data, panel, plot)) ->
  ~ is_shared d self.
Proof.
  intros Hs E (key & Hk & Hd).
  apply plot_build_inv in E as [(_ & _ & e & [=]) | E].
  destruct E as (l0 & ls & h1 & t1 & r1 & _ & ED & E).
  destruct r1 as [plot'|e]; [|by destruct E as (_ & _ & [=])].
  destruct E as (t2 & r2 & EW & _ & Hres).
  destruct r2 as [[??]|]; [|done].
  destruct (deepcopy_plot_spec _ _ _ _ _ _ Hs ED)
    as (_ & Hp & Hsub & d' & Hp' & Hn & Hc).
  apply with_plot_ok_inv in EW as (d'' & r & c & env & c' & Hd'' & Hr & Hh & _).
  rewrite Hp' in Hd''. injection Hd'' as <-.
  pose proof (lookup_weaken _ _ _ _ Hs Hsub) as Hs1.
  destruct (Hc _ _ Hd) as (v & Hv & Hcp). unfold copy_of in Hcp.
  rewrite Hk in Hcp. subst v.
  destruct Hr as (R1 & _ & _ & _ & _ & _ & _ & _ & R9).
  destruct Hh as (K1 & _ & _ & _ & _ & _ & _ & _ & K9).
  apply in_shallow_spec in Hk as [-> | ->]; simplify_eq.
Qed.

(** X10. Rendering is done on the copy: however [render] ends, and
    [__repr__] with it, every object of the store is afterwards what it
    was, but for the data frame and the environment that the copy shares
    with the plot; when [render] returns, the [__dict__] of the plot is
    what it was: it has got no [axs] and no [fig]. *)
Theorem render_works_on_the_copy (self : loc) (h : heap)
    (d : gmap string loc) :
  h !! self = Some (OInstance d) ->
  preserved h d (render C self h).1.1 /\
  preserved h d (ggplot_repr C self h).1.1 /\
  (forall h1 t fig, render C self h = (h1, t, Ok fig) ->
                    h1 !! self = Some (OInstance d)).
Proof.
  intros Hs.
  assert (P : preserved h d (render C self h).1.1).
  { destruct (render_state self h) as [-> | ->]; [by apply preserved_sub|].
    destruct ((draw C self ≫= fun plot => draw_legend C self plot) h)
      as [[hb tb] rb] eqn:E.
    by eapply render_body_preserves. }
  split; [done|]. split.
  - unfold ggplot_repr.
    destruct (render C self h) as [[h1 t1] [fig|e]] eqn:E; simpl in P.
    + rewrite (bind_ok _ _ _ _ _ _ E), emit_bind. done.
    + by rewrite (bind_raise _ _ _ _ _ _ E).
  - intros h1 t fig E. rewrite E in P. simpl in P. apply P; [done|].
    destruct (render_kept C _ _ _ _ _ _ Hs E) as (plot & ha & ta & data & panel & _ & EB).
    by eapply built_not_shared.
Qed.

Lemma write_plot_typed r env c c' (h : heap) l o :
  holds h r c env -> h !! l = Some o ->
  match o with OInstance _ | OAxs _ | OFig _ => True | _ => False end ->
  write_plot r env c' h !! l = Some o.
Proof.
  intros (K1 & K2 & K3 & K4 & K5 & K6 & K7 & K8 & K9) Hl Ho.
  rewrite write_plot_other; [done|].
  unfold refs_list. rewrite !not_elem_of_cons.
  repeat split; try apply not_elem_of_nil; intros ->; destruct o; try done;
    congruence.
Qed.

(** X11. [draw] hangs the axes and the figure on the copy: the plot that
    a [draw] returns is the copy that the build made, new to the store; it
    has two more attributes, [axs], bound to the list of the
    [nrow * ncol] axes of the grid, row by row, for the facet as the build
    leaves it, and [fig]; both objects are new, and the plot [self] is as
    it was. *)
Theorem draw_hangs_the_axes_on_the_copy (self : loc) (h h2 : heap)
    (d : gmap string loc) (t : list event) (plot : loc) :
  h !! self = Some (OInstance d) ->
  draw C self h = (h2, t, Ok plot) ->
  exists ha ta data panel fl f dp a g,
    plot_build C self h = (ha, ta, Ok (data, panel, plot)) /\
    h !! plot = None /\
    getattr plot "facet" ha = (ha, [], Ok fl) /\
    ha !! fl = Some (OFacet f) /\
    h2 !! plot = Some (OInstance dp) /\
    dp !! "axs" = Some a /\ dp !! "fig" = Some g /\
    h2 !! a = Some (OAxs (seq 0 (Z.to_nat (nrow f * ncol f)))) /\
    h2 !! g = Some (OFig CurrentFigure) /\
    h !! a = None /\ h !! g = None /\ a ≠ g /\
    h2 !! self = Some (OInstance d).
Proof.
  intros Hs E.
  assert (Hself : h2 !! self = Some (OInstance d)).
  { destruct (draw_kept C _ _ _ _ _ _ Hs E) as (K & ha & ta & data & panel & EB).
    apply (kept_preserved _ _ _ _ K); [done|]. by eapply built_not_shared. }
  rewrite draw_is_build_then_draw in E.
  apply bind_ok_inv in E as (ha & ta & [[data panel] plot'] & t' & EB & E & ->).
  destruct (plot_build_preserves _ _ _ _ _ _ Hs EB) as [_ K].
  specialize (K _ _ _ eq_refl).
  unfold draw_built in E.
  apply bind_reads_inv in E as (fl & Efl & E); [|apply reads_getattr].
  apply bind_reads_inv in E as (f & Ef & E); [|apply reads_load_Facet].
  apply load_Facet_inv in Ef.
  apply bind_ok_inv in E as (hb & tb & [fig axs] & t'' & ES & E & ->).
  pose proof (plt_subplots_still _ _ _ _ _ _ ES) as ->.
  assert (fig = CurrentFigure /\ axs = seq 0 (Z.to_nat (nrow f * ncol f)))
    as [-> ->].
  { unfold plt_subplots in ES. rewrite emit_bind in ES.
    destruct ((0 <? nrow f) && (0 <? ncol f)); [|done].
    by injection ES as _ <- <-. }
  rewrite (bind_nil _ _ _ _ _ (alloc_run _ _)) in E.
  destruct (kept_alloc _ _ _ _ (OAxs (seq 0 (Z.to_nat (nrow f * ncol f)))) K)
    as [K1 Ha].
  set (a := fresh (dom ha)) in *.
  set (h1 := <[a:=OAxs (seq 0 (Z.to_nat (nrow f * ncol f)))]> ha) in *.
  pose proof K1 as (Hp & _ & _ & dx & Kdx & _).
  destruct (kept_setattr _ _ _ _ "axs" _ K1 Ha) as (h3 & E3 & K3).
  rewrite (bind_nil _ _ _ _ _ E3) in E.
  rewrite (setattr_run plot' "axs" a _ _ Kdx) in E3. injection E3 as E3.
  assert (Hpa : plot' ≠ a).
  { intros Hpa. unfold h1 in Kdx. rewrite Hpa, lookup_insert_eq in Kdx.
    discriminate. }
  assert (Hp3 : h3 !! plot' = Some (OInstance (<["axs":=a]> dx)))
    by (rewrite <- E3; by rewrite lookup_insert_eq).
  assert (Ha3 : h3 !! a = Some (OAxs (seq 0 (Z.to_nat (nrow f * ncol f))))).
  { rewrite <- E3. rewrite lookup_insert_ne by done. unfold h1.
    by rewrite lookup_insert_eq. }
  rewrite (bind_nil _ _ _ _ _ (alloc_run _ _)) in E.
  destruct (kept_alloc _ _ _ _ (OFig CurrentFigure) K3) as [K4 Hg].
  pose proof (fresh_lookup h3) as Hg3. set (g := fresh (dom h3)) in *.
  set (h4 := <[g:=OFig CurrentFigure]> h3) in *.
  assert (Hag : a ≠ g) by congruence.
  assert (Hgp : plot' ≠ g) by congruence.
  assert (Hp4 : h4 !! plot' = Some (OInstance (<["axs":=a]> dx)))
    by (unfold h4; by rewrite lookup_insert_ne).
  destruct (kept_setattr _ _ _ _ "fig" _ K4 Hg) as (h5 & E5 & K5).
  rewrite (bind_nil _ _ _ _ _ E5) in E.
  rewrite (setattr_run plot' "fig" g _ _ Hp4) in E5. injection E5 as E5.
  assert (Hp5 : h5 !! plot' = Some (OInstance (<["fig":=g]> (<["axs":=a]> dx))))
    by (rewrite <- E5; by rewrite lookup_insert_eq).
  assert (Ha5 : h5 !! a = Some (OAxs (seq 0 (Z.to_nat (nrow f * ncol f))))).
  { rewrite <- E5. rewrite lookup_insert_ne by done. unfold h4.
    by rewrite lookup_insert_ne. }
  assert (Hg5 : h5 !! g = Some (OFig CurrentFigure)).
  { rewrite <- E5. rewrite lookup_insert_ne by done. unfold h4.
    by rewrite lookup_insert_eq. }
  apply bind_ok_inv in E as (h6 & t6 & x & t7 & EW & E & ->).
  injection E as <- _ <-.
  apply with_plot_ok_inv in EW as (d5 & r & c & env & c' & _ & _ & Hh & _ & ->).
  exists ha, ta, data, panel, fl, f, (<["fig":=g]> (<["axs":=a]> dx)), a, g.
  split; [done|]. split; [done|]. split; [done|]. split; [done|].
  split; [by apply (write_plot_typed _ _ c)|].
  split; [rewrite lookup_insert_ne by done; by rewrite lookup_insert_eq|].
  split; [by rewrite lookup_insert_eq|].
  split; [by apply (write_plot_typed _ _ c)|].
  split; [by apply (write_plot_typed _ _ c)|].
  by repeat split.
Qed.

(** X12. The copy does not shield the data frame: the build works on the
    very data frame of the plot, and on its environment.  When a build
    returns, the pipeline has run on the contents of the plot, and the
    data frame bound to [self.data] is afterwards the one that the
    pipeline has left in [plot.data]; whatever a collaborator does to it
    is done to the data frame of the caller. *)
Theorem build_shares_the_data_frame (self : loc) (h h2 : heap)
    (d : gmap string loc) (t : list event) (data : list DataFrame)
    (panel : Panel) (plot : loc) (ld : loc) (df : DataFrame) :
  h !! self = Some (OInstance d) ->
  d !! "data" = Some ld ->
  h !! ld = Some (ODataFrame df) ->
  plot_build C self h = (h2, t, Ok (data, panel, plot)) ->
  exists c c' tp,
    p_data c = df /\
    with_panel (new_Panel C) (build_pipeline C) c = (c', tp, Ok (data, panel)) /\
    t = Deepcopy :: tp /\
    getattr plot "data" h2 = (h2, [], Ok ld) /\
    getattr self "data" h2 = (h2, [], Ok ld) /\
    h2 !! ld = Some (ODataFrame (p_data c')).
Proof.
  intros Hs Hd Hl E.
  assert (Hself : h2 !! self = Some (OInstance d)).
  { destruct (plot_build_preserves _ _ _ _ _ _ Hs E) as [P _].
    apply P; [done|]. by eapply built_not_shared. }
  apply plot_build_inv in E as [(_ & _ & e & [=]) | E].
  destruct E as (l0 & ls & h1 & t1 & r1 & _ & ED & E).
  destruct r1 as [plot'|e]; [|by destruct E as (_ & _ & [=])].
  destruct E as (t2 & r2 & EW & -> & Hres).
  destruct r2 as [[data' panel']|]; [|done]. injection Hres as <- <- <-.
  destruct (deepcopy_plot_spec _ _ _ _ _ _ Hs ED)
    as (-> & Hp & Hsub & d' & Hp' & Hn & Hc).
  apply with_plot_ok_inv in EW as (d'' & r & c & env & c' & Hd'' & Hr & Hh & Em & ->).
  rewrite Hp' in Hd''. injection Hd'' as <-.
  destruct (Hc _ _ Hd) as (v & Hv & Hcp). unfold copy_of in Hcp. simpl in Hcp.
  subst v.
  pose proof Hr as (R1 & _). rewrite Hv in R1. injection R1 as R1.
  pose proof Hh as (K1 & _). rewrite <- R1 in K1.
  rewrite (lookup_weaken _ _ _ _ Hl Hsub) in K1. injection K1 as K1.
  exists c, c', t2. split; [done|]. split; [done|]. split; [done|].
  pose proof (holds_write r env c c' h1 Hh) as (W1 & _).
  rewrite <- R1 in W1.
  split.
  { eapply getattr_run; [|exact Hv].
    apply (write_plot_typed _ _ c); [done|done|done]. }
  split; [by eapply getattr_run|done].
Qed.

(** ** The legend of a drawn plot *)

(** X13. On a plot that [draw] has drawn, which has its axes and its
    figure, [draw_legend] ends in one of these ways.  The plot cannot be
    read, and nothing is done.  Or the guides are asked for the box, once:
    if they raise, so does [draw_legend]; if they build no box, the plot
    is returned; if they build one, the legend position of the theme, as
    the guides leave it, is looked up: a position of the table puts the
    box on the first of the axes, with the code and the anchor of the
    table, and the plot is returned; any other position raises.  The box
    is never put on other axes, and never twice. *)
Theorem draw_legend_puts_the_box_on_the_first_axes (self plot : loc)
    (h : heap) (dp : gmap string loc) (a g : loc) (fg : figure)
    (ax : nat) (axs : list nat) :
  h !! plot = Some (OInstance dp) ->
  dp !! "axs" = Some a -> h !! a = Some (OAxs (ax :: axs)) ->
  dp !! "fig" = Some g -> h !! g = Some (OFig fg) ->
  forall h1 t r, draw_legend C self plot h = (h1, t, r) ->
    (h1 = h /\ t = [] /\ exists e, r = Raise e) \/
    (exists rb,
       with_plot plot (call GuidesBuild (guides_build C)) h =
         (h1, [Call GuidesBuild], rb) /\
       match rb with
       | Raise e => t = [Call GuidesBuild] /\ r = Raise e
       | Ok None => t = [Call GuidesBuild] /\ r = Ok plot
       | Ok (Some box) =>
           exists tl th,
             getattr plot "theme" h1 = (h1, [], Ok tl) /\
             h1 !! tl = Some (OTheme th) /\
             match lookup_position (legend_position th) with
             | Ok (lc, an) =>
                 t = [Call GuidesBuild; AddArtist ax box lc an] /\ r = Ok plot
             | Raise e => t = [Call GuidesBuild] /\ r = Raise e
             end
       end).
Proof.
  intros Hp Ha Hao Hg Hgo h1 t r E. unfold draw_legend in E.
  destruct (with_plot plot (call GuidesBuild (guides_build C)) h)
    as [[hw tw] rw] eqn:EW.
  pose proof EW as EW'.
  apply with_plot_inv in EW' as [(-> & -> & e & ->) | EW'].
  { left. rewrite (bind_raise _ _ _ _ _ _ EW) in E. injection E as <- <- <-.
    eauto. }
  destruct EW' as (refs & c & env & c' & E1 & E2 & E3 & ->).
  apply plot_refs_inv in E1 as (dp' & Hp' & Hr).
  rewrite Hp in Hp'. injection Hp' as <-.
  apply read_plot_inv in E2.
  assert (tw = [Call GuidesBuild]) as ->.
  { unfold call in E3. destruct (guides_build C c) as [c1 r1].
    by injection E3 as _ <- _. }
  set (h' := write_plot refs env c' h) in *.
  assert (Hp1 : h' !! plot = Some (OInstance dp))
    by (by apply (write_plot_typed _ _ c)).
  assert (Ha1 : h' !! a = Some (OAxs (ax :: axs)))
    by (by apply (write_plot_typed _ _ c)).
  assert (Hg1 : h' !! g = Some (OFig fg))
    by (by apply (write_plot_typed _ _ c)).
  destruct rw as [[box|]|e].
  - rewrite (bind_ok _ _ _ _ _ _ EW) in E.
    pose proof (holds_write _ _ _ c' _ E2) as (_ & _ & _ & _ & _ & _ & _ & K8 & _).
    fold h' in K8. destruct Hr as (_ & _ & _ & _ & _ & _ & _ & R8 & _).
    assert (G1 : getattr plot "theme" h' = (h', [], Ok (r_theme refs)))
      by (by eapply getattr_run).
    rewrite (bind_nil _ _ _ _ _ G1) in E.
    unfold load_Theme in E. rewrite bind_assoc in E.
    rewrite (bind_nil _ _ _ _ _ (load_run _ _ _ K8)), ret_bind in E.
    rewrite lift_bind in E.
    destruct (lookup_position (legend_position (p_theme c'))) as [[lc an]|e] eqn:EL.
    2:{ injection E as <- <- <-. right. exists (Ok (Some box)). split; [done|].
        exists (r_theme refs), (p_theme c'). rewrite EL.
        by rewrite ?app_nil_r. }
    rewrite (bind_nil _ _ _ _ _ (getattr_run _ _ _ _ _ Hp1 Hg)) in E.
    unfold load_Fig in E. rewrite bind_assoc in E.
    rewrite (bind_nil _ _ _ _ _ (load_run _ _ _ Hg1)), ret_bind in E.
    rewrite (bind_nil _ _ _ _ _ (getattr_run _ _ _ _ _ Hp1 Ha)) in E.
    unfold load_Axs in E. rewrite bind_assoc in E.
    rewrite (bind_nil _ _ _ _ _ (load_run _ _ _ Ha1)), ret_bind in E.
    rewrite lift_bind in E. simpl in E. injection E as <- <- <-.
    right. exists (Ok (Some box)). split; [done|].
    exists (r_theme refs), (p_theme c'). by rewrite EL.
  - rewrite (bind_ok _ _ _ _ _ _ EW) in E. injection E as <- <- <-.
    right. exists (Ok None). by rewrite ?app_nil_r.
  - rewrite (bind_raise _ _ _ _ _ _ EW) in E. injection E as <- <- <-.
    right. by exists (Raise e).
Qed.

(** ** The data of a panel *)

Lemma index_of_None key cols : key ∉ cols -> index_of key cols = None.
Proof.
  induction cols as [|c cols IH]; [done|]. rewrite not_elem_of_cons.
  intros [Hne Hn]. simpl. destruct (String.eqb_spec key c); [done|].
  by rewrite IH.
Qed.

Lemma index_of_Some key cols : key ∈ cols -> is_Some (index_of key cols).
Proof.
  induction cols as [|c cols IH]; [by intros ?%not_elem_of_nil|].
  rewrite elem_of_cons. intros Hin. simpl.
  destruct (String.eqb_spec key c); [by eexists|].
  destruct Hin as [?|Hin]; [done|]. destruct (IH Hin) as [i ->]. by eexists.
Qed.

(** X14. [draw] relies on the facet to have given every data frame its
    [PANEL] column.  On the axes of a panel the layers are plotted one
    after the other; at the first data frame without that column the
    drawing stops with [KeyError('PANEL')]: the layers before it have been
    plotted, with z-orders from 1, and none after it. *)
Theorem draw_layers_stops_at_a_frame_without_PANEL
    (pre post : list (Layer * DataFrame)) (l : Layer) (d : DataFrame)
    (z : nat) (pnl : Series) (sx sy : Scale) (ax : nat) (w : World)
    (pid : value) :
  series_get pnl "PANEL" = Ok pid ->
  Forall (fun ld => "PANEL"%string ∈ columns ld.2) pre ->
  "PANEL"%string ∉ columns d ->
  draw_layers (pre ++ (l, d) :: post) z pnl sx sy ax w =
    (w, imap (plot_call pid sx sy ax z) pre, Raise (KeyError "PANEL")).
Proof.
  intros Hpid Hpre Hd. revert z.
  induction Hpre as [|[l0 d0] pre H0 Hpre IH]; intros z; simpl.
  - rewrite lift_bind. unfold df_getcol. by rewrite (index_of_None _ _ Hd).
  - rewrite lift_bind.
    destruct (df_getcol d0 "PANEL") as [col|e] eqn:Ec.
    2:{ unfold df_getcol in Ec. simpl in H0.
        destruct (index_of_Some _ _ H0) as [i Hi]. by rewrite Hi in Ec. }
    rewrite lift_bind, Hpid, emit_bind, IH.
    unfold plot_call at 2. simpl.
    rewrite (df_mask_panel _ _ _ Ec), Nat.add_0_r. f_equal. f_equal. f_equal.
    apply imap_ext. intros i x _. unfold plot_call. simpl. f_equal. lia.
Qed.

Lemma value_eqb_eq a b : value_eqb a b = true -> a = b.
Proof.
  destruct a, b; simpl; try done.
  - by intros ->%Z.eqb_eq.
  - by intros ->%String.eqb_eq.
Qed.

Lemma filter_either {A} (f g : A -> bool) (l : list A) :
  (forall x, f x = true -> g x = true -> False) ->
  filter (fun x => f x = true) l ++ filter (fun x => g x = true) l ≡ₚ
  filter (fun x => f x || g x = true) l.
Proof.
  intros Hfg. induction l as [|x l IH]; [done|].
  rewrite !filter_cons.
  destruct (f x) eqn:Ef, (g x) eqn:Eg; simpl; repeat case_decide;
    try done; try (by destruct (Hfg x Ef Eg)).
  - by constructor.
  - rewrite <- Permutation_middle. by constructor.
Qed.

(** X15. The panels share out the rows of a layer's data: when the rows
    of the layout have different [PANEL]s, the frames that a layer is
    handed on the panels, [d[d['PANEL'] == pnl['PANEL']]], hold between
    them each row of [d] whose [PANEL] is that of a panel once, and no
    other row; so that each row is drawn once when every [PANEL] of the
    data is that of a panel. *)
Theorem panels_share_out_the_rows (d : DataFrame) (col : list value)
    (pids : list value) :
  df_getcol d "PANEL" = Ok col ->
  NoDup pids ->
  concat (map (fun pid => rows (df_mask d (series_eq col pid))) pids) ≡ₚ
    filter (fun r => existsb (value_eqb (cell_of d "PANEL" r)) pids = true)
           (rows d) /\
  (Forall (fun c => existsb (value_eqb c) pids = true) col ->
   concat (map (fun pid => rows (df_mask d (series_eq col pid))) pids) ≡ₚ
     rows d).
Proof.
  intros Hcol ND.
  assert (P : concat (map (fun pid => rows (df_mask d (series_eq col pid))) pids) ≡ₚ
    filter (fun r => existsb (value_eqb (cell_of d "PANEL" r)) pids = true)
           (rows d)).
  { induction ND as [|p ps Hp ND IH].
    - simpl. induction (rows d) as [|r rs IHr]; [done|].
      rewrite filter_cons. by rewrite decide_False by done.
    - cbn [map concat]. rewrite (df_mask_panel _ _ _ Hcol), IH.
      unfold rows_of_panel. cbn [rows existsb].
      apply (filter_either (fun r => value_eqb (cell_of d "PANEL" r) p)
               (fun r => existsb (value_eqb (cell_of d "PANEL" r)) ps)).
      intros r H1 H2. apply value_eqb_eq in H1. apply existsb_exists in H2.
      destruct H2 as (q & Hq & H2). apply value_eqb_eq in H2.
      apply Hp. apply list_elem_of_In. congruence. }
  split; [done|]. intros Hall. rewrite P.
  assert (Hc : col = map (cell_of d "PANEL") (rows d)).
  { unfold df_getcol in Hcol. unfold cell_of.
    destruct (index_of "PANEL" (columns d)); [|done]. by injection Hcol as <-. }
  rewrite Hc in Hall. clear P Hcol Hc.
  induction (rows d) as [|r rs IHr]; [done|].
  simpl in Hall. apply Forall_cons in Hall as [H1 H2].
  rewrite filter_cons. rewrite decide_True by done. by rewrite IHr.
Qed.

End MoreProperties.

(** * The theorems at work on the small instance *)

#[local] Existing Instance Toy.types.

Lemma set_breaks_labels_iff_not_waive_witness :
  py_index (ranges Toy.panel1) 0 = Ok Toy.ranges1 /\
  (exists b, SetXticks 0 b ∈ trace_of (set_breaks (S:=unit) Toy.panel1 0 0%nat tt)) /\
  ~ (exists b, SetYticks 0 b ∈ trace_of (set_breaks (S:=unit) Toy.panel1 0 0%nat tt)).
Proof.
  assert (H : py_index (ranges Toy.panel1) 0 = Ok Toy.ranges1) by reflexivity.
  split; [exact H|].
  destruct (set_breaks_labels_iff_not_waive Toy.panel1 0 0%nat Toy.ranges1 tt H)
    as (_ & _ & Hx & Hy & _).
  split.
  - apply Hx. discriminate.
  - intros Hb. apply Hy in Hb. by apply Hb.
Defined.

Lemma plot_build_no_layers_witness :
  get_layers 4%positive Toy.heap1 = (Toy.heap1, [], Ok []) /\
  plot_build Toy.collab 4%positive Toy.heap1 =
    (Toy.heap1, [], Raise (GgplotError "No layers in plot")).
Proof.
  assert (H : get_layers 4%positive Toy.heap1 = (Toy.heap1, [], Ok []))
    by (vm_compute; reflexivity).
  split; [exact H|].
  exact (proj1 (plot_build_no_layers Toy.collab 4%positive Toy.heap1 [] H)).
Defined.


Lemma toy_cooperative : cooperative Toy.collab.
Proof.
  split; try (intros; intros ?; eexists _, _; split; reflexivity).
  intros d. by exists d.
Defined.




Lemma plot_build_works_on_copy_witness :
  exists d, Toy.heap2 !! 4%positive = Some (OInstance d) /\
  forall key l o, key ∈ copied_attributes -> d !! key = Some l ->
    Toy.heap2 !! l = Some o ->
    (plot_build Toy.collab 4%positive Toy.heap2).1.1 !! l = Some o.
Proof.
  eexists. split; [vm_compute; reflexivity|].
  intros key l o Hk Hd Hl.
  destruct (plot_build Toy.collab 4%positive Toy.heap2) as [[h2 t] res] eqn:E.
  refine (proj1 (proj2 (proj2 (proj2 (proj2
    (plot_build_works_on_copy Toy.collab 4%positive Toy.heap2 _ _)) h2 t res E)))
    key l o Hk Hd Hl).
  vm_compute. reflexivity.
Defined.

Lemma plot_build_order_witness :
  trace_of (plot_build Toy.collab 4%positive Toy.heap2) =
    [Deepcopy; Call TrainLayout; Call MapLayout;
     Call ComputeAesthetics; Call ComputeAesthetics;
     Call AddGroup; Call AddGroup; Call TransformDf; Call TransformDf;
     Call (GetScales "x"); Call (GetScales "y"); Call TrainPosition;
     Call (GetScales "x"); Call (GetScales "y"); Call MapPosition;
     Call CalculateStats; Call MapStatistic; Call MapStatistic;
     Call ScalesAddMissing;
     Call Reparameterise; Call Reparameterise;
     Call AdjustPosition; Call AdjustPosition;
     Call ResetScales;
     Call (GetScales "x"); Call (GetScales "y"); Call TrainPosition;
     Call (GetScales "x"); Call (GetScales "y"); Call MapPosition;
     Call NonPositionScales; Call TrainRanges] /\
  follows (One Deepcopy :: pipeline_order)
          (plot_build Toy.collab 4%positive Toy.heap2).
Proof.
  split; [vm_compute; reflexivity|].
  exact (proj1 (plot_build_order Toy.collab 4%positive Toy.heap2)).
Defined.




Lemma draw_legend_invalid_position_witness :
  draw_legend Toy.collab 4%positive 11%positive Toy.drawn3 =
    ((with_plot 11%positive (call GuidesBuild (guides_build Toy.collab))
        Toy.drawn3).1.1,
     [Call GuidesBuild], Raise (KeyError "center")).
Proof.
  pose (h1 := (with_plot 11%positive (call GuidesBuild (guides_build Toy.collab))
                 Toy.drawn3).1.1).
  assert (H1 : with_plot 11%positive (call GuidesBuild (guides_build Toy.collab))
                 Toy.drawn3 = (h1, [Call GuidesBuild], Ok (Some ["color"%string])))
    by (vm_compute; reflexivity).
  assert (H2 : getattr 11%positive "theme" h1 = (h1, [], Ok 18%positive))
    by (vm_compute; reflexivity).
  assert (H3 : load_Theme 18%positive h1 = (h1, [], Ok (mkTheme "center" tt)))
    by (vm_compute; reflexivity).
  assert (H4 : legend_position (mkTheme "center" tt) ∉ valid_positions).
  { apply (bool_decide_unpack _). vm_compute. exact I. }
  exact (proj1 (draw_legend_invalid_position Toy.collab 4%positive 11%positive
                  Toy.drawn3 h1 [Call GuidesBuild] ["color"%string] 18%positive
                  (mkTheme "center" tt) H1 H2 H3 H4)).
Defined.

(** C7 does not hold with [GgplotError]: with a legend box built and the
    legend at [center], which is none of the four positions, [draw_legend]
    raises [KeyError('center')], which is no [GgplotError], and so does
    [render]. *)
Lemma draw_legend_center_raises_KeyError :
  (with_plot 11%positive (call GuidesBuild (guides_build Toy.collab))
     Toy.drawn3).2 = Ok (Some ["color"%string]) /\
  (draw_legend Toy.collab 4%positive 11%positive Toy.drawn3).2 =
    Raise (KeyError "center") /\
  (forall msg, (draw_legend Toy.collab 4%positive 11%positive Toy.drawn3).2 ≠
               Raise (GgplotError msg)) /\
  (render Toy.collab 4%positive Toy.heap3).2 = Raise (KeyError "center").
Proof.
  assert (E : (draw_legend Toy.collab 4%positive 11%positive Toy.drawn3).2 =
              Raise (KeyError "center")) by (vm_compute; reflexivity).
  split; [vm_compute; reflexivity|]. split; [exact E|].
  split; [intros msg; rewrite E; discriminate|]. vm_compute. reflexivity.
Qed.

Lemma draw_legend_no_legend_witness :
  exists h1,
    draw_legend Toy.collab 4%positive 11%positive Toy.drawn2 =
      (h1, [Call GuidesBuild], Ok 11%positive).
Proof.
  pose (h1 := (with_plot 11%positive (call GuidesBuild (guides_build Toy.collab))
                 Toy.drawn2).1.1).
  assert (H1 : with_plot 11%positive (call GuidesBuild (guides_build Toy.collab))
                 Toy.drawn2 = (h1, [Call GuidesBuild], Ok None))
    by (vm_compute; reflexivity).
  exists h1.
  exact (proj1 (proj1 (draw_legend_no_legend Toy.collab 4%positive 11%positive
                  Toy.drawn2 h1 [Call GuidesBuild] (Ok None) H1) eq_refl)).
Defined.

Lemma ggplot_either_order_witness :
  exists h' self,
    ggplot Toy.collab 2%positive 1%positive Toy.heap0 = (h', [], Ok self) /\
    ggplot Toy.collab 1%positive 2%positive Toy.heap0 = (h', [], Ok self) /\
    getattr self "data" h' = (h', [], Ok 1%positive) /\
    getattr self "mapping" h' = (h', [], Ok 2%positive).
Proof.
  destruct (ggplot_either_order Toy.collab 2%positive 1%positive Toy.heap0
              Toy.df0 [("x", "x"); ("y", "y")]%string 3%positive tt
              ltac:(reflexivity) ltac:(reflexivity) ltac:(reflexivity))
    as (_ & h' & self & E1 & E2 & E3 & E4 & _).
  exists h', self. split; [exact E1|]. split; [exact E2|].
  split; [exact E3 | exact E4].
Defined.

Lemma new_plot_cannot_be_rendered_witness :
  exists h' self,
    ggplot Toy.collab 2%positive 1%positive Toy.heap0 = (h', [], Ok self) /\
    render Toy.collab self h' =
      (h', [PltCloseAll; GgContextEnter Toy.theme0; GgContextExit],
       Raise (GgplotError "No layers in plot")).
Proof.
  destruct (new_plot_cannot_be_rendered Toy.collab 2%positive 1%positive Toy.heap0
              Toy.df0 [("x", "x"); ("y", "y")]%string 3%positive tt
              ltac:(reflexivity) ltac:(reflexivity) ltac:(reflexivity))
    as (h' & self & E1 & _ & _ & E2 & _).
  exists h', self. split; [exact E1 | exact E2].
Defined.

Lemma ggplot_makes_its_own_parts_witness :
  exists h1 p1 parts1 h2 p2 parts2,
    ggplot Toy.collab 2%positive 1%positive Toy.heap0 = (h1, [], Ok p1) /\
    ggplot Toy.collab 2%positive 1%positive h1 = (h2, [], Ok p2) /\
    NoDup (parts_list p1 parts1) /\
    (forall x, x ∈ parts_list p2 parts2 -> x ∉ parts_list p1 parts1).
Proof.
  destruct (ggplot_makes_its_own_parts Toy.collab 2%positive 1%positive Toy.heap0
              Toy.df0 [("x", "x"); ("y", "y")]%string 3%positive tt
              ltac:(reflexivity) ltac:(reflexivity) ltac:(reflexivity))
    as (h1 & p1 & parts1 & h2 & p2 & parts2 & E1 & K1 & E2 & _ & Hd & _).
  exists h1, p1, parts1, h2, p2, parts2.
  split; [exact E1|]. split; [exact E2|].
  split; [exact (proj1 (proj2 (proj2 K1))) | exact Hd].
Defined.

Lemma deepcopy_keeps_sharing_witness :
  exists h' t plot d',
    ggplot_deepcopy 1%positive [] Grid.shared = (h', t, Ok plot) /\
    h' !! plot = Some (OInstance d') /\
    d' !! "guides" = d' !! "theme" /\
    d' !! "guides" ≠ d' !! "scales".
Proof.
  pose (x := ggplot_deepcopy 1%positive [] Grid.shared).
  assert (E : ggplot_deepcopy 1%positive [] Grid.shared =
              (x.1.1, x.1.2, Ok 5%positive)) by (vm_compute; reflexivity).
  destruct (deepcopy_keeps_sharing 1%positive [] Grid.shared x.1.1 x.1.2
              5%positive ltac:(by intros ???) ltac:(by intros ??) E)
    as (d & d' & Hd & Hd' & Hs & _).
  exists x.1.1, x.1.2, 5%positive, d'. split; [exact E|]. split; [exact Hd'|].
  vm_compute in Hd. injection Hd as <-.
  vm_compute in Hd'. injection Hd' as <-.
  match type of Hs with
  | context [?d0 !! _ = Some _ -> ?dd !! _ = Some _ -> _ -> (_ = _ <-> _ = _)] =>
      assert (D1 : d0 !! "guides" = Some 2%positive) by (vm_compute; reflexivity);
      assert (D2 : d0 !! "theme" = Some 2%positive) by (vm_compute; reflexivity);
      assert (D3 : d0 !! "scales" = Some 3%positive) by (vm_compute; reflexivity)
  end.
  match type of Hs with
  | context [?dd !! _ = Some _ -> (_ = _ <-> _ = _)] =>
      assert (G1 : exists v, dd !! "guides" = Some v)
        by (vm_compute; eexists; reflexivity);
      assert (G2 : exists v, dd !! "theme" = Some v)
        by (vm_compute; eexists; reflexivity);
      assert (G3 : exists v, dd !! "scales" = Some v)
        by (vm_compute; eexists; reflexivity)
  end.
  destruct G1 as [v1 G1], G2 as [v2 G2], G3 as [v3 G3].
  pose proof (Hs "guides"%string "theme"%string _ _ _ _ eq_refl eq_refl
                D1 D2 G1 G2) as H12.
  pose proof (Hs "guides"%string "scales"%string _ _ _ _ eq_refl eq_refl
                D1 D3 G1 G3) as H13.
  rewrite G1, G2, G3. split.
  - f_equal. exact (proj2 H12 eq_refl).
  - intros [= Heq]. apply (proj1 H13) in Heq. discriminate.
Defined.

Lemma dlapply_pairs_frames_with_layers_witness :
  dlapply (fun d _ => mret (Toy.add_panel d)) [Toy.df0] Toy.world2 =
    (Toy.world2, [], Ok [Toy.add_panel Toy.df0]) /\
  exists w' t,
    dlapply (fun d l => on_plot (call ComputeAesthetics
                                   (compute_aesthetics Toy.collab l d)))
            [Toy.df0; Toy.df0; Toy.df0] Toy.world2 =
      (w', t, Raise IndexError).
Proof.
  split.
  - refine (eq_trans (proj1 (dlapply_pairs_frames_with_layers [Toy.df0] Toy.world2)
                        (fun d _ => Toy.add_panel d)) _).
    vm_compute. reflexivity.
  - refine (proj2 (proj2 (dlapply_pairs_frames_with_layers
                            [Toy.df0; Toy.df0; Toy.df0] Toy.world2) _ _) _).
    + intros d l. apply Total_on_plot; [|done].
      apply (co_compute_aesthetics _ toy_cooperative).
    + vm_compute. lia.
Defined.

Lemma build_without_other_scales_trains_none_witness :
  Call TrainDf ∉ trace_of (build_pipeline Grid.collab4
                             (mkWorld Grid.plot1 Toy.panel0)).
Proof.
  refine (proj1 (build_without_other_scales_trains_none Grid.collab4 _ _)).
  intros p p' s [= _ <-]. reflexivity.
Defined.

Lemma modify_axis_passes_only_AttributeError_witness :
  modify_axis Wayward.fussy [0; 1; 2; 3]%nat Wayward.world3 =
    (Wayward.world3,
     [Call PositionScales; TransModifyAxis "y"%string [0; 1; 2; 3]%nat;
      TransModifyAxis "x"%string [0; 1; 2; 3]%nat],
     Raise ValueError) /\
  exists pre sc post,
    can_modify Wayward.fussy ["y"; "x"; "y"]%string = pre ++ sc :: post /\
    length pre = 1%nat /\ length post = 1%nat.
Proof.
  assert (E : modify_axis Wayward.fussy [0; 1; 2; 3]%nat Wayward.world3 =
    (Wayward.world3,
     [Call PositionScales; TransModifyAxis "y"%string [0; 1; 2; 3]%nat;
      TransModifyAxis "x"%string [0; 1; 2; 3]%nat],
     Raise ValueError)) by (vm_compute; reflexivity).
  split; [exact E|].
  pose proof (modify_axis_passes_only_AttributeError Wayward.fussy _ _ _ _ _ E)
    as [_ H].
  change (position_scales Wayward.fussy (w_plot Wayward.world3))
    with (w_plot Wayward.world3, Ok ["y"; "x"; "y"]%string) in H.
  destruct H as (_ & pre & sc & post & p & Hf & _ & _ & Ht).
  exists pre, sc, post. split; [exact Hf|].
  apply (f_equal length) in Ht. apply (f_equal length) in Hf.
  assert (Hc : length (can_modify Wayward.fussy ["y"; "x"; "y"]%string) = 3%nat)
    by (vm_compute; reflexivity).
  rewrite Hc, length_app in Hf. cbn [length] in Ht, Hf.
  rewrite length_map, length_app in Ht. cbn [length] in Ht.
  split; lia.
Defined.

Lemma draw_body_in_order_witness :
  exists w' t evss,
    draw_body Grid.collab4 Grid.data1 CurrentFigure [0; 1; 2; 3; 4]%nat
              Grid.world1 = (w', t, Ok tt) /\
    length evss = 4%nat /\
    Forall2 (fun ap evs => panel_events Grid.collab4 Grid.world1 Grid.data1
                             ap.1 ap.2 evs)
            (combine [0; 1; 2; 3; 4]%nat (iterrows Grid.layout4)) evss /\
    t = concat evss ++
        [SubplotsAdjust 5 5; Call PositionScales;
         TransModifyAxis "y"%string [0; 1; 2; 3; 4]%nat].
Proof.
  pose (x := draw_body Grid.collab4 Grid.data1 CurrentFigure
               [0; 1; 2; 3; 4]%nat Grid.world1).
  assert (E : draw_body Grid.collab4 Grid.data1 CurrentFigure
                [0; 1; 2; 3; 4]%nat Grid.world1 = (x.1.1, x.1.2, Ok tt))
    by (vm_compute; reflexivity).
  destruct (draw_body_in_order Grid.collab4 Grid.data1 CurrentFigure
              [0; 1; 2; 3; 4]%nat Grid.world1 x.1.1 x.1.2 E)
    as (evss & p' & pscales & F & Hlen & EP & _ & _ & Ht).
  exists x.1.1, x.1.2, evss. split; [exact E|]. split; [exact Hlen|].
  split; [exact F|].
  vm_compute in EP. injection EP as _ <-.
  rewrite Ht. f_equal.
Defined.

Lemma render_works_on_the_copy_witness :
  exists d,
    Toy.heap2 !! 4%positive = Some (OInstance d) /\
    (render Toy.collab 4%positive Toy.heap2).1.1 !! 4%positive =
      Some (OInstance d) /\
    (render Toy.collab 4%positive Toy.heap2).1.1 !! 7%positive =
      Some (OLayers [Toy.point; Toy.line]).
Proof.
  assert (Hd : exists d, Toy.heap2 !! 4%positive = Some (OInstance d) /\
                 d !! "data" = Some 1%positive /\
                 d !! "plot_env" = Some 3%positive).
  { eexists. split; [vm_compute; reflexivity|].
    split; vm_compute; reflexivity. }
  destruct Hd as (d & Hd & D1 & D2).
  exists d. split; [exact Hd|].
  destruct (render_works_on_the_copy Toy.collab 4%positive Toy.heap2 d Hd)
    as (P & _ & Hret).
  split.
  - apply (Hret _ (render Toy.collab 4%positive Toy.heap2).1.2 CurrentFigure).
    vm_compute. reflexivity.
  - apply P; [vm_compute; reflexivity|].
    intros (key & Hk & Hl). apply in_shallow_spec in Hk as [-> | ->];
      unfold loc in *; congruence.
Defined.

Lemma draw_hangs_the_axes_on_the_copy_witness :
  exists h2 t dp a,
    draw Grid.collab4 4%positive Grid.store1 = (h2, t, Ok 11%positive) /\
    h2 !! 11%positive = Some (OInstance dp) /\
    dp !! "axs" = Some a /\
    h2 !! a = Some (OAxs [0; 1; 2; 3]%nat) /\
    h2 !! 4%positive = Grid.store1 !! 4%positive.
Proof.
  pose (x := draw Grid.collab4 4%positive Grid.store1).
  assert (E : draw Grid.collab4 4%positive Grid.store1 =
              (x.1.1, x.1.2, Ok 11%positive)) by (vm_compute; reflexivity).
  assert (Hd : exists d, Grid.store1 !! 4%positive = Some (OInstance d))
    by (eexists; vm_compute; reflexivity).
  destruct Hd as (d & Hd).
  destruct (draw_hangs_the_axes_on_the_copy Grid.collab4 4%positive Grid.store1
              x.1.1 d x.1.2 11%positive Hd E)
    as (ha & ta & data & panel & fl & f & dp & a & g & EB & _ & Efl & Ef &
        Hp & Ha & _ & Hao & _ & _ & _ & _ & Hself).
  exists x.1.1, x.1.2, dp, a. split; [exact E|]. split; [exact Hp|].
  split; [exact Ha|]. split; [|exact (eq_trans Hself (eq_sym Hd))].
  vm_compute in EB. injection EB as <- _ _ _.
  vm_compute in Efl. injection Efl as <-.
  vm_compute in Ef. injection Ef as <-.
  exact Hao.
Defined.

Lemma build_shares_the_data_frame_witness :
  exists h2 t data panel plot c',
    plot_build Grid.meddling 4%positive Grid.store1 =
      (h2, t, Ok (data, panel, plot)) /\
    Grid.store1 !! 1%positive = Some (ODataFrame Grid.df4) /\
    getattr 4%positive "data" h2 = (h2, [], Ok 1%positive) /\
    h2 !! 1%positive = Some (ODataFrame (p_data c')) /\
    p_data c' = mkDataFrame ["r"; "c"; "x"; "y"]%string [].
Proof.
  pose (x := plot_build Grid.meddling 4%positive Grid.store1).
  assert (E : exists data panel,
            plot_build Grid.meddling 4%positive Grid.store1 =
              (x.1.1, x.1.2, Ok (data, panel, 11%positive)))
    by (eexists _, _; vm_compute; reflexivity).
  destruct E as (data & panel & E).
  assert (Hd : exists d, Grid.store1 !! 4%positive = Some (OInstance d) /\
                 d !! "data" = Some 1%positive).
  { eexists. split; vm_compute; reflexivity. }
  destruct Hd as (d & Hd & D1).
  assert (Hl : Grid.store1 !! 1%positive = Some (ODataFrame Grid.df4))
    by (vm_compute; reflexivity).
  destruct (build_shares_the_data_frame Grid.meddling 4%positive Grid.store1
              x.1.1 d x.1.2 data panel 11%positive 1%positive Grid.df4
              Hd D1 Hl E)
    as (c & c' & tp & _ & _ & _ & _ & G & Hafter).
  exists x.1.1, x.1.2, data, panel, 11%positive, c'.
  split; [exact E|]. split; [exact Hl|]. split; [exact G|].
  split; [exact Hafter|].
  assert (Hc : x.1.1 !! 1%positive =
               Some (ODataFrame (mkDataFrame ["r"; "c"; "x"; "y"]%string [])))
    by (vm_compute; reflexivity).
  pose proof (eq_trans (eq_sym Hafter) Hc) as Heq. by injection Heq.
Defined.

Lemma draw_legend_puts_the_box_on_the_first_axes_witness :
  exists h1 rb,
    with_plot 11%positive (call GuidesBuild (guides_build Toy.collab))
      Grid.drawn4 = (h1, [Call GuidesBuild], rb) /\
    draw_legend Toy.collab 4%positive 11%positive Grid.drawn4 =
      (h1, [Call GuidesBuild; AddArtist 0 ["color"%string] 8 (50, 95)],
       Ok 11%positive).
Proof.
  pose (x := draw_legend Toy.collab 4%positive 11%positive Grid.drawn4).
  assert (E : draw_legend Toy.collab 4%positive 11%positive Grid.drawn4 =
              (x.1.1, [Call GuidesBuild; AddArtist 0 ["color"%string] 8 (50, 95)],
               Ok 11%positive)) by (vm_compute; reflexivity).
  assert (Hd : exists dp, Grid.drawn4 !! 11%positive = Some (OInstance dp) /\
                 dp !! "axs" = Some 19%positive /\
                 dp !! "fig" = Some 20%positive).
  { eexists. split; [vm_compute; reflexivity|]. split; vm_compute; reflexivity. }
  destruct Hd as (dp & Hp & Ha & Hg).
  destruct (draw_legend_puts_the_box_on_the_first_axes Toy.collab 4%positive
              11%positive Grid.drawn4 dp 19%positive 20%positive CurrentFigure
              0%nat [] Hp Ha ltac:(vm_compute; reflexivity) Hg
              ltac:(vm_compute; reflexivity) _ _ _ E)
    as [(_ & Ht & _) | (rb & EW & _)]; [discriminate Ht|].
  exists x.1.1, rb. split; [exact EW | exact E].
Defined.

Lemma draw_layers_stops_at_a_frame_without_PANEL_witness :
  draw_layers [(Toy.point, Toy.add_panel Toy.df0); (Toy.line, Toy.df0)] 1
    [("PANEL"%string, VInt 1)] "x"%string "y"%string 0 Toy.world2 =
  (Toy.world2,
   [LayerPlot Toy.point (Toy.add_panel Toy.df0) "x"%string "y"%string 0 1],
   Raise (KeyError "PANEL")).
Proof.
  refine (eq_trans (draw_layers_stops_at_a_frame_without_PANEL
                      [(Toy.point, Toy.add_panel Toy.df0)] [] Toy.line Toy.df0
                      1 [("PANEL"%string, VInt 1)] "x"%string "y"%string 0%nat
                      Toy.world2 (VInt 1) eq_refl _ _) _).
  - apply Forall_singleton. apply (bool_decide_unpack _). vm_compute. exact I.
  - apply (bool_decide_unpack _). vm_compute. exact I.
  - vm_compute. reflexivity.
Defined.

Lemma panels_share_out_the_rows_witness :
  concat (map (fun pid => rows (df_mask (Grid.add_panel_of Grid.df4)
                                  (series_eq [VInt 1; VInt 4; VInt 1; VInt 3] pid)))
              [VInt 1; VInt 2; VInt 3; VInt 4]) ≡ₚ
  rows (Grid.add_panel_of Grid.df4).
Proof.
  refine (proj2 (panels_share_out_the_rows (Grid.add_panel_of Grid.df4)
                   [VInt 1; VInt 4; VInt 1; VInt 3]
                   [VInt 1; VInt 2; VInt 3; VInt 4] _ _) _).
  - vm_compute. reflexivity.
  - repeat (apply NoDup_cons; split;
            [rewrite ?not_elem_of_cons; repeat split;
             first [discriminate | apply not_elem_of_nil]|]).
    apply NoDup_nil_2.
  - repeat (apply Forall_cons; split; [vm_compute; reflexivity|]).
    apply Forall_nil_2.
Defined.

